(** * GeoProfile: the request handler of [main.py] and its five spatial queries

    The development follows [main.py] top to bottom:
    - Python values as the handler sees them: exceptions, the floats of
      CPython (IEEE 754 binary64, through the Standard Library's
      [SpecFloat]), the values produced by [json.loads];
    - the database as the handler sees it: one connection per query
      function, a statement executed with the WKT text as its parameter, the
      rows fetched;
    - the two SQL statements whose clauses the response order depends on
      ([fetch_hydrographic_info] and [calculate_clc_percentage]);
    - [process_linestring] itself. *)

From Stdlib Require Import ZArith List Bool Lia String Ascii.
From Stdlib Require Import Sorted Permutation DecimalString.
From Stdlib Require Import SpecFloat.
Import ListNotations.

Set Warnings "-register-all".

Local Open Scope Z_scope.

(** ** Python exceptions and results *)

(** The exceptions the handler can raise.  [DatabaseError] stands for any
    [psycopg2.Error] raised while a statement runs; [JSONDecodeError] for a
    body or a GeoJSON text that [json.loads] rejects. *)
Inductive exn : Type :=
| KeyError
| IndexError
| TypeError
| ValueError
| OverflowError
| ZeroDivisionError
| JSONDecodeError
| DatabaseError.

Inductive pyres (A : Type) : Type :=
| Ok (a : A)
| Raise (e : exn).
Arguments Ok {A} a.
Arguments Raise {A} e.

Definition pyres_bind {A B} (r : pyres A) (k : A -> pyres B) : pyres B :=
  match r with
  | Ok a => k a
  | Raise e => Raise e
  end.

Declare Scope py_scope.
Delimit Scope py_scope with py.
Notation "x <- r ;; k" := (pyres_bind r (fun x => k))
  (at level 100, r at next level, right associativity) : py_scope.

(** A comprehension [[f x for x in xs]] whose body may raise: elements are
    evaluated left to right and the first exception escapes. *)
Fixpoint comprehension {A B} (f : A -> pyres B) (xs : list A) : pyres (list B) :=
  match xs with
  | [] => Ok []
  | x :: xs' =>
      pyres_bind (f x) (fun y =>
      pyres_bind (comprehension f xs') (fun ys => Ok (y :: ys)))
  end.

(** [enumerate(xs)], counting from [start]. *)
Fixpoint enumerate_from {A} (start : nat) (xs : list A) : list (nat * A) :=
  match xs with
  | [] => []
  | x :: xs' => (start, x) :: enumerate_from (S start) xs'
  end.

Definition enumerate {A} (xs : list A) : list (nat * A) := enumerate_from 0 xs.

(** ** CPython floats *)

Module PyFloat.

Definition prec : Z := 53.
Definition emax : Z := 1024.

Definition float := spec_float.

(** [float(n)] for a Python int, as the arithmetic operators coerce their
    int operand: round to nearest, ties to even; too large an int raises
    [OverflowError]. *)
Definition of_int (n : Z) : pyres float :=
  match binary_normalize prec emax n 0 false with
  | S754_infinity _ => Raise OverflowError
  | x => Ok x
  end.

Definition is_zero (x : float) : bool :=
  match x with
  | S754_zero _ => true
  | _ => false
  end.

(** [x / n] with [x] a float and [n] an int ([float_div] of CPython: the
    int is converted, a zero divisor raises). *)
Definition div_int (x : float) (n : Z) : pyres float :=
  pyres_bind (of_int n) (fun y =>
  if is_zero y then Raise ZeroDivisionError
  else Ok (SFdiv prec emax x y)).

(** [x * n] with [x] a float and [n] an int. *)
Definition mul_int (x : float) (n : Z) : pyres float :=
  pyres_bind (of_int n) (fun y => Ok (SFmul prec emax x y)).

(** [int(x)]: truncation towards zero; NaN and the infinities raise. *)
Definition to_int (x : float) : pyres Z :=
  match x with
  | S754_zero _ => Ok 0
  | S754_finite s m e =>
      let a := Z.shiftl (Zpos m) e in
      Ok (if s then - a else a)
  | S754_infinity _ => Raise OverflowError
  | S754_nan => Raise ValueError
  end.

(** [math.floor(x)]: the largest integer not above [x]; NaN and the
    infinities raise as for [int]. *)
Definition floor (x : float) : pyres Z :=
  match x with
  | S754_zero _ => Ok 0
  | S754_finite s m e =>
      Ok (Z.shiftl (if s then Zneg m else Zpos m) e)
  | S754_infinity _ => Raise OverflowError
  | S754_nan => Raise ValueError
  end.

(** [x >= 0]. *)
Definition nonneg (x : float) : bool := SFleb (S754_zero false) x.

(** No minus sign on a nonzero value: [int] and [math.floor] agree on
    such floats. *)
Definition sign_clear (x : float) : Prop :=
  match x with
  | S754_finite s _ _ | S754_infinity s => s = false
  | S754_zero _ | S754_nan => True
  end.

(** No minus sign at all, not even on a zero. *)
Definition unsigned (x : float) : Prop :=
  match x with
  | S754_zero s | S754_finite s _ _ | S754_infinity s => s = false
  | S754_nan => True
  end.

End PyFloat.

(** ** Values of [json.loads] and the Python operations the handler applies *)

(** A decoded JSON document.  An object is a Python dict: an association
    list in insertion order, which is the order a [for] loop visits its
    keys in.  Strings are sequences of one-byte characters. *)
Inductive json : Type :=
| JNull
| JBool (b : bool)
| JInt (n : Z)
| JFloat (x : PyFloat.float)
| JStr (s : string)
| JList (items : list json)
| JDict (members : list (string * json)).

Fixpoint dict_get (members : list (string * json)) (key : string) : option json :=
  match members with
  | [] => None
  | (k, v) :: rest => if String.eqb k key then Some v else dict_get rest key
  end.

(** [v[key]] with a string key: only a dict can answer; a list or a string
    wants an integer index and everything else is not subscriptable. *)
Definition getitem_str (v : json) (key : string) : pyres json :=
  match v with
  | JDict members =>
      match dict_get members key with
      | Some x => Ok x
      | None => Raise KeyError
      end
  | _ => Raise TypeError
  end.

(** [v[i]] with a non-negative integer index.  A dict decoded from JSON has
    string keys only, so an integer key is always missing. *)
Definition getitem_int (v : json) (i : nat) : pyres json :=
  match v with
  | JList items =>
      match nth_error items i with
      | Some x => Ok x
      | None => Raise IndexError
      end
  | JStr s =>
      match String.get i s with
      | Some c => Ok (JStr (String c EmptyString))
      | None => Raise IndexError
      end
  | JDict _ => Raise KeyError
  | _ => Raise TypeError
  end.

(** [iter(v)], exhausted into a list: the items of a list, the characters
    of a string, the keys of a dict. *)
Definition py_iter (v : json) : pyres (list json) :=
  match v with
  | JList items => Ok items
  | JStr s => Ok (map (fun c => JStr (String c EmptyString)) (list_ascii_of_string s))
  | JDict members => Ok (map (fun kv => JStr (fst kv)) members)
  | _ => Raise TypeError
  end.

(** [str(n)] for an int. *)
Definition str_of_int (n : Z) : string := NilZero.string_of_int (Z.to_int n).

(** ** Rows fetched from the database *)

(** A column whose type the repository does not declare (a name, a code, a
    description): what psycopg2 hands over for it is [None], an int or a
    str. *)
Inductive scalar : Type :=
| SqlNull
| SqlInt (n : Z)
| SqlText (s : string).

Definition scalar_eqb (a b : scalar) : bool :=
  match a, b with
  | SqlNull, SqlNull => true
  | SqlInt x, SqlInt y => Z.eqb x y
  | SqlText x, SqlText y => String.eqb x y
  | _, _ => false
  end.

(** [VALUE, COORDS] of [fetch_elevation_data]: the raster value cast to INT
    (NULL where the raster has no data) and the GeoJSON text of the point. *)
Definition elevation_row : Type := option Z * string.

(** [NOMENTITEH, CLASSE, DIST_M] of [fetch_hydrographic_info]. *)
Record hydro_row : Type := {
  hydro_name : scalar;
  hydro_classe : option Z;
  hydro_dist_m : Z
}.

(** [CODE_CLC, DESCRIPTION_CLC, LONGUEUR_CUMULEE] of [fetch_clc_data]. *)
Record clc_row : Type := {
  clc_code : scalar;
  clc_description : scalar;
  clc_longueur_cumulee : Z
}.

(** [CODE_CLC, DESCRIPTION_CLC, LONGUEUR_PRCT] of
    [calculate_clc_percentage]. *)
Record clc_pct_row : Type := {
  pct_code : scalar;
  pct_description : scalar;
  pct_longueur_prct : Z
}.

(** ** The ORDER BY clause *)

(** Rows ordered on an integer key by insertion, ascending.  Rows with equal
    keys come out in the reverse of their input order here; PostgreSQL
    promises no order among them, and nothing below depends on it. *)
Section OrderBy.
Context {A : Type}.
Variable key : A -> Z.

Fixpoint insert_by (x : A) (l : list A) : list A :=
  match l with
  | [] => [x]
  | y :: l' => if key x <? key y then x :: l else y :: insert_by x l'
  end.

Definition order_by (l : list A) : list A := fold_right insert_by [] l.
End OrderBy.

(** [ORDER BY key DESC] *)
Definition order_by_desc {A} (key : A -> Z) (l : list A) : list A :=
  order_by (fun x => - key x) l.

(** ** The two statements whose clauses order and filter the response *)

(** What PostgreSQL and PostGIS supply to the statements: the spatial
    functions they call, float8 arithmetic (which reports overflow and
    division by zero as errors) and the cast [::INT].  A function that can
    reject its argument returns a [pyres]: an error there aborts the
    statement, and psycopg2 raises it from [cursor.execute]. *)
Class SpatialEngine (geom : Type) : Type := {
  st_geomfromtext : string -> Z -> pyres geom;
  st_length : geom -> PyFloat.float;
  st_crosses : geom -> geom -> bool;
  st_intersects : geom -> geom -> bool;
  st_intersection : geom -> geom -> geom;
  st_dump : geom -> list geom;
  st_linelocatepoint : geom -> geom -> pyres PyFloat.float;
  float8mul : PyFloat.float -> PyFloat.float -> pyres PyFloat.float;
  float8div : PyFloat.float -> PyFloat.float -> pyres PyFloat.float;
  float8pl : PyFloat.float -> PyFloat.float -> pyres PyFloat.float;
  float8_to_int4 : PyFloat.float -> pyres Z
}.

(** The rows of [GEO_COURS_EAU] and [GEO_CLC_2018], with the columns the
    statements read.  A NULL geometry joins with nothing. *)
Record cours_eau (geom : Type) : Type := {
  NOMENTITEH : scalar;
  CLASSE : option Z;
  cours_eau_geom : option geom
}.
Arguments NOMENTITEH {geom} _.
Arguments CLASSE {geom} _.
Arguments cours_eau_geom {geom} _.

Record clc_2018 (geom : Type) : Type := {
  CODE_CLC : scalar;
  DESCRIPTION_CLC : scalar;
  clc_geom : option geom
}.
Arguments CODE_CLC {geom} _.
Arguments DESCRIPTION_CLC {geom} _.
Arguments clc_geom {geom} _.

(** The keys of a GROUP BY, each once, in order of first appearance. *)
Fixpoint distinct {K} (eqb : K -> K -> bool) (l : list K) : list K :=
  match l with
  | [] => []
  | k :: l' => k :: filter (fun k' => negb (eqb k k')) (distinct eqb l')
  end.

Section Statements.
Context {geom : Type} {engine : SpatialEngine geom}.
Variable GEO_COURS_EAU : list (cours_eau geom).
Variable GEO_CLC_2018 : list (clc_2018 geom).

Local Open Scope py_scope.

(** [C.CLASSE IN (1, 2, 3)]; NULL is not in the list. *)
Definition classe_in_1_2_3 (classe : option Z) : bool :=
  match classe with
  | Some c => (c =? 1) || (c =? 2) || (c =? 3)
  | None => false
  end.

(** [FROM GEO_COURS_EAU AS C JOIN TOPO_LINE AS L ON ST_CROSSES (C.GEOM,
    L.GEOM) CROSS JOIN LATERAL ST_DUMP (ST_INTERSECTION (C.GEOM, L.GEOM))
    AS D]: one joined row per dumped piece of each crossing. *)
Definition hydro_from (line : geom) : list (cours_eau geom * geom) :=
  flat_map
    (fun c =>
       match cours_eau_geom c with
       | Some g =>
           if st_crosses g line
           then map (fun d => (c, d)) (st_dump (st_intersection g line))
           else []
       | None => []
       end)
    GEO_COURS_EAU.

(** The select list: [C.NOMENTITEH, C.CLASSE,
    (ST_LINELOCATEPOINT (L.GEOM, (D).GEOM) * ST_LENGTH (L.GEOM))::INT]. *)
Definition hydro_select (line : geom) (cd : cours_eau geom * geom) : pyres hydro_row :=
  let (c, d) := cd in
  fraction <- st_linelocatepoint line d ;;
  metres <- float8mul fraction (st_length line) ;;
  dist <- float8_to_int4 metres ;;
  Ok {| hydro_name := NOMENTITEH c;
        hydro_classe := CLASSE c;
        hydro_dist_m := dist |}.

(** The statement of [fetch_hydrographic_info], run with its parameter. *)
Definition hydro_statement (wkt : string) : pyres (list hydro_row) :=
  line <- st_geomfromtext wkt 3857 ;;
  let kept := filter (fun cd => classe_in_1_2_3 (CLASSE (fst cd))) (hydro_from line) in
  rows <- comprehension (hydro_select line) kept ;;
  Ok (order_by hydro_dist_m rows).

(** [FROM GEO_CLC_2018 AS C JOIN TOPO_LINE AS L ON ST_INTERSECTS (L.GEOM,
    C.GEOM)], each joined row with its geometry. *)
Definition clc_from (line : geom) : list (clc_2018 geom * geom) :=
  flat_map
    (fun c =>
       match clc_geom c with
       | Some g => if st_intersects line g then [(c, g)] else []
       | None => []
       end)
    GEO_CLC_2018.

Definition clc_key (cg : clc_2018 geom * geom) : scalar * scalar :=
  (CODE_CLC (fst cg), DESCRIPTION_CLC (fst cg)).

Definition clc_key_eqb (a b : scalar * scalar) : bool :=
  scalar_eqb (fst a) (fst b) && scalar_eqb (snd a) (snd b).

(** The literal [100] next to a float8 operand. *)
Definition float8_100 : PyFloat.float :=
  binary_normalize PyFloat.prec PyFloat.emax 100 0 false.

(** [ST_LENGTH (ST_INTERSECTION (L.GEOM, C.GEOM)) / ST_LENGTH (L.GEOM) *
    100] for one joined row. *)
Definition clc_share (line : geom) (cg : clc_2018 geom * geom) : pyres PyFloat.float :=
  ratio <- float8div (st_length (st_intersection line (snd cg))) (st_length line) ;;
  float8mul ratio float8_100.

(** [SUM] over float8: the first input starts the state, every further
    one is added to it. *)
Fixpoint float8_accum (state : PyFloat.float) (inputs : list PyFloat.float) : pyres PyFloat.float :=
  match inputs with
  | [] => Ok state
  | x :: inputs' => s <- float8pl state x ;; float8_accum s inputs'
  end.

(** One output row of the GROUP BY: the key, and the sum of the shares of
    the group cast to INT.  A group holds at least one joined row (lemma
    [clc_group_inhabited]); the first branch is there for totality
    only. *)
Definition clc_pct_group (line : geom) (joined : list (clc_2018 geom * geom))
    (k : scalar * scalar) : pyres clc_pct_row :=
  let members := filter (fun cg => clc_key_eqb k (clc_key cg)) joined in
  shares <- comprehension (clc_share line) members ;;
  match shares with
  | [] => Raise DatabaseError
  | first :: others =>
      total <- float8_accum first others ;;
      pct <- float8_to_int4 total ;;
      Ok {| pct_code := fst k;
            pct_description := snd k;
            pct_longueur_prct := pct |}
  end.

(** The statement of [calculate_clc_percentage], run with its parameter. *)
Definition clc_pct_statement (wkt : string) : pyres (list clc_pct_row) :=
  line <- st_geomfromtext wkt 3857 ;;
  let joined := clc_from line in
  let keys := distinct clc_key_eqb (map clc_key joined) in
  rows <- comprehension (clc_pct_group line joined) keys ;;
  Ok (order_by_desc pct_longueur_prct rows).

End Statements.

(** ** Connections *)

(** The five statements of [main.py], by the function that runs them. *)
Inductive statement : Type :=
| LengthStatement
| ElevationStatement
| HydroStatement
| ClcStatement
| ClcPctStatement.

(** What the process does to the database service, in order.  [Connect c]:
    [psycopg2.connect] returned the connection numbered [c]; [Execute c s
    wkt]: statement [s] ran on it with parameter [wkt]; [Commit c] and
    [Rollback c]: the [with] block of [c] was left, by returning or by
    raising, which ends the transaction and leaves [c] open; [Close c]: the
    connection object of [c] was freed, which closes [c]. *)
Inductive event : Type :=
| Connect (c : nat)
| Execute (c : nat) (s : statement) (param : string)
| Commit (c : nat)
| Rollback (c : nat)
| Close (c : nat).

(** [opened]: how many connections the process has opened so far, the next
    one takes this number; [live]: the connections that are open; [trace]:
    the events so far, oldest first. *)
Record world : Type := {
  opened : nat;
  live : list nat;
  trace : list event
}.

(** A computation that talks to the database: it may raise, and it leaves
    the world changed either way. *)
Definition io (A : Type) : Type := world -> pyres A * world.

Definition io_ret {A} (a : A) : io A := fun w => (Ok a, w).

Definition io_bind {A B} (m : io A) (k : A -> io B) : io B :=
  fun w =>
    match m w with
    | (Ok a, w') => k a w'
    | (Raise e, w') => (Raise e, w')
    end.

Definition lift {A} (r : pyres A) : io A := fun w => (r, w).

Declare Scope io_scope.
Delimit Scope io_scope with io.
Notation "x <- m ;; k" := (io_bind m (fun x => k))
  (at level 100, m at next level, right associativity) : io_scope.

Definition log (ev : event) (w : world) : world :=
  {| opened := opened w; live := live w; trace := trace w ++ [ev] |}.

(** [psycopg2.connect]: a new connection every time.  The service is taken
    to be reachable: errors come from the statements, not from connecting. *)
Definition connect : io nat :=
  fun w =>
    let c := opened w in
    (Ok c, log (Connect c) {| opened := S c; live := c :: live w; trace := trace w |}).

(** The [__exit__] of a psycopg2 connection: [commit] when the block
    returned, [rollback] when it raised.  Neither closes the connection;
    both are taken to succeed. *)
Definition commit (c : nat) : io unit :=
  fun w => (Ok tt, log (Commit c) w).

Definition rollback (c : nat) : io unit :=
  fun w => (Ok tt, log (Rollback c) w).

(** No function of [main.py] calls [conn.close()].  A connection is closed
    when CPython frees its object, that is when the last reference to it
    goes. *)
Definition close (c : nat) : io unit :=
  fun w =>
    (Ok tt, log (Close c)
              {| opened := opened w;
                 live := filter (fun c' => negb (Nat.eqb c c')) (live w);
                 trace := trace w |}).

(** [with psycopg2.connect(...) as conn: body], the whole body of a query
    function; the outcome of [body] is the outcome of the function.
    - [body] returns: the block commits, the function returns, its frame
      goes and with it [conn], the only reference to the connection, which
      is freed and so closed.
    - [body] raises: the block rolls back and the exception leaves the
      function; its traceback keeps the frame and [conn] in it, so the
      connection stays open while the exception travels up through the
      handler. *)
Definition with_connection {A} (body : nat -> io A) : io A :=
  fun w =>
    match connect w with
    | (Ok c, w1) =>
        match body c w1 with
        | (Ok a, w2) => (Ok a, snd (close c (snd (commit c w2))))
        | (Raise e, w2) => (Raise e, snd (rollback c w2))
        end
    | (Raise e, w1) => (Raise e, w1)
    end.

(** [cursor.execute(sql, (wkt,))] followed by [cursor.fetchall()]: [run] is
    what the statement yields for its parameter. *)
Definition execute {R} (conn : nat) (s : statement) (run : string -> pyres R)
    (wkt : string) : io R :=
  fun w => (run wkt, log (Execute conn s wkt) w).

(** The database service: for each statement, the rows it returns for a
    WKT parameter, or the error it reports. *)
Record database : Type := {
  db_length : string -> pyres (list PyFloat.float);
  db_elevation : string -> pyres (list elevation_row);
  db_hydro : string -> pyres (list hydro_row);
  db_clc : string -> pyres (list clc_row);
  db_clc_pct : string -> pyres (list clc_pct_row)
}.

(** ** The endpoint *)

Record profile_point : Type := {
  distance : Z;
  elevation : Z;
  geometry : json
}.

Record response : Type := {
  values : list profile_point;
  hydro_info : list hydro_row;
  clc_info : list clc_row;
  clc_pct_info : list clc_pct_row
}.

(** The request as the handler uses it: the outcome of [await
    request.json()]. *)
Record request : Type := {
  request_json : pyres json
}.

Section Handler.

(** Built-ins of CPython the repository relies on without defining them:
    [repr] of a float, a list or a dict (what an f-string prints for such
    a value), and [json.loads]. *)
Variable py_repr : json -> string.
Variable json_loads : string -> pyres json.
Variable db : database.

(** [f'{v}']: [format(v, '')], which is [str(v)]. *)
Definition py_format (v : json) : string :=
  match v with
  | JNull => "None"
  | JBool true => "True"
  | JBool false => "False"
  | JInt n => str_of_int n
  | JStr s => s
  | JFloat _ | JList _ | JDict _ => py_repr v
  end.

Local Open Scope string_scope.

(** [f'{coord[0]} {coord[1]}'] *)
Definition coord_text (coord : json) : pyres string :=
  (x <- getitem_int coord 0 ;;
   let sx := py_format x in
   y <- getitem_int coord 1 ;;
   Ok (sx ++ " " ++ py_format y))%py.

(** [f"LINESTRING({', '.join(... for coord in data['coords'])})"] *)
Definition build_wkt (data : json) : pyres string :=
  (coords <- getitem_str data "coords" ;;
   items <- py_iter coords ;;
   parts <- comprehension coord_text items ;;
   Ok ("LINESTRING(" ++ String.concat ", " parts ++ ")"))%py.

Local Open Scope io_scope.

Definition fetch_elevation_data (wkt : string) : io (list elevation_row) :=
  with_connection (fun conn =>
    execute conn ElevationStatement (db_elevation db) wkt).

(** [cursor.fetchall()[0][0]]: the single column of the first row. *)
Definition calculate_linestring_length (wkt : string) : io PyFloat.float :=
  with_connection (fun conn =>
    rows <- execute conn LengthStatement (db_length db) wkt ;;
    lift (match nth_error rows 0 with
          | Some len => Ok len
          | None => Raise IndexError
          end)).

Definition fetch_hydrographic_info (wkt : string) : io (list hydro_row) :=
  with_connection (fun conn =>
    execute conn HydroStatement (db_hydro db) wkt).

Definition fetch_clc_data (wkt : string) : io (list clc_row) :=
  with_connection (fun conn =>
    execute conn ClcStatement (db_clc db) wkt).

Definition calculate_clc_percentage (wkt : string) : io (list clc_pct_row) :=
  with_connection (fun conn =>
    execute conn ClcPctStatement (db_clc_pct db) wkt).

(** [[point[0] if point[0] is not None else 0, point[1]]] *)
Definition elevation_point (point : elevation_row) : Z * string :=
  (match fst point with Some v => v | None => 0 end, snd point).

(** One entry of [geospatial_data]. *)
Definition profile_entry (segment_length : PyFloat.float)
    (ip : nat * (Z * string)) : pyres profile_point :=
  let (index, point) := ip in
  (scaled <- PyFloat.mul_int segment_length (Z.of_nat index) ;;
   d <- PyFloat.to_int scaled ;;
   geojson <- json_loads (snd point) ;;
   coordinates <- getitem_str geojson "coordinates" ;;
   Ok {| distance := d; elevation := fst point; geometry := coordinates |})%py.

Definition process_linestring (req : request) : io response :=
  data <- lift (request_json req) ;;
  wkt <- lift (build_wkt data) ;;
  total_length <- calculate_linestring_length wkt ;;
  fetched <- fetch_elevation_data wkt ;;
  let elevation_points := map elevation_point fetched in
  segment_length <-
    lift (PyFloat.div_int total_length (Z.of_nat (List.length elevation_points))) ;;
  geospatial_data <-
    lift (comprehension (profile_entry segment_length) (enumerate elevation_points)) ;;
  hydro <- fetch_hydrographic_info wkt ;;
  clc <- fetch_clc_data wkt ;;
  pct <- calculate_clc_percentage wkt ;;
  io_ret {| values := geospatial_data;
            hydro_info := hydro;
            clc_info := clc;
            clc_pct_info := pct |}.

End Handler.

(** The world of a process that has not yet touched the database. *)
Definition fresh_world : world := {| opened := 0; live := []; trace := [] |}.

(** ** The properties, in the terms of the specification *)

(** The WKT text of a request: [data = await request.json()] followed by
    the f-string. *)
Definition request_wkt (py_repr : json -> string) (req : request) : pyres string :=
  (data <- request_json req ;; build_wkt py_repr data)%py.

(** The first column of the first row of the length statement: the total
    length the handler works with. *)
Definition total_length_of (db : database) (wkt : string) : pyres PyFloat.float :=
  (rows <- db_length db wkt ;;
   match nth_error rows 0 with
   | Some len => Ok len
   | None => Raise IndexError
   end)%py.

(** [floor(total_length / N * i)], evaluated as Python evaluates it. *)
Definition spec_distance (total_length : PyFloat.float) (N i : nat) : pyres Z :=
  (per_sample <- PyFloat.div_int total_length (Z.of_nat N) ;;
   scaled <- PyFloat.mul_int per_sample (Z.of_nat i) ;;
   PyFloat.floor scaled)%py.

(** A line of WKT from the printed coordinates of its points: each pair
    joined by a space, the pairs joined by a comma and a space. *)
Definition spec_wkt (pairs : list (string * string)) : string :=
  ("LINESTRING("
   ++ String.concat ", " (map (fun p => fst p ++ " " ++ snd p) pairs)
   ++ ")")%string.




(** What one query function that returns leaves in the trace: connection
    [c] is opened, runs its statement, is committed and is closed. *)
Definition query_trace (c : nat) (s : statement) (wkt : string) : list event :=
  [Connect c; Execute c s wkt; Commit c; Close c].

(** What one query function that raises leaves in the trace: connection
    [c] is opened, runs its statement and is rolled back. *)
Definition failed_query_trace (c : nat) (s : statement) (wkt : string) : list event :=
  [Connect c; Execute c s wkt; Rollback c].

(** What an answered request leaves in the trace when [c] connections were
    opened before it. *)
Definition request_trace (c : nat) (wkt : string) : list event :=
  query_trace c LengthStatement wkt
  ++ query_trace (c + 1) ElevationStatement wkt
  ++ query_trace (c + 2) HydroStatement wkt
  ++ query_trace (c + 3) ClcStatement wkt
  ++ query_trace (c + 4) ClcPctStatement wkt.


(** Two entries of [coords] that each have a first and a second element,
    the same in both. *)
Definition same_first_two (c c' : json) : Prop :=
  exists a b,
    getitem_int c 0 = Ok a /\ getitem_int c 1 = Ok b
    /\ getitem_int c' 0 = Ok a /\ getitem_int c' 1 = Ok b.

(** The world after one query function that started in [w] and returned. *)
Definition after_query (s : statement) (wkt : string) (w : world) : world :=
  {| opened := S (opened w);
     live := filter (fun c' => negb (Nat.eqb (opened w) c')) (opened w :: live w);
     trace := ((trace w ++ [Connect (opened w)] ++ [Execute (opened w) s wkt])
               ++ [Commit (opened w)])
              ++ [Close (opened w)] |}.

(** The world after one query function that started in [w] and raised: its
    connection is among the open ones. *)
Definition after_failed_query (s : statement) (wkt : string) (w : world) : world :=
  {| opened := S (opened w);
     live := opened w :: live w;
     trace := (trace w ++ [Connect (opened w)] ++ [Execute (opened w) s wkt])
              ++ [Rollback (opened w)] |}.

(** The world after one query function, by its outcome. *)
Definition after_call {A} (r : pyres A) (s : statement) (wkt : string) (w : world)
    : world :=
  match r with
  | Ok _ => after_query s wkt w
  | Raise _ => after_failed_query s wkt w
  end.

(** ** A sample request and a sample database

    Concrete inputs on which the handler is run below: the request of the
    specification's example, and a database that answers it with a line of
    length 2 sampled at three points, the second over a raster cell without
    data. *)
Module Sample.

Local Open Scope string_scope.

Definition quote : string := String "034"%char EmptyString.

(** The GeoJSON text of the point [x, y], as [ST_ASGEOJSON] prints it: an
    object with the members [type] and [coordinates]. *)
Definition point_text (x y : Z) : string :=
  "{" ++ quote ++ "type" ++ quote ++ ":" ++ quote ++ "Point" ++ quote ++ ","
  ++ quote ++ "coordinates" ++ quote ++ ":["
  ++ str_of_int x ++ "," ++ str_of_int y ++ "]}".

Definition point_doc (x y : Z) : json :=
  JDict [("type", JStr "Point"); ("coordinates", JList [JInt x; JInt y])].

(** [json.loads] on the three texts the sample database returns. *)
Definition json_loads (text : string) : pyres json :=
  if String.eqb text (point_text 0 0) then Ok (point_doc 0 0)
  else if String.eqb text (point_text 1 0) then Ok (point_doc 1 0)
  else if String.eqb text (point_text 2 0) then Ok (point_doc 2 0)
  else Raise JSONDecodeError.

(** [repr] is not reached by the sample request, whose coordinates are
    ints. *)
Definition py_repr (v : json) : string := "...".

Definition body : json :=
  JDict [("coords", JList [JList [JInt 0; JInt 0]; JList [JInt 1; JInt 1]])].

(** The same line, with a third element in each entry and another key
    in the body. *)
Definition body_extra : json :=
  JDict [("name", JStr "ridge");
         ("coords",
          JList [JList [JInt 0; JInt 0; JInt 1500];
                 JList [JInt 1; JInt 1; JNull; JStr "summit"]])].

Definition req : request := {| request_json := Ok body |}.

Definition wkt : string := "LINESTRING(0 0, 1 1)".

Definition two : PyFloat.float := S754_finite false 4503599627370496 (-51).

Definition fetched : list elevation_row :=
  [(Some 120, point_text 0 0); (None, point_text 1 0); (Some 95, point_text 2 0)].

Definition hydro : list hydro_row :=
  [{| hydro_name := SqlText "Le Gave"; hydro_classe := Some 2; hydro_dist_m := 1 |}].

Definition clc : list clc_row :=
  [{| clc_code := SqlInt 311; clc_description := SqlText "Forest";
      clc_longueur_cumulee := 2 |}].

Definition pct : list clc_pct_row :=
  [{| pct_code := SqlInt 311; pct_description := SqlText "Forest";
      pct_longueur_prct := 100 |}].

Definition db : database :=
  {| db_length := fun _ => Ok [two];
     db_elevation := fun _ => Ok fetched;
     db_hydro := fun _ => Ok hydro;
     db_clc := fun _ => Ok clc;
     db_clc_pct := fun _ => Ok pct |}.

(** The same database over a line that meets no raster tile. *)
Definition db_no_raster : database :=
  {| db_length := fun _ => Ok [two];
     db_elevation := fun _ => Ok [];
     db_hydro := fun _ => Ok hydro;
     db_clc := fun _ => Ok clc;
     db_clc_pct := fun _ => Ok pct |}.

Definition run : pyres response * world :=
  process_linestring py_repr json_loads db req fresh_world.

Definition answer : response :=
  {| values :=
       [{| distance := 0; elevation := 120; geometry := JList [JInt 0; JInt 0] |};
        {| distance := 0; elevation := 0; geometry := JList [JInt 1; JInt 0] |};
        {| distance := 1; elevation := 95; geometry := JList [JInt 2; JInt 0] |}];
     hydro_info := hydro;
     clc_info := clc;
     clc_pct_info := pct |}.

End Sample.

(** A classification tier of the specification: 1, 2 or 3. *)
Definition tier_1_2_3 (classe : option Z) : Prop :=
  classe = Some 1 \/ classe = Some 2 \/ classe = Some 3.

(** ** A spatial engine on a line

    A stand-in for PostGIS on which the two statements can be run: a
    geometry is a closed interval of integers on one axis (a point when its
    ends meet), floats are computed as in IEEE 754 binary64, and [::INT]
    rounds to the nearest integer, ties to even.  Every WKT text is read as
    the interval from 0 to 200. *)
Module Segment.

Definition geom : Type := (Z * Z)%type.

Definition float_of_Z (n : Z) : PyFloat.float :=
  binary_normalize PyFloat.prec PyFloat.emax n 0 false.

Definition length (g : geom) : PyFloat.float := float_of_Z (snd g - fst g).

Definition is_point (g : geom) : bool := fst g =? snd g.

Definition intersection (a b : geom) : geom :=
  (Z.max (fst a) (fst b), Z.min (snd a) (snd b)).

Definition intersects (a b : geom) : bool :=
  Z.max (fst a) (fst b) <=? Z.min (snd a) (snd b).

(** A point strictly inside the line crosses it. *)
Definition crosses (g line : geom) : bool :=
  is_point g && (fst line <? fst g) && (fst g <? snd line).

Definition locate (line p : geom) : pyres PyFloat.float :=
  if is_point p
  then Ok (SFdiv PyFloat.prec PyFloat.emax (float_of_Z (fst p - fst line)) (length line))
  else Raise DatabaseError.

(** [m / 2^n] rounded to the nearest integer, ties to even. *)
Definition round_shift (m n : Z) : Z :=
  let q := Z.shiftr m n in
  let r := m - Z.shiftl q n in
  let half := Z.shiftl 1 (n - 1) in
  if r <? half then q
  else if half <? r then q + 1
  else if Z.even q then q else q + 1.

Definition to_int4 (x : PyFloat.float) : pyres Z :=
  match x with
  | S754_zero _ => Ok 0
  | S754_finite s m e =>
      let a := if 0 <=? e then Z.shiftl (Zpos m) e else round_shift (Zpos m) (- e) in
      let v := if s then - a else a in
      if (- 2147483648 <=? v) && (v <=? 2147483647) then Ok v
      else Raise DatabaseError
  | _ => Raise DatabaseError
  end.

Definition checked (x : PyFloat.float) : pyres PyFloat.float :=
  match x with
  | S754_finite _ _ _ | S754_zero _ => Ok x
  | _ => Raise DatabaseError
  end.

#[export] Instance engine : SpatialEngine geom :=
  {| st_geomfromtext := fun _ _ => Ok (0, 200);
     st_length := length;
     st_crosses := crosses;
     st_intersects := intersects;
     st_intersection := intersection;
     st_dump := fun g => [g];
     st_linelocatepoint := locate;
     float8mul := fun x y => checked (SFmul PyFloat.prec PyFloat.emax x y);
     float8div := fun x y =>
       if PyFloat.is_zero y then Raise DatabaseError
       else checked (SFdiv PyFloat.prec PyFloat.emax x y);
     float8pl := fun x y => checked (SFadd PyFloat.prec PyFloat.emax x y);
     float8_to_int4 := to_int4 |}.

Local Open Scope string_scope.

(** Three rivers cross the line, at 150, 50 and 30; the second is of
    tier 5. *)
Definition rivers : list (cours_eau geom) :=
  [{| NOMENTITEH := SqlText "L'Adour"; CLASSE := Some 2; cours_eau_geom := Some (150, 150) |};
   {| NOMENTITEH := SqlNull; CLASSE := Some 5; cours_eau_geom := Some (50, 50) |};
   {| NOMENTITEH := SqlText "Le Gave"; CLASSE := Some 1; cours_eau_geom := Some (30, 30) |}].

(** Two polygons carry the code 311 under two descriptions, a third one
    the code 112. *)
Definition land_cover : list (clc_2018 geom) :=
  [{| CODE_CLC := SqlInt 311; DESCRIPTION_CLC := SqlText "Forest"; clc_geom := Some (0, 60) |};
   {| CODE_CLC := SqlInt 112; DESCRIPTION_CLC := SqlText "Urban"; clc_geom := Some (60, 100) |};
   {| CODE_CLC := SqlInt 311; DESCRIPTION_CLC := SqlText "Broad-leaved forest";
      clc_geom := Some (100, 200) |}].

Definition db : database :=
  {| db_length := fun wkt =>
       pyres_bind (st_geomfromtext wkt 3857) (fun line => Ok [st_length line]);
     db_elevation := fun _ => Ok Sample.fetched;
     db_hydro := hydro_statement rivers;
     db_clc := fun _ => Ok Sample.clc;
     db_clc_pct := clc_pct_statement land_cover |}.

Definition req : request :=
  {| request_json :=
       Ok (JDict [("coords", JList [JList [JInt 0; JInt 0]; JList [JInt 200; JInt 0]])]) |}.

Definition wkt : string := "LINESTRING(0 0, 200 0)".

Definition run : pyres response * world :=
  process_linestring Sample.py_repr Sample.json_loads db req fresh_world.

Definition hydro : list hydro_row :=
  [{| hydro_name := SqlText "Le Gave"; hydro_classe := Some 1; hydro_dist_m := 30 |};
   {| hydro_name := SqlText "L'Adour"; hydro_classe := Some 2; hydro_dist_m := 150 |}].

Definition pct : list clc_pct_row :=
  [{| pct_code := SqlInt 311; pct_description := SqlText "Broad-leaved forest";
      pct_longueur_prct := 50 |};
   {| pct_code := SqlInt 311; pct_description := SqlText "Forest";
      pct_longueur_prct := 30 |};
   {| pct_code := SqlInt 112; pct_description := SqlText "Urban";
      pct_longueur_prct := 20 |}].

Definition answer : response :=
  {| values :=
       [{| distance := 0; elevation := 120; geometry := JList [JInt 0; JInt 0] |};
        {| distance := 66; elevation := 0; geometry := JList [JInt 1; JInt 0] |};
        {| distance := 133; elevation := 95; geometry := JList [JInt 2; JInt 0] |}];
     hydro_info := hydro;
     clc_info := Sample.clc;
     clc_pct_info := pct |}.

End Segment.

(** ** Rounding to nearest, ties to even, on integers

    The arithmetic the float operations are compared with in the proofs:
    [SpecFloat] rounds a mantissa by shifting it bit by bit; [rne_div V G]
    is the same rounding of the quotient [V / G] stated on integers. *)

Definition rne_div (V G : Z) : Z :=
  let q := V / G in
  let r := V mod G in
  if 2 * r <? G then q
  else if G <? 2 * r then q + 1
  else if Z.even q then q else q + 1.

(** The value of a finite or zero float in units of [2^k]. *)
Definition scaled (k : Z) (x : spec_float) : Z :=
  match x with
  | S754_finite _ m e => Zpos m * 2 ^ (e - k)
  | _ => 0
  end.

(** The value [m * 2^e] rounded to the precision [prec], in units of
    [2^k]. *)
Definition rounded (prec emax k : Z) (m : positive) (e : Z) : Z :=
  let G := 2 ^ (SpecFloat.fexp prec emax (Zpos (digits2_pos m) + e) - k) in
  G * rne_div (Zpos m * 2 ^ (e - k)) G.

Definition finite_or_zero (x : spec_float) : Prop :=
  match x with
  | S754_zero _ | S754_finite _ _ _ => True
  | _ => False
  end.

(** The least exponent of a binary64 float. *)
Definition emin64 : Z := SpecFloat.emin PyFloat.prec PyFloat.emax.

(** Exponent of a finite float not below [k]. *)
Definition above (k : Z) (x : spec_float) : Prop :=
  match x with
  | S754_finite _ _ e => k <= e
  | _ => True
  end.

(** ** The course of a request *)

(** The statements of a request, in the order the handler runs them. *)
Definition request_statements : list statement :=
  [LengthStatement; ElevationStatement; HydroStatement; ClcStatement; ClcPctStatement].

(** The world after the query functions of [ss] ran one after the other
    and returned. *)
Definition after_queries (ss : list statement) (wkt : string) (w : world) : world :=
  fold_left (fun w' s => after_query s wkt w') ss w.

(** The statements executed along a trace, oldest first. *)
Definition executed (t : list event) : list statement :=
  flat_map (fun ev => match ev with Execute _ s _ => [s] | _ => [] end) t.

(** [values] of the response, from the total length and the fetched rows:
    the part of the handler between the elevation query and the
    hydrography query. *)
Definition profile_of (json_loads : string -> pyres json)
    (total_length : PyFloat.float) (fetched : list elevation_row)
    : pyres (list profile_point) :=
  (segment_length <-
     PyFloat.div_int total_length (Z.of_nat (List.length (map elevation_point fetched))) ;;
   comprehension (profile_entry json_loads segment_length)
     (enumerate (map elevation_point fetched)))%py.

Definition is_nan_or_infinite (x : PyFloat.float) : bool :=
  match x with
  | S754_nan | S754_infinity _ => true
  | _ => false
  end.

(** ** The elevation statement *)

(** What PostGIS supplies to the statement of [fetch_elevation_data] beyond
    [SpatialEngine]: the points interpolated along a line (an error when the
    geometry is not a line), their dump, reprojection, and on the raster side
    the test that a tile covers a point, the value of the tile there (NULL
    where the tile has no data) and the GeoJSON text of a geometry. *)
Class RasterEngine (geom raster : Type) : Type := {
  st_lineinterpolatepoints : geom -> PyFloat.float -> pyres geom;
  st_dumppoints : geom -> list geom;
  st_transform : geom -> Z -> geom;
  st_intersects_raster : raster -> geom -> bool;
  st_value : raster -> geom -> option PyFloat.float;
  st_asgeojson : geom -> string
}.

(** A row of [GEO_BDR_MNT]: one raster tile, or NULL. *)
Record bdr_mnt (raster : Type) : Type := {
  RAST : option raster
}.
Arguments RAST {raster} _.

(** The literal [0.01] as a float8: the double nearest to one hundredth. *)
Definition float8_0_01 : PyFloat.float := S754_finite false 5764607523034235 (-59).

Section ElevationStatement.
Context {geom raster : Type}.
Context {engine : SpatialEngine geom} {rasters : RasterEngine geom raster}.
Variable GEO_BDR_MNT : list (bdr_mnt raster).

Local Open Scope py_scope.

(** [ST_INTERSECTS (R.RAST, ST_TRANSFORM (D.GEOM, 4326))]; a NULL tile
    covers nothing. *)
Definition covers (d : geom) (r : bdr_mnt raster) : bool :=
  match RAST r with
  | Some tile => st_intersects_raster tile (st_transform d 4326)
  | None => false
  end.

(** [FROM GEO_BDR_MNT R, ST_DUMPPOINTS (...) AS D (PATH, GEOM) WHERE
    ST_INTERSECTS (...)]: the pairs of a tile and a point it covers. *)
Definition elevation_from (points : list geom) : list (raster * geom) :=
  flat_map
    (fun r =>
       flat_map
         (fun d =>
            match RAST r with
            | Some tile =>
                if st_intersects_raster tile (st_transform d 4326)
                then [(tile, d)] else []
            | None => []
            end)
         points)
    GEO_BDR_MNT.

(** The select list: [CAST (ST_VALUE (R.RAST, ST_TRANSFORM (D.GEOM, 4326))
    AS INT), ST_ASGEOJSON (D.GEOM)]; the cast of NULL is NULL. *)
Definition elevation_select (td : raster * geom) : pyres elevation_row :=
  let (tile, d) := td in
  match st_value tile (st_transform d 4326) with
  | Some x => v <- float8_to_int4 x ;; Ok (Some v, st_asgeojson d)
  | None => Ok (None, st_asgeojson d)
  end.

(** The points [D] of the statement for a WKT text. *)
Definition elevation_points_of (wkt : string) : pyres (list geom) :=
  line <- st_geomfromtext wkt 3857 ;;
  multipoint <- st_lineinterpolatepoints line float8_0_01 ;;
  Ok (st_dumppoints multipoint).

(** The statement of [fetch_elevation_data], run with its parameter.  It
    has no ORDER BY: the rows are listed here tile by tile, and a database
    may return them in any order. *)
Definition elevation_statement (wkt : string) : pyres (list elevation_row) :=
  points <- elevation_points_of wkt ;;
  comprehension elevation_select (elevation_from points).

(** The database answers the elevation query of [wkt] as the statement
    does, in some order of the rows. *)
Definition runs_elevation_statement (db : database) (wkt : string) : Prop :=
  match elevation_statement wkt with
  | Ok rows => exists fetched, db_elevation db wkt = Ok fetched /\ Permutation fetched rows
  | Raise e => db_elevation db wkt = Raise e
  end.

End ElevationStatement.

(** ** The land-cover segment statement *)

(** [s LIKE pattern], for a pattern without escape character: [%] stands
    for any run of characters, [_] for any one character. *)
Fixpoint sql_like (pattern s : string) {struct pattern} : bool :=
  match pattern with
  | EmptyString =>
      match s with
      | EmptyString => true
      | String _ _ => false
      end
  | String "%"%char pattern' =>
      (fix from (s : string) : bool :=
         sql_like pattern' s
         || match s with
            | EmptyString => false
            | String _ s' => from s'
            end) s
  | String "_"%char pattern' =>
      match s with
      | EmptyString => false
      | String _ s' => sql_like pattern' s'
      end
  | String c pattern' =>
      match s with
      | EmptyString => false
      | String c' s' => Ascii.eqb c c' && sql_like pattern' s'
      end
  end.

(** What the statement of [fetch_clc_data] needs beyond [SpatialEngine]:
    the centroid and the type name of a geometry, and the order of
    float8. *)
Class SegmentEngine (geom : Type) : Type := {
  st_centroid : geom -> geom;
  st_geometrytype : geom -> string;
  float8lt : PyFloat.float -> PyFloat.float -> bool
}.

(** A row of the subquery [SEG]. *)
Record seg_row (geom : Type) : Type := {
  SEG_CODE_CLC : scalar;
  SEG_DESCRIPTION_CLC : scalar;
  SEG_GEOM : geom;
  SEG_POSITION : PyFloat.float
}.
Arguments SEG_CODE_CLC {geom} _.
Arguments SEG_DESCRIPTION_CLC {geom} _.
Arguments SEG_GEOM {geom} _.
Arguments SEG_POSITION {geom} _.

(** Rows ordered by insertion on a comparison [lt], ascending. *)
Section OrderByLt.
Context {A : Type}.
Variable lt : A -> A -> bool.

Fixpoint insert_lt (x : A) (l : list A) : list A :=
  match l with
  | [] => [x]
  | y :: l' => if lt x y then x :: l else y :: insert_lt x l'
  end.

Definition order_lt (l : list A) : list A := fold_right insert_lt [] l.
End OrderByLt.

Section ClcStatement.
Context {geom : Type}.
Context {engine : SpatialEngine geom} {segments : SegmentEngine geom}.
Variable GEO_CLC_2018 : list (clc_2018 geom).

Local Open Scope py_scope.
Local Open Scope string_scope.

(** The joined rows of the subquery with the pieces dumped from their
    intersection: the two [ST_DUMP] calls of the select list take the same
    argument and advance together, piece by piece. *)
Definition seg_from (line : geom) : list (clc_2018 geom * geom) :=
  flat_map
    (fun cg => map (fun d => (fst cg, d)) (st_dump (st_intersection line (snd cg))))
    (clc_from GEO_CLC_2018 line).

(** The select list of the subquery. *)
Definition seg_select (line : geom) (cd : clc_2018 geom * geom) : pyres (seg_row geom) :=
  let (c, d) := cd in
  position <- st_linelocatepoint line (st_centroid d) ;;
  Ok {| SEG_CODE_CLC := CODE_CLC c;
        SEG_DESCRIPTION_CLC := DESCRIPTION_CLC c;
        SEG_GEOM := d;
        SEG_POSITION := position |}.

(** [ST_GEOMETRYTYPE (SEG.GEOM) LIKE 'ST_LineString%'] (the doubled [%] of
    the source is psycopg2's way of writing one). *)
Definition is_linestring (seg : seg_row geom) : bool :=
  sql_like "ST_LineString%" (st_geometrytype (SEG_GEOM seg)).

(** [SUM (ST_LENGTH (SEG.GEOM)) OVER (ORDER BY POSITION ROWS BETWEEN
    UNBOUNDED PRECEDING AND CURRENT ROW)::int], row after row in the order
    of the window: [state] is the sum up to the row before, none before
    the first row. *)
Fixpoint running_sum (state : option PyFloat.float) (segs : list (seg_row geom))
    : pyres (list clc_row) :=
  match segs with
  | [] => Ok []
  | seg :: segs' =>
      total <- match state with
               | None => Ok (st_length (SEG_GEOM seg))
               | Some s => float8pl s (st_length (SEG_GEOM seg))
               end ;;
      cumulated <- float8_to_int4 total ;;
      rows <- running_sum (Some total) segs' ;;
      Ok ({| clc_code := SEG_CODE_CLC seg;
             clc_description := SEG_DESCRIPTION_CLC seg;
             clc_longueur_cumulee := cumulated |} :: rows)
  end.

(** The rows of [SEG] kept by the WHERE clause, in the order of
    [POSITION]: the order of the window and of the result.  Rows at the
    same position keep the order of the subquery here; PostgreSQL promises
    none among them. *)
Definition clc_segments (line : geom) : pyres (list (seg_row geom)) :=
  segs <- comprehension (seg_select line) (seg_from line) ;;
  Ok (order_lt (fun a b => float8lt (SEG_POSITION a) (SEG_POSITION b))
        (filter is_linestring segs)).

(** The statement of [fetch_clc_data], run with its parameter. *)
Definition clc_statement (wkt : string) : pyres (list clc_row) :=
  line <- st_geomfromtext wkt 3857 ;;
  segs <- clc_segments line ;;
  running_sum None segs.

End ClcStatement.

(** ** Requests and databases for the edge cases *)
Module Cases.

Local Open Scope string_scope.

(** A body without [coords], and a body that is an array. *)
Definition body_no_coords : json := JDict [("points", JList [])].
Definition body_array : json := JList [JList [JInt 0; JInt 0]; JList [JInt 1; JInt 1]].

(** The second entry has one element only; the third is never read. *)
Definition body_short_entry : json :=
  JDict [("coords", JList [JList [JInt 0; JInt 0]; JList [JInt 5]; JNull])].

Definition req_of (body : json) : request := {| request_json := Ok body |}.

(** The sample database over a line of length zero. *)
Definition db_zero_length : database :=
  {| db_length := fun _ => Ok [S754_zero false];
     db_elevation := db_elevation Sample.db;
     db_hydro := db_hydro Sample.db;
     db_clc := db_clc Sample.db;
     db_clc_pct := db_clc_pct Sample.db |}.

Definition answer_zero_length : response :=
  {| values :=
       [{| distance := 0; elevation := 120; geometry := JList [JInt 0; JInt 0] |};
        {| distance := 0; elevation := 0; geometry := JList [JInt 1; JInt 0] |};
        {| distance := 0; elevation := 95; geometry := JList [JInt 2; JInt 0] |}];
     hydro_info := Sample.hydro;
     clc_info := Sample.clc;
     clc_pct_info := Sample.pct |}.

(** The sample database with an infinite length. *)
Definition db_infinite_length : database :=
  {| db_length := fun _ => Ok [S754_infinity false];
     db_elevation := db_elevation Sample.db;
     db_hydro := db_hydro Sample.db;
     db_clc := db_clc Sample.db;
     db_clc_pct := db_clc_pct Sample.db |}.

(** The sample database with a hydrography statement that fails. *)
Definition db_hydro_down : database :=
  {| db_length := db_length Sample.db;
     db_elevation := db_elevation Sample.db;
     db_hydro := fun _ => Raise DatabaseError;
     db_clc := db_clc Sample.db;
     db_clc_pct := db_clc_pct Sample.db |}.

(** The sample database over a line that crosses no river. *)
Definition db_dry : database :=
  {| db_length := db_length Sample.db;
     db_elevation := db_elevation Sample.db;
     db_hydro := fun _ => Ok [];
     db_clc := db_clc Sample.db;
     db_clc_pct := db_clc_pct Sample.db |}.

Definition answer_dry : response :=
  {| values := values Sample.answer;
     hydro_info := [];
     clc_info := Sample.clc;
     clc_pct_info := Sample.pct |}.

End Cases.

(** ** Rasters and segments on the line engine

    The line engine of [Segment], completed for the elevation and the
    land-cover segment statements: a raster tile is an interval with one
    value (or no data), the sampled points of a line are its four quarter
    points, a geometry is a point or a line string, and float8 values are
    ordered as IEEE 754 orders them. *)
Module Track.

Local Open Scope string_scope.

Definition raster : Type := (Z * Z * option Z)%type.

Definition quarter_points (g : Segment.geom) : list Segment.geom :=
  map (fun k => let x := fst g + k * (snd g - fst g) / 4 in (x, x)) [1; 2; 3; 4].

Definition on_tile (tile : raster) (p : Segment.geom) : bool :=
  let '(lo, hi, _) := tile in ((lo <=? fst p) && (fst p <=? hi))%Z.

Definition value_of (tile : raster) (p : Segment.geom) : option PyFloat.float :=
  let '(_, _, v) := tile in option_map Segment.float_of_Z v.

#[export] Instance rasters : RasterEngine Segment.geom raster :=
  {| st_lineinterpolatepoints := fun g _ =>
       if Segment.is_point g then Raise DatabaseError else Ok g;
     st_dumppoints := quarter_points;
     st_transform := fun g _ => g;
     st_intersects_raster := on_tile;
     st_value := value_of;
     st_asgeojson := fun p => Sample.point_text (fst p) 0 |}.

Definition midpoint (g : Segment.geom) : Segment.geom :=
  let x := (fst g + snd g) / 2 in (x, x).

Definition type_name (g : Segment.geom) : string :=
  if Segment.is_point g then "ST_Point" else "ST_LineString".

#[export] Instance segments : SegmentEngine Segment.geom :=
  {| st_centroid := midpoint;
     st_geometrytype := type_name;
     float8lt := SFltb |}.

(** Two tiles that share the point 100, the second without data, and a
    NULL tile. *)
Definition tiles : list (bdr_mnt raster) :=
  [{| RAST := Some (0, 100, Some 120) |};
   {| RAST := Some (100, 200, None) |};
   {| RAST := None |}].

(** A tile far from the line. *)
Definition tiles_far : list (bdr_mnt raster) :=
  [{| RAST := Some (500, 600, Some 7) |}].

(** The polygons of [Segment.land_cover] in another order, and one that
    the line only touches, at its end. *)
Definition land_cover : list (clc_2018 Segment.geom) :=
  [{| CODE_CLC := SqlInt 311; DESCRIPTION_CLC := SqlText "Broad-leaved forest";
      clc_geom := Some (100, 200) |};
   {| CODE_CLC := SqlInt 311; DESCRIPTION_CLC := SqlText "Forest"; clc_geom := Some (0, 60) |};
   {| CODE_CLC := SqlInt 512; DESCRIPTION_CLC := SqlText "Water"; clc_geom := Some (200, 300) |};
   {| CODE_CLC := SqlInt 112; DESCRIPTION_CLC := SqlText "Urban"; clc_geom := Some (60, 100) |}].

(** [json.loads] on the texts of the quarter points. *)
Definition json_loads (text : string) : pyres json :=
  match find (fun x => String.eqb text (Sample.point_text x 0)) [50; 100; 150; 200] with
  | Some x => Ok (Sample.point_doc x 0)
  | None => Raise JSONDecodeError
  end.

Definition db_over (table : list (bdr_mnt raster)) : database :=
  {| db_length := db_length Segment.db;
     db_elevation := elevation_statement (engine := Segment.engine) table;
     db_hydro := db_hydro Segment.db;
     db_clc := clc_statement (engine := Segment.engine) land_cover;
     db_clc_pct := db_clc_pct Segment.db |}.

Definition db : database := db_over tiles.

Definition run : pyres response * world :=
  process_linestring Sample.py_repr json_loads db Segment.req fresh_world.

Definition clc : list clc_row :=
  [{| clc_code := SqlInt 311; clc_description := SqlText "Forest";
      clc_longueur_cumulee := 60 |};
   {| clc_code := SqlInt 112; clc_description := SqlText "Urban";
      clc_longueur_cumulee := 100 |};
   {| clc_code := SqlInt 311; clc_description := SqlText "Broad-leaved forest";
      clc_longueur_cumulee := 200 |}].

Definition answer : response :=
  {| values :=
       [{| distance := 0; elevation := 120; geometry := JList [JInt 50; JInt 0] |};
        {| distance := 40; elevation := 120; geometry := JList [JInt 100; JInt 0] |};
        {| distance := 80; elevation := 0; geometry := JList [JInt 100; JInt 0] |};
        {| distance := 120; elevation := 0; geometry := JList [JInt 150; JInt 0] |};
        {| distance := 160; elevation := 0; geometry := JList [JInt 200; JInt 0] |}];
     hydro_info := Segment.hydro;
     clc_info := clc;
     clc_pct_info := Segment.pct |}.

End Track.

(** * Proofs *)

(** ** Comprehensions and [enumerate] *)

Lemma comprehension_length {A B} (f : A -> pyres B) xs ys :
  comprehension f xs = Ok ys -> List.length ys = List.length xs.
Proof.
  revert ys; induction xs as [|x xs IH]; intros ys H; simpl in H.
  - inversion H; reflexivity.
  - destruct (f x) as [y|]; simpl in H; [|discriminate].
    destruct (comprehension f xs) as [ys'|]; simpl in H; [|discriminate].
    inversion H; subst; simpl; f_equal; apply IH; reflexivity.
Qed.

Lemma comprehension_nth {A B} (f : A -> pyres B) xs ys i x :
  comprehension f xs = Ok ys ->
  nth_error xs i = Some x ->
  exists y, nth_error ys i = Some y /\ f x = Ok y.
Proof.
  revert ys i; induction xs as [|x0 xs IH]; intros ys i H Hx.
  - destruct i; discriminate.
  - simpl in H.
    destruct (f x0) as [y0|] eqn:Hy0; simpl in H; [|discriminate].
    destruct (comprehension f xs) as [ys'|]; simpl in H; [|discriminate].
    inversion H; subst; clear H.
    destruct i as [|i]; simpl in *.
    + inversion Hx; subst. exists y0; split; [reflexivity|assumption].
    + apply IH; [reflexivity|assumption].
Qed.

Lemma comprehension_ext {A B} (f g : A -> pyres B) xs :
  (forall x, In x xs -> f x = g x) ->
  comprehension f xs = comprehension g xs.
Proof.
  induction xs as [|x xs IH]; intros H; simpl; [reflexivity|].
  rewrite (H x (or_introl eq_refl)), IH; [reflexivity|].
  intros y Hy; apply H; right; exact Hy.
Qed.

Lemma comprehension_Forall2 {A B} (f : A -> pyres B) xs ys :
  Forall2 (fun x y => f x = Ok y) xs ys -> comprehension f xs = Ok ys.
Proof.
  induction 1 as [|x y xs ys Hxy _ IH]; simpl; [reflexivity|].
  rewrite Hxy, IH; reflexivity.
Qed.

Lemma enumerate_from_nth {A} (xs : list A) start i x :
  nth_error xs i = Some x ->
  nth_error (enumerate_from start xs) i = Some ((start + i)%nat, x).
Proof.
  revert start i; induction xs as [|x0 xs IH]; intros start i H.
  - destruct i; discriminate.
  - destruct i as [|i]; simpl in *.
    + inversion H; subst; rewrite Nat.add_0_r; reflexivity.
    + rewrite (IH (S start) i H); f_equal; f_equal; lia.
Qed.

Lemma enumerate_from_length {A} (xs : list A) start :
  List.length (enumerate_from start xs) = List.length xs.
Proof.
  revert start; induction xs as [|x xs IH]; intros start; simpl; [reflexivity|].
  rewrite IH; reflexivity.
Qed.

Lemma comprehension_Forall {A B} (f : A -> pyres B) (P : A -> Prop) (Q : B -> Prop) xs ys :
  (forall x y, P x -> f x = Ok y -> Q y) ->
  Forall P xs ->
  comprehension f xs = Ok ys ->
  Forall Q ys.
Proof.
  intros HPQ HP; revert ys; induction HP as [|x xs Hx _ IH]; intros ys H; simpl in H.
  - inversion H; constructor.
  - destruct (f x) as [y|] eqn:Hy; simpl in H; [|discriminate].
    destruct (comprehension f xs) as [ys'|]; simpl in H; [|discriminate].
    inversion H; subst; constructor; [eapply HPQ; eassumption | apply IH; reflexivity].
Qed.

Lemma comprehension_map {A B C} (f : A -> pyres B) (g : B -> C) (h : A -> C) xs ys :
  (forall x y, f x = Ok y -> g y = h x) ->
  comprehension f xs = Ok ys ->
  map g ys = map h xs.
Proof.
  intros Hgh; revert ys; induction xs as [|x xs IH]; intros ys H; simpl in H.
  - inversion H; reflexivity.
  - destruct (f x) as [y|] eqn:Hy; simpl in H; [|discriminate].
    destruct (comprehension f xs) as [ys'|]; simpl in H; [|discriminate].
    inversion H; subst; simpl; f_equal; [apply Hgh; exact Hy | apply IH; reflexivity].
Qed.

Lemma comprehension_In {A B} (f : A -> pyres B) xs ys y :
  comprehension f xs = Ok ys -> In y ys -> exists x, In x xs /\ f x = Ok y.
Proof.
  revert ys; induction xs as [|x xs IH]; intros ys H Hy; simpl in H.
  - inversion H; subst; destruct Hy.
  - destruct (f x) as [y0|] eqn:Hy0; simpl in H; [|discriminate].
    destruct (comprehension f xs) as [ys'|]; simpl in H; [|discriminate].
    inversion H; subst; destruct Hy as [->|Hy].
    + exists x; split; [left; reflexivity | exact Hy0].
    + destruct (IH ys' eq_refl Hy) as (x' & Hx' & Hf).
      exists x'; split; [right; exact Hx' | exact Hf].
Qed.

(** ** Rounding in [SpecFloat] *)

Lemma rne_div_bounds V G :
  0 < G -> V / G <= rne_div V G <= V / G + 1.
Proof.
  intros HG; unfold rne_div.
  destruct (2 * (V mod G) <? G); [lia|].
  destruct (G <? 2 * (V mod G)); [lia|].
  destruct (Z.even (V / G)); lia.
Qed.

Lemma rne_div_exact q G : 0 < G -> rne_div (G * q) G = q.
Proof.
  intros HG; unfold rne_div.
  rewrite (Z.mul_comm G q), Z.mod_mul, Z.div_mul by lia.
  destruct (Z.ltb_spec (2 * 0) G); [reflexivity | lia].
Qed.

Lemma rne_div_mono V V' G :
  0 < G -> V <= V' -> rne_div V G <= rne_div V' G.
Proof.
  intros HG HV.
  pose proof (Z.div_le_mono V V' G HG HV) as Hq.
  destruct (Z.eq_dec (V / G) (V' / G)) as [E|NE].
  - assert (Hr : V mod G <= V' mod G).
    { pose proof (Z.div_mod V G ltac:(lia)); pose proof (Z.div_mod V' G ltac:(lia)).
      rewrite E in *; nia. }
    unfold rne_div; rewrite E.
    destruct (Z.ltb_spec (2 * (V mod G)) G);
      destruct (Z.ltb_spec (2 * (V' mod G)) G); try lia;
      destruct (Z.ltb_spec G (2 * (V mod G)));
      destruct (Z.ltb_spec G (2 * (V' mod G))); try lia;
      destruct (Z.even (V' / G)); lia.
  - pose proof (rne_div_bounds V G HG); pose proof (rne_div_bounds V' G HG); lia.
Qed.

Lemma rne_div_scale c V G :
  0 < c -> 0 < G -> rne_div (c * V) (c * G) = rne_div V G.
Proof.
  intros Hc HG; unfold rne_div.
  rewrite Z.div_mul_cancel_l, Z.mul_mod_distr_l by lia.
  replace (2 * (c * (V mod G))) with (c * (2 * (V mod G))) by ring.
  destruct (Z.ltb_spec (2 * (V mod G)) G), (Z.ltb_spec (c * (2 * (V mod G))) (c * G));
    try nia; try reflexivity.
  destruct (Z.ltb_spec G (2 * (V mod G))), (Z.ltb_spec (c * G) (c * (2 * (V mod G))));
    try nia; reflexivity.
Qed.

Lemma rne_div_nonneg V G : 0 < G -> 0 <= V -> 0 <= rne_div V G.
Proof.
  intros HG HV; pose proof (rne_div_bounds V G HG).
  pose proof (Z.div_pos V G HV HG); lia.
Qed.

(** Shifting with round and sticky bits *)

Lemma iter_pos_nat {A} (f : A -> A) p x :
  iter_pos f p x = Nat.iter (Pos.to_nat p) f x.
Proof.
  revert x; induction p as [p IH|p IH|]; intros x; cbn [iter_pos].
  - rewrite !IH, Pos2Nat.inj_xI.
    replace (S (2 * Pos.to_nat p)) with (Pos.to_nat p + S (Pos.to_nat p))%nat by lia.
    rewrite Nat.iter_add. f_equal.
    rewrite Nat.iter_succ_r; reflexivity.
  - rewrite !IH, Pos2Nat.inj_xO.
    replace (2 * Pos.to_nat p)%nat with (Pos.to_nat p + Pos.to_nat p)%nat by lia.
    rewrite Nat.iter_add; reflexivity.
  - reflexivity.
Qed.

Lemma shr_1_nonneg m r s :
  0 <= m ->
  shr_1 {| shr_m := m; shr_r := r; shr_s := s |}
  = {| shr_m := m / 2; shr_r := Z.odd m; shr_s := r || s |}.
Proof.
  intros Hm; rewrite <- Z.div2_div.
  destruct m as [|[p|p|]|p]; simpl; try reflexivity; lia.
Qed.

Lemma shr_iter m n :
  0 <= m ->
  Nat.iter (S n) shr_1 {| shr_m := m; shr_r := false; shr_s := false |}
  = {| shr_m := m / 2 ^ Z.of_nat (S n);
       shr_r := Z.odd (m / 2 ^ Z.of_nat n);
       shr_s := negb (m mod 2 ^ Z.of_nat n =? 0) |}.
Proof.
  intros Hm; induction n as [|n IH].
  - cbv [Nat.iter nat_rect]; rewrite shr_1_nonneg by exact Hm.
    change (2 ^ Z.of_nat 1) with 2; change (2 ^ Z.of_nat 0) with 1.
    rewrite Z.div_1_r, Z.mod_1_r; reflexivity.
  - rewrite Nat.iter_succ, IH.
    assert (Hp : 0 < 2 ^ Z.of_nat n) by (apply Z.pow_pos_nonneg; lia).
    assert (Hp' : 0 < 2 ^ Z.of_nat (S n)) by (apply Z.pow_pos_nonneg; lia).
    rewrite shr_1_nonneg by (apply Z.div_pos; lia).
    f_equal.
    + rewrite Z.div_div by lia.
      f_equal. rewrite (Nat2Z.inj_succ (S n)), Z.pow_succ_r by lia. ring.
    + assert (E : m mod 2 ^ Z.of_nat (S n)
                  = m mod 2 ^ Z.of_nat n
                    + 2 ^ Z.of_nat n * ((m / 2 ^ Z.of_nat n) mod 2)).
      { rewrite Nat2Z.inj_succ, Z.pow_succ_r by lia.
        rewrite (Z.mul_comm 2), Z.rem_mul_r by lia. reflexivity. }
      rewrite E.
      pose proof (Z.mod_pos_bound m (2 ^ Z.of_nat n) Hp) as Hb.
      rewrite Zodd_mod.
      pose proof (Z.mod_pos_bound (m / 2 ^ Z.of_nat n) 2 ltac:(lia)) as Hb2.
      destruct (Z.eqb_spec ((m / 2 ^ Z.of_nat n) mod 2) 1) as [E1|E1];
        destruct (Z.eqb_spec (m mod 2 ^ Z.of_nat n) 0) as [E0|E0]; simpl;
        symmetry; [ apply negb_true_iff | apply negb_true_iff | apply negb_false_iff
                  | apply negb_true_iff ];
        try (apply Z.eqb_neq; nia); apply Z.eqb_eq; nia.
Qed.

Lemma shr_pos m p :
  0 <= m ->
  iter_pos shr_1 p {| shr_m := m; shr_r := false; shr_s := false |}
  = {| shr_m := m / 2 ^ Zpos p;
       shr_r := Z.odd (m / 2 ^ (Zpos p - 1));
       shr_s := negb (m mod 2 ^ (Zpos p - 1) =? 0) |}.
Proof.
  intros Hm; rewrite iter_pos_nat.
  destruct (Pos2Nat.is_succ p) as [n Hn]; rewrite Hn, shr_iter by exact Hm.
  assert (E : Zpos p = Z.of_nat (S n)) by (rewrite <- Hn; symmetry; apply positive_nat_Z).
  rewrite E; replace (Z.of_nat (S n) - 1) with (Z.of_nat n) by lia.
  reflexivity.
Qed.

(** One rounding step *)
Lemma round_nearest_even_shifted m n :
  0 <= m -> 0 < n ->
  round_nearest_even (m / 2 ^ n)
    (loc_of_shr_record {| shr_m := m / 2 ^ n;
                          shr_r := Z.odd (m / 2 ^ (n - 1));
                          shr_s := negb (m mod 2 ^ (n - 1) =? 0) |})
  = rne_div m (2 ^ n).
Proof.
  intros Hm Hn.
  set (H := 2 ^ (n - 1)).
  assert (HH : 0 < H) by (apply Z.pow_pos_nonneg; lia).
  assert (EG : 2 ^ n = H * 2).
  { unfold H; replace n with (Z.succ (n - 1)) at 1 by lia.
    rewrite Z.pow_succ_r by lia; ring. }
  assert (Er : m mod 2 ^ n = m mod H + H * ((m / H) mod 2)).
  { rewrite EG, Z.rem_mul_r by lia; reflexivity. }
  pose proof (Z.mod_pos_bound m H HH) as Hb.
  pose proof (Z.mod_pos_bound (m / H) 2 ltac:(lia)) as Hb2.
  unfold rne_div; rewrite Er, EG.
  rewrite Zodd_mod.
  unfold loc_of_shr_record, round_nearest_even.
  destruct (Z.eqb_spec ((m / H) mod 2) 1) as [E1|E1];
    destruct (Z.eqb_spec (m mod H) 0) as [E0|E0]; simpl negb; cbv iota.
  - destruct (Z.ltb_spec (2 * (m mod H + H * ((m / H) mod 2))) (H * 2)); [nia|].
    destruct (Z.ltb_spec (H * 2) (2 * (m mod H + H * ((m / H) mod 2)))); [nia|].
    reflexivity.
  - destruct (Z.ltb_spec (2 * (m mod H + H * ((m / H) mod 2))) (H * 2)); [nia|].
    destruct (Z.ltb_spec (H * 2) (2 * (m mod H + H * ((m / H) mod 2)))); [|nia].
    reflexivity.
  - destruct (Z.ltb_spec (2 * (m mod H + H * ((m / H) mod 2))) (H * 2)); [|nia].
    reflexivity.
  - destruct (Z.ltb_spec (2 * (m mod H + H * ((m / H) mod 2))) (H * 2)); [|nia].
    reflexivity.
Qed.

Lemma digits2_log2 m : Zpos (digits2_pos m) = Z.log2 (Zpos m) + 1.
Proof.
  induction m as [m IH|m IH|]; simpl digits2_pos; try reflexivity;
    rewrite Pos2Z.inj_succ, IH;
    [ change (Zpos m~1) with (2 * Zpos m + 1); rewrite Z.log2_succ_double by lia
    | change (Zpos m~0) with (2 * Zpos m); rewrite Z.log2_double by lia ];
    lia.
Qed.

Lemma digits2_bounds m :
  2 ^ (Zpos (digits2_pos m) - 1) <= Zpos m < 2 ^ Zpos (digits2_pos m).
Proof.
  rewrite digits2_log2.
  pose proof (Z.log2_spec (Zpos m) ltac:(lia)) as H.
  replace (Z.log2 (Zpos m) + 1 - 1) with (Z.log2 (Zpos m)) by lia.
  replace (Z.log2 (Zpos m) + 1) with (Z.succ (Z.log2 (Zpos m))) by lia.
  exact H.
Qed.

Lemma digits2_le m n : 0 <= n -> Zpos m < 2 ^ n -> Zpos (digits2_pos m) <= n.
Proof.
  intros Hn H; rewrite digits2_log2.
  apply (Z.log2_lt_pow2 (Zpos m) n) in H; lia.
Qed.

Lemma digits2_pow2 m n : 0 <= n -> Zpos m = 2 ^ n -> Zpos (digits2_pos m) = n + 1.
Proof.
  intros Hn H; rewrite digits2_log2, H, Z.log2_pow2 by lia; reflexivity.
Qed.

Section Rounding.
Variables prec emax : Z.
Hypothesis prec_pos : 0 < prec.

Local Abbreviation emin := (SpecFloat.emin prec emax).
Local Abbreviation fexp := (SpecFloat.fexp prec emax).

Lemma fexp_ge_emin e : emin <= fexp e.
Proof. unfold SpecFloat.fexp; lia. Qed.

(** The first shift of [binary_round_aux] on an exact input, followed by
    the rounding of the mantissa. *)
Lemma shift_and_round (m : positive) e :
  let n := Z.max 0 (fexp (Zpos (digits2_pos m) + e) - e) in
  let '(mrs, e') := shr_fexp prec emax (Zpos m) e loc_Exact in
  e' = e + n
  /\ round_nearest_even (shr_m mrs) (loc_of_shr_record mrs) = rne_div (Zpos m) (2 ^ n).
Proof.
  unfold shr_fexp, shr; cbn [Zdigits2 shr_record_of_loc].
  destruct (fexp (Zpos (digits2_pos m) + e) - e) as [|p|p] eqn:En; cbv zeta.
  - split; [simpl; lia|].
    rewrite Z.max_l by lia; simpl.
    unfold rne_div; rewrite Z.div_1_r, Z.mod_1_r; reflexivity.
  - rewrite Z.max_r by lia; split; [reflexivity|].
    rewrite shr_pos by lia; cbn [shr_m].
    apply round_nearest_even_shifted; lia.
  - split; [simpl; lia|].
    rewrite Z.max_l by lia; simpl.
    unfold rne_div; rewrite Z.div_1_r, Z.mod_1_r; reflexivity.
Qed.

(** The second shift: at most one bit, when rounding carried into a new
    digit. *)
Lemma renormalize m1 E :
  emin <= E -> 0 <= m1 <= 2 ^ prec ->
  let '(mrs, e') := shr_fexp prec emax m1 E loc_Exact in
  (m1 < 2 ^ prec /\ shr_m mrs = m1 /\ e' = E)
  \/ (m1 = 2 ^ prec /\ shr_m mrs = 2 ^ (prec - 1) /\ e' = E + 1).
Proof.
  intros HE Hm1; unfold shr_fexp, shr; cbn [shr_record_of_loc].
  destruct (Z.eq_dec m1 (2 ^ prec)) as [Etop|Ntop].
  - assert (Hd : Zdigits2 m1 = prec + 1).
    { pose proof (Z.pow_pos_nonneg 2 prec ltac:(lia) ltac:(lia)) as Hpos.
      destruct m1 as [|q|q]; [lia| |lia].
      apply digits2_pow2; [lia | exact Etop]. }
    rewrite Hd; unfold SpecFloat.fexp.
    replace (Z.max (prec + 1 + E - prec) emin - E) with 1 by lia.
    cbn [iter_pos]; rewrite shr_1_nonneg by lia.
    right; cbn [shr_m].
    split; [exact Etop|]; split; [|lia].
    rewrite Etop; replace prec with (Z.succ (prec - 1)) at 1 by lia.
    rewrite Z.pow_succ_r by lia.
    rewrite Z.mul_comm, Z.div_mul by lia; reflexivity.
  - assert (Hd : Zdigits2 m1 <= prec).
    { destruct m1 as [|q|q]; simpl; try lia. apply digits2_le; lia. }
    unfold SpecFloat.fexp.
    destruct (Z.max (Zdigits2 m1 + E - prec) emin - E) as [|p|p] eqn:En;
      try lia; left; cbn [shr_m]; repeat split; lia.
Qed.

Lemma round_exact_spec (m : positive) e k :
  k <= e -> k <= emin ->
  match binary_round_aux prec emax false (Zpos m) e loc_Exact with
  | S754_zero s => s = false /\ rounded prec emax k m e = 0
  | S754_finite s m' e' =>
      s = false /\ k <= e' /\ Zpos m' * 2 ^ (e' - k) = rounded prec emax k m e
  | S754_infinity s => s = false
  | S754_nan => False
  end.
Proof.
  intros Hke Hkm.
  unfold binary_round_aux.
  pose proof (shift_and_round m e) as H1; cbv zeta in H1.
  destruct (shr_fexp prec emax (Zpos m) e loc_Exact) as [mrs' e'].
  destruct H1 as [He' Hm1].
  set (d := Zpos (digits2_pos m)) in *.
  set (E := fexp (d + e)) in *.
  set (n := Z.max 0 (E - e)) in *.
  rewrite Hm1.
  set (m1 := rne_div (Zpos m) (2 ^ n)) in *.
  assert (HEmin : emin <= E) by apply fexp_ge_emin.
  assert (Hn0 : 0 <= n) by lia.
  assert (Hpn : 0 < 2 ^ n) by (apply Z.pow_pos_nonneg; lia).
  assert (Hm1lo : 0 <= m1) by (apply rne_div_nonneg; lia).
  assert (Hm1hi : m1 <= 2 ^ prec).
  { pose proof (rne_div_bounds (Zpos m) (2 ^ n) Hpn) as Hb; fold m1 in Hb.
    assert (Zpos m / 2 ^ n < 2 ^ prec); [|lia].
    apply Z.div_lt_upper_bound; [lia|].
    rewrite <- Z.pow_add_r by lia.
    pose proof (digits2_bounds m) as Hd; fold d in Hd.
    apply (Z.lt_le_trans _ (2 ^ d)); [lia|].
    apply Z.pow_le_mono_r; [lia|].
    unfold n, E, SpecFloat.fexp; lia. }
  assert (He'min : emin <= e') by lia.
  (* value of the rounded mantissa on the scale *)
  assert (Hval : m1 * 2 ^ (e' - k) = rounded prec emax k m e).
  { unfold rounded; fold d; fold E.
    destruct (Z.le_ge_cases E e) as [Hle|Hge].
    - (* no shift: the input is on the grid *)
      assert (n = 0) by lia.
      assert (Em1 : m1 = Zpos m).
      { unfold m1; replace n with 0 by lia; unfold rne_div.
        rewrite Z.div_1_r, Z.mod_1_r; reflexivity. }
      replace (Zpos m * 2 ^ (e - k)) with (2 ^ (E - k) * (Zpos m * 2 ^ (e - E))).
      2:{ replace (e - k) with ((E - k) + (e - E)) by lia.
          rewrite Z.pow_add_r by lia; ring. }
      rewrite rne_div_exact by (apply Z.pow_pos_nonneg; lia).
      rewrite Em1; replace e' with e by lia.
      replace (e - k) with ((E - k) + (e - E)) by lia.
      rewrite Z.pow_add_r by lia; ring.
    - assert (n = E - e) by lia.
      replace (2 ^ (E - k)) with (2 ^ (e - k) * 2 ^ n).
      2:{ rewrite <- Z.pow_add_r by lia; f_equal; lia. }
      rewrite (Z.mul_comm (Zpos m)).
      rewrite rne_div_scale by (try apply Z.pow_pos_nonneg; lia).
      fold m1; replace (e' - k) with ((e - k) + n) by lia.
      rewrite Z.pow_add_r by lia; ring. }
  pose proof (renormalize m1 e' He'min (conj Hm1lo Hm1hi)) as H2.
  destruct (shr_fexp prec emax m1 e' loc_Exact) as [mrs'' e''].
  destruct H2 as [(Hlt & Hm'' & He'')|(Heq & Hm'' & He'')]; rewrite Hm''.
  - destruct m1 as [|q|q] eqn:Eq; [| |lia].
    + split; [reflexivity|]. rewrite <- Hval; reflexivity.
    + destruct (e'' <=? emax - prec); [|reflexivity].
      split; [reflexivity|]; split; [lia|].
      rewrite He''; exact Hval.
  - assert (Hp1 : 0 < 2 ^ (prec - 1)) by (apply Z.pow_pos_nonneg; lia).
    destruct (2 ^ (prec - 1)) as [|q|q] eqn:Eq; [lia| |lia].
    destruct (e'' <=? emax - prec); [|reflexivity].
    split; [reflexivity|]; split; [lia|].
    rewrite <- Hval, Heq, He'', <- Eq.
    replace (e' + 1 - k) with (Z.succ (e' - k)) by lia.
    rewrite Z.pow_succ_r by lia.
    replace prec with (Z.succ (prec - 1)) at 2 by lia.
    rewrite Z.pow_succ_r by lia. ring.
Qed.

(** Rounding is monotone. *)
Lemma scaled_bounds (m : positive) e k :
  k <= e ->
  2 ^ (Zpos (digits2_pos m) + e - 1 - k) <= Zpos m * 2 ^ (e - k)
  /\ Zpos m * 2 ^ (e - k) < 2 ^ (Zpos (digits2_pos m) + e - k).
Proof.
  intros Hk; pose proof (digits2_bounds m) as [Hlo Hhi].
  set (d := Zpos (digits2_pos m)) in *.
  assert (Hd : 1 <= d) by (unfold d; lia).
  assert (Hp : 0 < 2 ^ (e - k)) by (apply Z.pow_pos_nonneg; lia).
  replace (d + e - 1 - k) with ((d - 1) + (e - k)) by lia.
  replace (d + e - k) with (d + (e - k)) by lia.
  rewrite !Z.pow_add_r by lia.
  split; nia.
Qed.

Lemma rounded_mono k (m1 m2 : positive) e1 e2 :
  k <= e1 -> k <= e2 -> k <= emin ->
  Zpos m1 * 2 ^ (e1 - k) <= Zpos m2 * 2 ^ (e2 - k) ->
  rounded prec emax k m1 e1 <= rounded prec emax k m2 e2.
Proof.
  intros Hk1 Hk2 Hkm HV; unfold rounded.
  destruct (scaled_bounds m1 e1 k Hk1) as [Hlo1 Hhi1].
  destruct (scaled_bounds m2 e2 k Hk2) as [Hlo2 Hhi2].
  set (V1 := Zpos m1 * 2 ^ (e1 - k)) in *.
  set (V2 := Zpos m2 * 2 ^ (e2 - k)) in *.
  set (mag1 := Zpos (digits2_pos m1) + e1) in *.
  set (mag2 := Zpos (digits2_pos m2) + e2) in *.
  assert (Hmag : mag1 <= mag2).
  { destruct (Z.le_gt_cases mag1 mag2) as [H|H]; [exact H|exfalso].
    assert (2 ^ (mag2 - k) <= 2 ^ (mag1 - 1 - k)) by (apply Z.pow_le_mono_r; lia).
    lia. }
  pose proof (fexp_ge_emin mag1) as HE1; pose proof (fexp_ge_emin mag2) as HE2.
  assert (HE : fexp mag1 <= fexp mag2) by (unfold SpecFloat.fexp; lia).
  set (E1 := fexp mag1) in *; set (E2 := fexp mag2) in *.
  assert (HG1 : 0 < 2 ^ (E1 - k)) by (apply Z.pow_pos_nonneg; lia).
  assert (HG2 : 0 < 2 ^ (E2 - k)) by (apply Z.pow_pos_nonneg; lia).
  destruct (Z.eq_dec E1 E2) as [Eeq|Ene].
  - rewrite Eeq in *.
    apply Z.mul_le_mono_nonneg_l; [lia|].
    apply rne_div_mono; assumption.
  - assert (HE2' : E2 = mag2 - prec) by (unfold E1, E2, SpecFloat.fexp in *; lia).
    assert (Hmag' : mag1 <= mag2 - 1) by (unfold E1, E2, SpecFloat.fexp in *; lia).
    set (B := 2 ^ (mag2 - 1 - k)).
    assert (HV1 : V1 <= B).
    { assert (2 ^ (mag1 - k) <= B) by (apply Z.pow_le_mono_r; lia). lia. }
    assert (HB1 : B = 2 ^ (E1 - k) * 2 ^ (mag2 - 1 - E1)).
    { unfold B; rewrite <- Z.pow_add_r by lia; f_equal; lia. }
    assert (HB2 : B = 2 ^ (E2 - k) * 2 ^ (prec - 1)).
    { unfold B; rewrite <- Z.pow_add_r by lia; f_equal; lia. }
    apply (Z.le_trans _ B).
    + pose proof (rne_div_mono V1 B (2 ^ (E1 - k)) HG1 HV1) as H.
      rewrite HB1 in H at 1; rewrite rne_div_exact in H by exact HG1.
      rewrite HB1; apply Z.mul_le_mono_nonneg_l; lia.
    + pose proof (rne_div_mono B V2 (2 ^ (E2 - k)) HG2 Hlo2) as H.
      rewrite HB2 in H at 1; rewrite rne_div_exact in H by exact HG2.
      rewrite HB2; apply Z.mul_le_mono_nonneg_l; lia.
Qed.

Lemma round_exact_scaled (m : positive) e k :
  k <= e -> k <= emin ->
  finite_or_zero (binary_round_aux prec emax false (Zpos m) e loc_Exact) ->
  scaled k (binary_round_aux prec emax false (Zpos m) e loc_Exact) = rounded prec emax k m e.
Proof.
  intros Hke Hkm; pose proof (round_exact_spec m e k Hke Hkm) as H.
  destruct (binary_round_aux prec emax false (Zpos m) e loc_Exact);
    simpl; intros Hf; try contradiction.
  - symmetry; apply H.
  - apply H.
Qed.

Lemma round_exact_exponent (m : positive) e k s m' e' :
  k <= e -> k <= emin ->
  binary_round_aux prec emax false (Zpos m) e loc_Exact = S754_finite s m' e' ->
  s = false /\ k <= e'.
Proof.
  intros Hke Hkm Hx; pose proof (round_exact_spec m e k Hke Hkm) as H.
  rewrite Hx in H; tauto.
Qed.

(** Rounding never changes the sign it is given. *)
Lemma binary_round_aux_sign s m e l :
  match binary_round_aux prec emax s m e l with
  | S754_zero s' | S754_infinity s' | S754_finite s' _ _ => s' = s
  | S754_nan => True
  end.
Proof.
  unfold binary_round_aux.
  destruct (shr_fexp prec emax m e l) as [mrs' e'].
  destruct (shr_fexp prec emax _ e' loc_Exact) as [mrs'' e''].
  destruct (shr_m mrs''); [reflexivity| |exact I].
  destruct (e'' <=? emax - prec); reflexivity.
Qed.

(** [shl_align] keeps the value. *)
Lemma iter_xO_pow2 m d : Zpos (Pos.iter xO m d) = Zpos m * 2 ^ Zpos d.
Proof.
  rewrite <- Z.shiftl_mul_pow2 by lia; unfold Z.shiftl.
  apply (Pos.iter_swap_gen _ _ Zpos xO (Z.mul 2)); reflexivity.
Qed.

Lemma shl_align_spec m e e' :
  let '(mz, ez) := shl_align m e e' in
  ez = Z.min e e' /\ Zpos mz = Zpos m * 2 ^ (e - ez).
Proof.
  unfold shl_align; destruct (e' - e) as [|d|d] eqn:Ed.
  - rewrite Z.sub_diag; simpl; lia.
  - rewrite Z.sub_diag; simpl; lia.
  - split; [lia|].
    rewrite iter_xO_pow2; f_equal; f_equal; lia.
Qed.

End Rounding.

(** ** Floats of the handler: signs *)

Lemma prec_pos : 0 < PyFloat.prec.
Proof. reflexivity. Qed.

Lemma to_int_floor x : PyFloat.sign_clear x -> PyFloat.to_int x = PyFloat.floor x.
Proof. destruct x as [s|s| |s m e]; simpl; intros H; subst; reflexivity. Qed.

Lemma binary_round_unsigned m e :
  PyFloat.unsigned (binary_round PyFloat.prec PyFloat.emax false m e).
Proof.
  unfold binary_round.
  destruct (shl_align m e _) as [mz ez].
  pose proof (binary_round_aux_sign PyFloat.prec PyFloat.emax false (Zpos mz) ez loc_Exact) as H.
  destruct (binary_round_aux _ _ _ _ _ _); simpl; auto.
Qed.

Lemma of_int_unsigned n y :
  0 <= n -> PyFloat.of_int n = Ok y -> PyFloat.unsigned y.
Proof.
  unfold PyFloat.of_int, binary_normalize; intros Hn.
  destruct n as [|p|p]; [| |lia].
  - intros H; inversion H; reflexivity.
  - pose proof (binary_round_unsigned p 0) as Hu.
    destruct (binary_round _ _ _ _ _); intros H; inversion H; subst; exact Hu.
Qed.

Lemma SFdiv_sign_clear x y :
  PyFloat.sign_clear x -> PyFloat.unsigned y ->
  PyFloat.sign_clear (SFdiv PyFloat.prec PyFloat.emax x y).
Proof.
  destruct x as [sx|sx| |sx mx ex], y as [sy|sy| |sy my ey]; simpl;
    intros Hx Hy; subst; auto.
  destruct (SFdiv_core_binary _ _ _ _ _ _) as [[mz ez] lz].
  pose proof (binary_round_aux_sign PyFloat.prec PyFloat.emax false mz ez lz) as H.
  destruct (binary_round_aux _ _ _ _ _ _); simpl; auto.
Qed.

Lemma SFmul_sign_clear x y :
  PyFloat.sign_clear x -> PyFloat.unsigned y ->
  PyFloat.sign_clear (SFmul PyFloat.prec PyFloat.emax x y).
Proof.
  destruct x as [sx|sx| |sx mx ex], y as [sy|sy| |sy my ey]; simpl;
    intros Hx Hy; subst; auto.
  pose proof (binary_round_aux_sign PyFloat.prec PyFloat.emax false
                (Zpos (mx * my)) (ex + ey) loc_Exact) as H.
  destruct (binary_round_aux _ _ _ _ _ _); simpl; auto.
Qed.

Lemma nonneg_sign_clear x : PyFloat.nonneg x = true -> PyFloat.sign_clear x.
Proof.
  destruct x as [s|[|]| |[|] m e]; simpl; intros H; try discriminate; auto.
Qed.

Lemma div_int_sign_clear x n y :
  PyFloat.sign_clear x -> 0 <= n -> PyFloat.div_int x n = Ok y -> PyFloat.sign_clear y.
Proof.
  unfold PyFloat.div_int, pyres_bind; intros Hx Hn.
  destruct (PyFloat.of_int n) as [d|] eqn:Hd; [|discriminate].
  destruct (PyFloat.is_zero d); [discriminate|].
  intros H; inversion H; subst.
  apply SFdiv_sign_clear; [exact Hx | eapply of_int_unsigned; eassumption].
Qed.

Lemma mul_int_sign_clear x n y :
  PyFloat.sign_clear x -> 0 <= n -> PyFloat.mul_int x n = Ok y -> PyFloat.sign_clear y.
Proof.
  unfold PyFloat.mul_int, pyres_bind; intros Hx Hn.
  destruct (PyFloat.of_int n) as [d|] eqn:Hd; [|discriminate].
  intros H; inversion H; subst.
  apply SFmul_sign_clear; [exact Hx | eapply of_int_unsigned; eassumption].
Qed.

Lemma to_int_nonneg x d : PyFloat.sign_clear x -> PyFloat.to_int x = Ok d -> 0 <= d.
Proof.
  destruct x as [s|s| |s m e]; simpl; intros Hs H; inversion H; subst; [lia|].
  apply Z.shiftl_nonneg; lia.
Qed.

(** ** Floats of the handler: order *)

Lemma shiftl_scaled m e k :
  k <= e -> k <= 0 -> Z.shiftl m e = (m * 2 ^ (e - k)) / 2 ^ (- k).
Proof.
  intros Hke Hk0.
  assert (Hk : 0 < 2 ^ (- k)) by (apply Z.pow_pos_nonneg; lia).
  destruct (Z.le_gt_cases 0 e) as [He|He].
  - rewrite Z.shiftl_mul_pow2 by lia.
    replace (e - k) with (e + - k) by lia.
    rewrite Z.pow_add_r, Z.mul_assoc, Z.div_mul by lia; reflexivity.
  - replace e with (- - e) at 1 by lia.
    rewrite Z.shiftl_opp_r, Z.shiftr_div_pow2 by lia.
    replace (- k) with (- e + (e - k)) by lia.
    rewrite Z.pow_add_r by lia.
    rewrite Z.div_mul_cancel_r; [reflexivity| |];
      apply Z.neq_sym, Z.lt_neq, Z.pow_pos_nonneg; lia.
Qed.

Lemma to_int_scaled x k d :
  PyFloat.sign_clear x -> above k x -> k <= 0 ->
  PyFloat.to_int x = Ok d -> d = scaled k x / 2 ^ (- k).
Proof.
  destruct x as [s|s| |s m e]; unfold PyFloat.to_int, PyFloat.sign_clear, above, scaled;
    intros Hs Ha Hk H; inversion H; subst.
  - reflexivity.
  - apply shiftl_scaled; assumption.
Qed.

Lemma scaled_nonneg k x : above k x -> 0 <= scaled k x.
Proof.
  destruct x as [s|s| |s m e]; unfold above, scaled; intros H; try lia.
  all: pose proof (Z.pow_pos_nonneg 2 (e - k) ltac:(lia) ltac:(lia)); lia.
Qed.

(** [float(n)] for a positive int is the rounding of a mantissa and an
    exponent that stand for [n]. *)
Lemma of_int_rounding p y :
  PyFloat.of_int (Zpos p) = Ok y ->
  exists mz ez,
    emin64 <= ez
    /\ Zpos mz * 2 ^ (ez - emin64) = Zpos p * 2 ^ (- emin64)
    /\ y = binary_round_aux PyFloat.prec PyFloat.emax false (Zpos mz) ez loc_Exact
    /\ finite_or_zero y.
Proof.
  unfold PyFloat.of_int, binary_normalize, binary_round.
  pose proof (shl_align_spec p 0
                (SpecFloat.fexp PyFloat.prec PyFloat.emax (Zpos (digits2_pos p) + 0))) as Hal.
  destruct (shl_align p 0 _) as [mz ez]; destruct Hal as [Hez Hmz].
  pose proof (fexp_ge_emin PyFloat.prec PyFloat.emax (Zpos (digits2_pos p) + 0)) as Hf.
  assert (He : emin64 <= ez).
  { unfold emin64; rewrite Hez.
    apply Z.min_glb; [vm_compute; discriminate | exact Hf]. }
  assert (Hez0 : ez <= 0) by lia.
  pose proof (round_exact_spec PyFloat.prec PyFloat.emax prec_pos mz ez emin64 He
                (Z.le_refl _)) as Hspec.
  intros H; exists mz, ez.
  split; [exact He|]; split.
  - rewrite Hmz, <- Z.mul_assoc, <- Z.pow_add_r by lia.
    f_equal; f_equal; lia.
  - destruct (binary_round_aux _ _ _ _ _ _) as [s|s| |s m e];
      inversion H; subst; simpl; try tauto.
Qed.

Lemma of_int_above n y : PyFloat.of_int n = Ok y -> 0 <= n -> above emin64 y.
Proof.
  intros H Hn; destruct n as [|p|p]; [| |lia].
  - inversion H; exact I.
  - destruct (of_int_rounding p y H) as (mz & ez & He & _ & Hy & _).
    pose proof (round_exact_spec PyFloat.prec PyFloat.emax prec_pos mz ez emin64 He
                  (Z.le_refl _)) as Hspec.
    rewrite <- Hy in Hspec; destruct y; simpl; tauto.
Qed.

Lemma of_int_finite n y : PyFloat.of_int n = Ok y -> 0 <= n -> finite_or_zero y.
Proof.
  intros H Hn; destruct n as [|p|p]; [| |lia].
  - inversion H; exact I.
  - destruct (of_int_rounding p y H) as (_ & _ & _ & _ & _ & Hf); exact Hf.
Qed.

(** [float] is monotone on the non-negative ints. *)
Lemma of_int_mono i j yi yj :
  0 <= i <= j ->
  PyFloat.of_int i = Ok yi -> PyFloat.of_int j = Ok yj ->
  scaled emin64 yi <= scaled emin64 yj.
Proof.
  intros Hij Hi Hj.
  destruct i as [|pi|pi]; [| |lia].
  - inversion Hi; subst; simpl.
    apply scaled_nonneg; eapply of_int_above; [eassumption|lia].
  - destruct j as [|pj|pj]; [lia| |lia].
    destruct (of_int_rounding pi yi Hi) as (mi & ei & Hei & Hvi & Hyi & Hfi).
    destruct (of_int_rounding pj yj Hj) as (mj & ej & Hej & Hvj & Hyj & Hfj).
    rewrite Hyi in Hfi |- *; rewrite Hyj in Hfj |- *.
    rewrite !(round_exact_scaled PyFloat.prec PyFloat.emax prec_pos)
      by (assumption || apply Z.le_refl).
    apply (rounded_mono PyFloat.prec PyFloat.emax prec_pos);
      try assumption; try apply Z.le_refl.
    rewrite Hvi, Hvj.
    apply Z.mul_le_mono_nonneg_r; [|lia].
    apply Z.pow_nonneg; lia.
Qed.

(** Multiplying a float without minus sign by two ordered floats, then
    truncating, keeps the order. *)
Lemma mul_to_int_mono seg yi yj di dj :
  PyFloat.sign_clear seg ->
  PyFloat.unsigned yi -> PyFloat.unsigned yj ->
  finite_or_zero yi -> finite_or_zero yj ->
  above emin64 yi -> above emin64 yj ->
  scaled emin64 yi <= scaled emin64 yj ->
  PyFloat.to_int (SFmul PyFloat.prec PyFloat.emax seg yi) = Ok di ->
  PyFloat.to_int (SFmul PyFloat.prec PyFloat.emax seg yj) = Ok dj ->
  di <= dj.
Proof.
  intros Hseg Hui Huj Hfi Hfj Hai Haj Hle Hdi Hdj.
  assert (Hnni : 0 <= di).
  { eapply to_int_nonneg; [|exact Hdi]. apply SFmul_sign_clear; assumption. }
  assert (Hnnj : 0 <= dj).
  { eapply to_int_nonneg; [|exact Hdj]. apply SFmul_sign_clear; assumption. }
  destruct seg as [ss|ss| |ss mx ex].
  - (* a zero times anything finite is a zero *)
    destruct yi as [si|si| |si mi ei]; try contradiction;
      destruct yj as [sj|sj| |sj mj ej]; try contradiction;
      simpl in Hdi, Hdj; inversion Hdi; inversion Hdj; lia.
  - destruct yi as [si|si| |si mi ei]; try contradiction; simpl in Hdi; discriminate.
  - simpl in Hdi; discriminate.
  - simpl in Hseg; subst ss.
    destruct yi as [si|si| |si mi ei]; try contradiction.
    { simpl in Hdi; inversion Hdi; lia. }
    destruct yj as [sj|sj| |sj mj ej]; try contradiction.
    { (* a positive float is not below a zero *)
      exfalso; unfold scaled in Hle; simpl in Hai.
      pose proof (Z.pow_pos_nonneg 2 (ei - emin64) ltac:(lia) ltac:(lia)); lia. }
    simpl in Hui, Huj, Hai, Haj; subst si sj.
    unfold SFmul in Hdi, Hdj; cbn [xorb] in Hdi, Hdj.
    set (k := Z.min 0 ex + emin64).
    assert (Hemin : emin64 <= 0) by (vm_compute; discriminate).
    assert (Hk0 : k <= 0) by (unfold k; lia).
    assert (Hkm : k <= emin64) by (unfold k; lia).
    assert (Hki : k <= ex + ei) by (unfold k; lia).
    assert (Hkj : k <= ex + ej) by (unfold k; lia).
    set (xi := binary_round_aux PyFloat.prec PyFloat.emax false
                 (Zpos (mx * mi)) (ex + ei) loc_Exact) in *.
    set (xj := binary_round_aux PyFloat.prec PyFloat.emax false
                 (Zpos (mx * mj)) (ex + ej) loc_Exact) in *.
    assert (Hxi : finite_or_zero xi)
      by (destruct xi; simpl in Hdi; try discriminate; exact I).
    assert (Hxj : finite_or_zero xj)
      by (destruct xj; simpl in Hdj; try discriminate; exact I).
    assert (Hsi : PyFloat.sign_clear xi /\ above k xi).
    { pose proof (round_exact_spec PyFloat.prec PyFloat.emax prec_pos
                    (mx * mi) (ex + ei) k Hki Hkm) as H; fold xi in H.
      destruct xi; simpl; tauto. }
    assert (Hsj : PyFloat.sign_clear xj /\ above k xj).
    { pose proof (round_exact_spec PyFloat.prec PyFloat.emax prec_pos
                    (mx * mj) (ex + ej) k Hkj Hkm) as H; fold xj in H.
      destruct xj; simpl; tauto. }
    rewrite (to_int_scaled xi k di (proj1 Hsi) (proj2 Hsi) Hk0 Hdi).
    rewrite (to_int_scaled xj k dj (proj1 Hsj) (proj2 Hsj) Hk0 Hdj).
    apply Z.div_le_mono; [apply Z.pow_pos_nonneg; lia|].
    unfold xi, xj.
    rewrite !(round_exact_scaled PyFloat.prec PyFloat.emax prec_pos) by assumption.
    apply (rounded_mono PyFloat.prec PyFloat.emax prec_pos); try assumption.
    unfold scaled in Hle.
    replace (ex + ei - k) with ((ex - Z.min 0 ex) + (ei - emin64)) by (unfold k; lia).
    replace (ex + ej - k) with ((ex - Z.min 0 ex) + (ej - emin64)) by (unfold k; lia).
    rewrite !Z.pow_add_r by lia.
    rewrite !Pos2Z.inj_mul.
    pose proof (Z.pow_pos_nonneg 2 (ex - Z.min 0 ex) ltac:(lia) ltac:(lia)) as Hc.
    set (c := 2 ^ (ex - Z.min 0 ex)) in *.
    set (vi := Zpos mi * 2 ^ (ei - emin64)) in *.
    set (vj := Zpos mj * 2 ^ (ej - emin64)) in *.
    replace (Zpos mx * Zpos mi * (c * 2 ^ (ei - emin64))) with ((Zpos mx * c) * vi)
      by (unfold vi; ring).
    replace (Zpos mx * Zpos mj * (c * 2 ^ (ej - emin64))) with ((Zpos mx * c) * vj)
      by (unfold vj; ring).
    apply Z.mul_le_mono_nonneg_l; [nia | exact Hle].
Qed.

(** The distances [int(segment_length * index)] grow with the index. *)
Lemma distance_mono seg (i j : nat) yi yj di dj :
  PyFloat.sign_clear seg -> (i <= j)%nat ->
  PyFloat.mul_int seg (Z.of_nat i) = Ok yi -> PyFloat.to_int yi = Ok di ->
  PyFloat.mul_int seg (Z.of_nat j) = Ok yj -> PyFloat.to_int yj = Ok dj ->
  di <= dj.
Proof.
  unfold PyFloat.mul_int, pyres_bind; intros Hseg Hij Hyi Hdi Hyj Hdj.
  destruct (PyFloat.of_int (Z.of_nat i)) as [fi|] eqn:Hfi; [|discriminate].
  destruct (PyFloat.of_int (Z.of_nat j)) as [fj|] eqn:Hfj; [|discriminate].
  inversion Hyi; subst yi; inversion Hyj; subst yj.
  eapply (mul_to_int_mono seg fi fj); try eassumption.
  - eapply of_int_unsigned; [|exact Hfi]; lia.
  - eapply of_int_unsigned; [|exact Hfj]; lia.
  - eapply of_int_finite; [exact Hfi|lia].
  - eapply of_int_finite; [exact Hfj|lia].
  - eapply of_int_above; [exact Hfi|lia].
  - eapply of_int_above; [exact Hfj|lia].
  - eapply of_int_mono; [|exact Hfi|exact Hfj]; lia.
Qed.

(** The first distance is 0. *)
Lemma distance_first seg y d :
  PyFloat.mul_int seg 0 = Ok y -> PyFloat.to_int y = Ok d -> d = 0.
Proof.
  unfold PyFloat.mul_int; simpl; intros Hy Hd; inversion Hy; subst y.
  destruct seg as [s|s| |s m e]; simpl in Hd; inversion Hd; reflexivity.
Qed.

(** ** Running the query functions *)

Lemma after_query_trace s wkt w :
  trace (after_query s wkt w) = trace w ++ query_trace (opened w) s wkt.
Proof.
  unfold after_query, query_trace; simpl.
  repeat rewrite <- app_assoc; reflexivity.
Qed.



Lemma after_failed_query_trace s wkt w :
  trace (after_failed_query s wkt w)
  = trace w ++ failed_query_trace (opened w) s wkt.
Proof.
  unfold after_failed_query, failed_query_trace; simpl.
  repeat rewrite <- app_assoc; reflexivity.
Qed.


Section Runs.
Variable py_repr : json -> string.
Variable json_loads : string -> pyres json.
Variable db : database.

Lemma run_execute {R} s (run : string -> pyres R) wkt w :
  with_connection (fun conn => execute conn s run wkt) w
  = (run wkt, after_call (run wkt) s wkt w).
Proof.
  unfold with_connection, connect, execute, commit, rollback, close, after_call,
    after_query, after_failed_query, log; simpl.
  destruct (run wkt) as [rows|e]; simpl;
    repeat rewrite <- app_assoc; reflexivity.
Qed.

Lemma run_fetch_elevation_data wkt w :
  fetch_elevation_data db wkt w
  = (db_elevation db wkt, after_call (db_elevation db wkt) ElevationStatement wkt w).
Proof. apply run_execute. Qed.

Lemma run_fetch_hydrographic_info wkt w :
  fetch_hydrographic_info db wkt w
  = (db_hydro db wkt, after_call (db_hydro db wkt) HydroStatement wkt w).
Proof. apply run_execute. Qed.

Lemma run_fetch_clc_data wkt w :
  fetch_clc_data db wkt w
  = (db_clc db wkt, after_call (db_clc db wkt) ClcStatement wkt w).
Proof. apply run_execute. Qed.

Lemma run_calculate_clc_percentage wkt w :
  calculate_clc_percentage db wkt w
  = (db_clc_pct db wkt, after_call (db_clc_pct db wkt) ClcPctStatement wkt w).
Proof. apply run_execute. Qed.

Lemma run_calculate_linestring_length wkt w :
  calculate_linestring_length db wkt w
  = (total_length_of db wkt,
     after_call (total_length_of db wkt) LengthStatement wkt w).
Proof.
  unfold calculate_linestring_length, total_length_of, with_connection,
    connect, execute, commit, rollback, close, after_call, after_query,
    after_failed_query, io_bind, lift, log; simpl.
  destruct (db_length db wkt) as [[|len rows]|e]; simpl;
    repeat rewrite <- app_assoc; reflexivity.
Qed.

(** What an answered request went through, step by step. *)
Lemma process_linestring_Ok req w resp w' :
  process_linestring py_repr json_loads db req w = (Ok resp, w') ->
  exists wkt total_length fetched segment_length,
    request_wkt py_repr req = Ok wkt
    /\ total_length_of db wkt = Ok total_length
    /\ db_elevation db wkt = Ok fetched
    /\ PyFloat.div_int total_length (Z.of_nat (List.length fetched)) = Ok segment_length
    /\ comprehension (profile_entry json_loads segment_length)
         (enumerate (map elevation_point fetched)) = Ok (values resp)
    /\ db_hydro db wkt = Ok (hydro_info resp)
    /\ db_clc db wkt = Ok (clc_info resp)
    /\ db_clc_pct db wkt = Ok (clc_pct_info resp)
    /\ w' = after_query ClcPctStatement wkt
              (after_query ClcStatement wkt
                 (after_query HydroStatement wkt
                    (after_query ElevationStatement wkt
                       (after_query LengthStatement wkt w)))).
Proof.
  unfold process_linestring, request_wkt, io_bind, lift, io_ret, pyres_bind.
  destruct (request_json req) as [data|] eqn:Hdata; cbv beta iota; [|discriminate].
  destruct (build_wkt py_repr data) as [wkt|] eqn:Hwkt; cbv beta iota; [|discriminate].
  rewrite run_calculate_linestring_length.
  destruct (total_length_of db wkt) as [total_length|] eqn:HL;
    cbv beta iota delta [after_call]; [|discriminate].
  rewrite run_fetch_elevation_data.
  destruct (db_elevation db wkt) as [fetched|] eqn:Hrows;
    cbv beta iota zeta delta [after_call]; [|discriminate].
  rewrite length_map.
  destruct (PyFloat.div_int _ _) as [segment_length|] eqn:Hseg; cbv beta iota; [|discriminate].
  destruct (comprehension _ _) as [entries|] eqn:Hvals; cbv beta iota; [|discriminate].
  rewrite run_fetch_hydrographic_info.
  destruct (db_hydro db wkt) as [hydro|] eqn:Hhydro;
    cbv beta iota delta [after_call]; [|discriminate].
  rewrite run_fetch_clc_data.
  destruct (db_clc db wkt) as [clc|] eqn:Hclc;
    cbv beta iota delta [after_call]; [|discriminate].
  rewrite run_calculate_clc_percentage.
  destruct (db_clc_pct db wkt) as [pct|] eqn:Hpct;
    cbv beta iota delta [after_call]; [|discriminate].
  intros H; inversion H; subst; clear H; simpl.
  exists wkt, total_length, fetched, segment_length.
  repeat split; assumption || reflexivity.
Qed.

(** The entry of [values] at an index where a row was fetched. *)
Lemma values_nth req w resp w' wkt fetched i row :
  process_linestring py_repr json_loads db req w = (Ok resp, w') ->
  request_wkt py_repr req = Ok wkt ->
  db_elevation db wkt = Ok fetched ->
  nth_error fetched i = Some row ->
  exists total_length segment_length entry,
    total_length_of db wkt = Ok total_length
    /\ PyFloat.div_int total_length (Z.of_nat (List.length fetched)) = Ok segment_length
    /\ nth_error (values resp) i = Some entry
    /\ profile_entry json_loads segment_length (i, elevation_point row) = Ok entry.
Proof.
  intros Hrun Hwkt Hrows Hrow.
  destruct (process_linestring_Ok _ _ _ _ Hrun)
    as (wkt' & L & fetched' & seg & Hwkt' & HL & Hrows' & Hseg & Hvals & _).
  rewrite Hwkt in Hwkt'; inversion Hwkt'; subst wkt'.
  rewrite Hrows in Hrows'; inversion Hrows'; subst fetched'.
  assert (Hin : nth_error (enumerate (map elevation_point fetched)) i
                = Some (i, elevation_point row)).
  { unfold enumerate.
    rewrite (enumerate_from_nth _ 0 i (elevation_point row)); [reflexivity|].
    rewrite nth_error_map, Hrow; reflexivity. }
  destruct (comprehension_nth _ _ _ _ _ Hvals Hin) as (entry & Hentry & Hf).
  exists L, seg, entry; auto.
Qed.

Lemma values_length req w resp w' wkt fetched :
  process_linestring py_repr json_loads db req w = (Ok resp, w') ->
  request_wkt py_repr req = Ok wkt ->
  db_elevation db wkt = Ok fetched ->
  List.length (values resp) = List.length fetched.
Proof.
  intros Hrun Hwkt Hrows.
  destruct (process_linestring_Ok _ _ _ _ Hrun)
    as (wkt' & L & fetched' & seg & Hwkt' & HL & Hrows' & Hseg & Hvals & _).
  rewrite Hwkt in Hwkt'; inversion Hwkt'; subst wkt'.
  rewrite Hrows in Hrows'; inversion Hrows'; subst fetched'.
  rewrite (comprehension_length _ _ _ Hvals).
  unfold enumerate; rewrite enumerate_from_length, length_map; reflexivity.
Qed.

(** The handler reads the request through its WKT text only. *)
Lemma process_linestring_wkt req req' w :
  request_wkt py_repr req = request_wkt py_repr req' ->
  process_linestring py_repr json_loads db req w
  = process_linestring py_repr json_loads db req' w.
Proof.
  unfold process_linestring, request_wkt, io_bind, lift, pyres_bind.
  destruct (request_json req) as [data|e]; destruct (request_json req') as [data'|e'];
    cbv beta iota.
  - intros ->; reflexivity.
  - intros ->; reflexivity.
  - intros <-; reflexivity.
  - intros H; inversion H; reflexivity.
Qed.

End Runs.

Lemma sample_run : Sample.run = (Ok Sample.answer,
  {| opened := 5; live := []; trace := request_trace 0 Sample.wkt |}).
Proof. vm_compute. reflexivity. Qed.

(** ** The WKT text (C3, C10) *)

Section Wkt.
Variable py_repr : json -> string.

Lemma coord_text_pair coord a b :
  getitem_int coord 0 = Ok a ->
  getitem_int coord 1 = Ok b ->
  coord_text py_repr coord
  = Ok (py_format py_repr a ++ " " ++ py_format py_repr b)%string.
Proof. unfold coord_text; intros -> ->; reflexivity. Qed.

Lemma coord_text_same_first_two c c' :
  same_first_two c c' -> coord_text py_repr c = coord_text py_repr c'.
Proof.
  intros (a & b & H0 & H1 & H0' & H1').
  rewrite (coord_text_pair c a b H0 H1), (coord_text_pair c' a b H0' H1').
  reflexivity.
Qed.

Lemma comprehension_coord_text_agree cs cs' :
  Forall2 same_first_two cs cs' ->
  comprehension (coord_text py_repr) cs = comprehension (coord_text py_repr) cs'.
Proof.
  induction 1 as [|c c' cs cs' Hc _ IH]; simpl; [reflexivity|].
  rewrite (coord_text_same_first_two _ _ Hc), IH; reflexivity.
Qed.

(** C3. The WKT text is [LINESTRING(] x0 y0[, ]x1 y1[, ]...[)]: whenever
    every entry of [coords] has a first and a second element, the text is
    made of the printed form of these two, joined by a space, the pairs
    joined by a comma and a space; and for [coords = [[0,0],[1,1]]] it is
    exactly [LINESTRING(0 0, 1 1)]. *)
Theorem wkt_is_joined_pairs :
  (forall data coords items pairs,
      getitem_str data "coords" = Ok coords ->
      py_iter coords = Ok items ->
      Forall2 (fun item p => getitem_int item 0 = Ok (fst p)
                             /\ getitem_int item 1 = Ok (snd p)) items pairs ->
      build_wkt py_repr data
      = Ok (spec_wkt (map (fun p => (py_format py_repr (fst p),
                                     py_format py_repr (snd p))) pairs)))
  /\ build_wkt py_repr
       (JDict [("coords"%string,
                JList [JList [JInt 0; JInt 0]; JList [JInt 1; JInt 1]])])
     = Ok "LINESTRING(0 0, 1 1)"%string.
Proof.
  split; [|reflexivity].
  intros data coords items pairs Hcoords Hitems Hpairs.
  unfold build_wkt, spec_wkt; rewrite Hcoords; simpl; rewrite Hitems; simpl.
  rewrite (comprehension_Forall2 (coord_text py_repr) items
             (map (fun p => (py_format py_repr (fst p) ++ " "
                             ++ py_format py_repr (snd p))%string) pairs)).
  - simpl; rewrite map_map; reflexivity.
  - clear Hitems; induction Hpairs as [|item p items pairs [H0 H1] _ IH]; simpl; constructor.
    + apply coord_text_pair; assumption.
    + exact IH.
Qed.

(** C10. Two [coords] lists whose entries have the same first two
    elements give the same WKT text, whatever follows in each entry and
    whatever else the two bodies hold; the handler then returns the same
    response and leaves the same trace, the database being the same. *)
Theorem wkt_reads_first_two_only :
  forall data data' cs cs',
    getitem_str data "coords" = Ok (JList cs) ->
    getitem_str data' "coords" = Ok (JList cs') ->
    Forall2 same_first_two cs cs' ->
    build_wkt py_repr data = build_wkt py_repr data'
    /\ forall json_loads db w,
         process_linestring py_repr json_loads db {| request_json := Ok data |} w
         = process_linestring py_repr json_loads db {| request_json := Ok data' |} w.
Proof.
  intros data data' cs cs' H H' Hcs.
  assert (E : build_wkt py_repr data = build_wkt py_repr data').
  { unfold build_wkt; rewrite H, H'; simpl.
    rewrite (comprehension_coord_text_agree _ _ Hcs); reflexivity. }
  split; [exact E|].
  intros json_loads db w; apply process_linestring_wkt.
  unfold request_wkt; simpl; exact E.
Qed.

End Wkt.

Lemma wkt_is_joined_pairs_witness :
  build_wkt Sample.py_repr Sample.body
  = Ok (spec_wkt [("0", "0"); ("1", "1")]%string).
Proof.
  refine (proj1 (wkt_is_joined_pairs Sample.py_repr)
            Sample.body
            (JList [JList [JInt 0; JInt 0]; JList [JInt 1; JInt 1]])
            [JList [JInt 0; JInt 0]; JList [JInt 1; JInt 1]]
            [(JInt 0, JInt 0); (JInt 1, JInt 1)]
            eq_refl eq_refl _).
  repeat first [apply Forall2_cons | apply Forall2_nil | split | reflexivity].
Defined.

Lemma wkt_reads_first_two_only_witness :
  build_wkt Sample.py_repr Sample.body = build_wkt Sample.py_repr Sample.body_extra.
Proof.
  refine (proj1 (wkt_reads_first_two_only Sample.py_repr
                   Sample.body Sample.body_extra
                   [JList [JInt 0; JInt 0]; JList [JInt 1; JInt 1]]
                   [JList [JInt 0; JInt 0; JInt 1500];
                    JList [JInt 1; JInt 1; JNull; JStr "summit"]]
                   eq_refl eq_refl _)).
  repeat constructor.
  - exists (JInt 0), (JInt 0); repeat split; reflexivity.
  - exists (JInt 1), (JInt 1); repeat split; reflexivity.
Defined.

(** ** The profile entries (C1, C2, C4, C6, C9) *)

Section Profile.
Variable py_repr : json -> string.
Variable json_loads : string -> pyres json.
Variable db : database.

Lemma profile_entry_Ok segment_length index point entry :
  profile_entry json_loads segment_length (index, point) = Ok entry ->
  exists scaled doc,
    PyFloat.mul_int segment_length (Z.of_nat index) = Ok scaled
    /\ PyFloat.to_int scaled = Ok (distance entry)
    /\ elevation entry = fst point
    /\ json_loads (snd point) = Ok doc
    /\ getitem_str doc "coordinates" = Ok (geometry entry).
Proof.
  unfold profile_entry, pyres_bind.
  destruct (PyFloat.mul_int _ _) as [scaled|] eqn:Hs; [|discriminate].
  destruct (PyFloat.to_int scaled) as [d|] eqn:Hd; [|discriminate].
  destruct (json_loads (snd point)) as [doc|] eqn:Hdoc; [|discriminate].
  destruct (getitem_str doc "coordinates") as [g|] eqn:Hg; [|discriminate].
  intros H; inversion H; subst; simpl.
  exists scaled, doc; repeat split; assumption || reflexivity.
Qed.

(** C2. When the elevation statement returns no row, the handler raises
    [ZeroDivisionError]: it returns no response, so no entry with a NaN
    or an infinite distance. *)
Theorem no_sample_raises :
  forall req w wkt total_length,
    request_wkt py_repr req = Ok wkt ->
    total_length_of db wkt = Ok total_length ->
    db_elevation db wkt = Ok [] ->
    fst (process_linestring py_repr json_loads db req w) = Raise ZeroDivisionError.
Proof.
  intros req w wkt L Hwkt HL Hrows.
  unfold process_linestring, request_wkt, io_bind, lift, pyres_bind in *.
  destruct (request_json req) as [data|]; [|discriminate].
  cbv beta iota; rewrite Hwkt; cbv beta iota.
  rewrite run_calculate_linestring_length, HL; cbv beta iota.
  rewrite run_fetch_elevation_data, Hrows; cbv beta iota zeta.
  reflexivity.
Qed.

(** C4. Every fetched row has its entry in [values], at the same index;
    the entry's elevation is 0 where the row's value is NULL and the
    row's value otherwise. *)
Theorem null_elevation_is_zero :
  forall req w resp w' wkt fetched,
    process_linestring py_repr json_loads db req w = (Ok resp, w') ->
    request_wkt py_repr req = Ok wkt ->
    db_elevation db wkt = Ok fetched ->
    List.length (values resp) = List.length fetched
    /\ forall i row,
         nth_error fetched i = Some row ->
         exists entry,
           nth_error (values resp) i = Some entry
           /\ (fst row = None -> elevation entry = 0)
           /\ (forall v, fst row = Some v -> elevation entry = v).
Proof.
  intros req w resp w' wkt fetched Hrun Hwkt Hrows.
  split; [eapply values_length; eassumption|].
  intros i row Hrow.
  destruct (values_nth _ _ _ _ _ _ _ _ _ _ _ Hrun Hwkt Hrows Hrow)
    as (L & seg & entry & _ & _ & Hentry & Hf).
  destruct (profile_entry_Ok _ _ _ _ Hf) as (_ & _ & _ & _ & He & _).
  exists entry; split; [exact Hentry|].
  rewrite He; unfold elevation_point; simpl.
  split; [intros ->; reflexivity | intros v ->; reflexivity].
Qed.

(** C6. The geometry of each entry is the [coordinates] member of the
    GeoJSON text fetched for that sample, as [json.loads] decodes it. *)
Theorem geometry_is_fetched_coordinates :
  forall req w resp w' wkt fetched,
    process_linestring py_repr json_loads db req w = (Ok resp, w') ->
    request_wkt py_repr req = Ok wkt ->
    db_elevation db wkt = Ok fetched ->
    forall i row,
      nth_error fetched i = Some row ->
      exists entry doc,
        nth_error (values resp) i = Some entry
        /\ json_loads (snd row) = Ok doc
        /\ getitem_str doc "coordinates" = Ok (geometry entry).
Proof.
  intros req w resp w' wkt fetched Hrun Hwkt Hrows i row Hrow.
  destruct (values_nth _ _ _ _ _ _ _ _ _ _ _ Hrun Hwkt Hrows Hrow)
    as (L & seg & entry & _ & _ & Hentry & Hf).
  destruct (profile_entry_Ok _ _ _ _ Hf) as (_ & doc & _ & _ & _ & Hdoc & Hg).
  exists entry, doc; auto.
Qed.

(** The float the distances are computed from carries no minus sign when
    the total length is not negative. *)
Lemma segment_length_sign_clear total_length n segment_length :
  PyFloat.nonneg total_length = true ->
  PyFloat.div_int total_length (Z.of_nat n) = Ok segment_length ->
  PyFloat.sign_clear segment_length.
Proof.
  intros Hnn Hseg.
  eapply div_int_sign_clear; [apply nonneg_sign_clear; exact Hnn | | exact Hseg].
  lia.
Qed.

(** C1. With a total length that is not negative and N rows fetched, the
    entry of index i < N has the distance [floor(total_length / N * i)],
    the quotient, the product and the floor being those of Python on
    floats. *)
Theorem distance_is_floor :
  forall req w resp w' wkt total_length fetched,
    process_linestring py_repr json_loads db req w = (Ok resp, w') ->
    request_wkt py_repr req = Ok wkt ->
    total_length_of db wkt = Ok total_length ->
    db_elevation db wkt = Ok fetched ->
    PyFloat.nonneg total_length = true ->
    forall i,
      (i < List.length fetched)%nat ->
      exists entry,
        nth_error (values resp) i = Some entry
        /\ spec_distance total_length (List.length fetched) i = Ok (distance entry).
Proof.
  intros req w resp w' wkt L fetched Hrun Hwkt HL Hrows Hnn i Hi.
  destruct (nth_error fetched i) as [row|] eqn:Hrow;
    [|apply nth_error_None in Hrow; lia].
  destruct (values_nth _ _ _ _ _ _ _ _ _ _ _ Hrun Hwkt Hrows Hrow)
    as (L' & seg & entry & HL' & Hseg & Hentry & Hf).
  rewrite HL in HL'; inversion HL'; subst L'.
  destruct (profile_entry_Ok _ _ _ _ Hf) as (scaled & _ & Hmul & Hint & _).
  exists entry; split; [exact Hentry|].
  unfold spec_distance; rewrite Hseg; simpl; rewrite Hmul; simpl.
  rewrite <- to_int_floor; [exact Hint|].
  eapply mul_int_sign_clear; [|apply Nat2Z.is_nonneg|exact Hmul].
  eapply segment_length_sign_clear; eassumption.
Qed.

(** C9. With a total length that is not negative, the distances of
    [values] never decrease from one entry to the next ones, and the
    first entry, which exists as soon as a row was fetched, is at
    distance 0. *)
Theorem distances_nondecreasing_from_zero :
  forall req w resp w' wkt total_length fetched,
    process_linestring py_repr json_loads db req w = (Ok resp, w') ->
    request_wkt py_repr req = Ok wkt ->
    total_length_of db wkt = Ok total_length ->
    db_elevation db wkt = Ok fetched ->
    PyFloat.nonneg total_length = true ->
    (forall i j entry_i entry_j,
        (i <= j)%nat ->
        nth_error (values resp) i = Some entry_i ->
        nth_error (values resp) j = Some entry_j ->
        distance entry_i <= distance entry_j)
    /\ (fetched <> [] ->
        exists first, nth_error (values resp) 0 = Some first /\ distance first = 0).
Proof.
  intros req w resp w' wkt L fetched Hrun Hwkt HL Hrows Hnn.
  pose proof (values_length _ _ _ _ _ _ _ _ _ Hrun Hwkt Hrows) as Hlen.
  assert (Hat : forall i entry,
             nth_error (values resp) i = Some entry ->
             exists seg scaled,
               PyFloat.sign_clear seg
               /\ PyFloat.mul_int seg (Z.of_nat i) = Ok scaled
               /\ PyFloat.to_int scaled = Ok (distance entry)
               /\ PyFloat.div_int L (Z.of_nat (List.length fetched)) = Ok seg).
  { intros i entry Hentry.
    assert (Hi : (i < List.length fetched)%nat).
    { rewrite <- Hlen; apply nth_error_Some; rewrite Hentry; discriminate. }
    destruct (nth_error fetched i) as [row|] eqn:Hrow;
      [|apply nth_error_None in Hrow; lia].
    destruct (values_nth _ _ _ _ _ _ _ _ _ _ _ Hrun Hwkt Hrows Hrow)
      as (L' & seg & entry' & HL' & Hseg & Hentry' & Hf).
    rewrite HL in HL'; inversion HL'; subst L'.
    rewrite Hentry in Hentry'; inversion Hentry'; subst entry'.
    destruct (profile_entry_Ok _ _ _ _ Hf) as (scaled & _ & Hmul & Hint & _).
    exists seg, scaled; repeat split; try assumption.
    eapply segment_length_sign_clear; eassumption. }
  split.
  - intros i j entry_i entry_j Hij Hi Hj.
    destruct (Hat i entry_i Hi) as (seg & si & Hsign & Hmi & Hdi & Hseg).
    destruct (Hat j entry_j Hj) as (seg' & sj & _ & Hmj & Hdj & Hseg').
    rewrite Hseg in Hseg'; inversion Hseg'; subst seg'.
    exact (distance_mono seg i j si sj _ _ Hsign Hij Hmi Hdi Hmj Hdj).
  - intros Hne.
    destruct (nth_error (values resp) 0) as [first|] eqn:Hfirst.
    + exists first; split; [reflexivity|].
      destruct (Hat 0%nat first Hfirst) as (seg & s0 & _ & Hm0 & Hd0 & _).
      exact (distance_first seg s0 _ Hm0 Hd0).
    + apply nth_error_None in Hfirst.
      destruct fetched; [contradiction | simpl in Hlen; lia].
Qed.

End Profile.

Lemma distance_is_floor_witness :
  exists entry,
    nth_error (values Sample.answer) 2 = Some entry
    /\ spec_distance Sample.two 3 2 = Ok (distance entry).
Proof.
  exact (distance_is_floor Sample.py_repr Sample.json_loads Sample.db
           Sample.req fresh_world Sample.answer _ Sample.wkt Sample.two Sample.fetched
           sample_run eq_refl eq_refl eq_refl eq_refl 2%nat (Nat.lt_succ_diag_r 2)).
Defined.

Lemma distances_nondecreasing_from_zero_witness :
  (forall i j entry_i entry_j,
      (i <= j)%nat ->
      nth_error (values Sample.answer) i = Some entry_i ->
      nth_error (values Sample.answer) j = Some entry_j ->
      distance entry_i <= distance entry_j)
  /\ (Sample.fetched <> [] ->
      exists first,
        nth_error (values Sample.answer) 0 = Some first /\ distance first = 0).
Proof.
  exact (distances_nondecreasing_from_zero Sample.py_repr Sample.json_loads Sample.db
           Sample.req fresh_world Sample.answer _ Sample.wkt Sample.two Sample.fetched
           sample_run eq_refl eq_refl eq_refl eq_refl).
Defined.

(** The quotient and the product are rounded: for a length of 2 and 98
    samples, the entry of index 49 is at distance 0, where [2 / 98 * 49] is
    1 in exact arithmetic. *)
Example distance_is_rounded :
  spec_distance Sample.two 98 49 = Ok 0 /\ 2 * 49 / 98 = 1.
Proof. split; reflexivity. Qed.

Lemma no_sample_raises_witness :
  fst (process_linestring Sample.py_repr Sample.json_loads Sample.db_no_raster
         Sample.req fresh_world) = Raise ZeroDivisionError.
Proof.
  exact (no_sample_raises Sample.py_repr Sample.json_loads Sample.db_no_raster
           Sample.req fresh_world Sample.wkt Sample.two eq_refl eq_refl eq_refl).
Defined.

Lemma null_elevation_is_zero_witness :
  exists entry,
    nth_error (values Sample.answer) 1 = Some entry /\ elevation entry = 0.
Proof.
  destruct (proj2 (null_elevation_is_zero Sample.py_repr Sample.json_loads Sample.db
                     Sample.req fresh_world Sample.answer _ Sample.wkt Sample.fetched
                     sample_run eq_refl eq_refl)
              1%nat (None, Sample.point_text 1 0) eq_refl)
    as (entry & Hentry & Hnull & _).
  exists entry; split; [exact Hentry | exact (Hnull eq_refl)].
Defined.

Lemma geometry_is_fetched_coordinates_witness :
  exists entry,
    nth_error (values Sample.answer) 2 = Some entry
    /\ getitem_str (Sample.point_doc 2 0) "coordinates" = Ok (geometry entry).
Proof.
  destruct (geometry_is_fetched_coordinates Sample.py_repr Sample.json_loads Sample.db
              Sample.req fresh_world Sample.answer _ Sample.wkt Sample.fetched
              sample_run eq_refl eq_refl
              2%nat (Some 95, Sample.point_text 2 0) eq_refl)
    as (entry & doc & Hentry & Hdoc & Hg).
  exists entry; split; [exact Hentry|].
  vm_compute in Hdoc; inversion Hdoc; subst doc; exact Hg.
Defined.

(** ** Connections (C5) *)






Section Connections.
Variable py_repr : json -> string.
Variable json_loads : string -> pyres json.
Variable db : database.



End Connections.



(** ** ORDER BY and GROUP BY *)

Section OrderByFacts.
Context {A : Type}.
Variable key : A -> Z.

Lemma insert_by_perm x l : Permutation (x :: l) (insert_by key x l).
Proof.
  induction l as [|y l IH]; simpl; [apply Permutation_refl|].
  destruct (key x <? key y); [apply Permutation_refl|].
  eapply perm_trans; [apply perm_swap|].
  apply perm_skip; exact IH.
Qed.

Lemma order_by_perm l : Permutation l (order_by key l).
Proof.
  induction l as [|x l IH]; simpl; [apply perm_nil|].
  eapply perm_trans; [apply perm_skip; exact IH|].
  apply insert_by_perm.
Qed.

Lemma insert_by_sorted x l :
  StronglySorted (fun a b => key a <= key b) l ->
  StronglySorted (fun a b => key a <= key b) (insert_by key x l).
Proof.
  induction 1 as [|y l Hl IH Hy]; simpl.
  - constructor; constructor.
  - destruct (Z.ltb_spec (key x) (key y)) as [Hlt|Hge].
    + constructor; [constructor; assumption|].
      constructor; [lia|].
      eapply Forall_impl; [|exact Hy].
      simpl; intros; lia.
    + constructor; [exact IH|].
      apply (Permutation_Forall (insert_by_perm x l)).
      constructor; [lia | exact Hy].
Qed.

Lemma order_by_sorted l : StronglySorted (fun a b => key a <= key b) (order_by key l).
Proof.
  induction l as [|x l IH]; simpl; [constructor|].
  apply insert_by_sorted; exact IH.
Qed.

End OrderByFacts.

Lemma order_by_desc_sorted {A} (key : A -> Z) l :
  StronglySorted (fun a b => key b <= key a) (order_by_desc key l).
Proof.
  unfold order_by_desc.
  pose proof (order_by_sorted (fun x => - key x) l) as H.
  induction H as [|x l' _ IH Hx]; constructor; [exact IH|].
  eapply Forall_impl; [|exact Hx]; simpl; intros; lia.
Qed.

Lemma scalar_eqb_eq a b : scalar_eqb a b = true <-> a = b.
Proof.
  destruct a as [|x|x], b as [|y|y]; simpl; split; intros H;
    try discriminate; try reflexivity.
  - apply Z.eqb_eq in H; subst; reflexivity.
  - inversion H; apply Z.eqb_refl.
  - apply String.eqb_eq in H; subst; reflexivity.
  - inversion H; apply String.eqb_refl.
Qed.

Section DistinctFacts.
Context {K : Type}.
Variable eqb : K -> K -> bool.
Hypothesis eqb_eq : forall a b, eqb a b = true <-> a = b.

Lemma distinct_In k l : In k (distinct eqb l) <-> In k l.
Proof.
  induction l as [|k0 l IH]; simpl; [tauto|].
  rewrite filter_In, IH.
  split.
  - intros [H|[H _]]; auto.
  - intros [H|H]; [left; exact H|].
    destruct (eqb k0 k) eqn:E.
    + left; apply eqb_eq; exact E.
    + right; split; [exact H | reflexivity].
Qed.

Lemma distinct_NoDup l : NoDup (distinct eqb l).
Proof.
  induction l as [|k l IH]; simpl; constructor.
  - rewrite filter_In; intros [_ H].
    assert (E : eqb k k = true) by (apply eqb_eq; reflexivity).
    rewrite E in H; discriminate.
  - apply NoDup_filter; exact IH.
Qed.

End DistinctFacts.
(** ** The hydrography statement (C7) *)

Section StatementFacts.
Context {geom : Type} {engine : SpatialEngine geom}.
Variable GEO_COURS_EAU : list (cours_eau geom).
Variable GEO_CLC_2018 : list (clc_2018 geom).

Lemma classe_in_1_2_3_tier classe :
  classe_in_1_2_3 classe = true -> tier_1_2_3 classe.
Proof.
  unfold classe_in_1_2_3, tier_1_2_3; destruct classe as [c|]; [|discriminate].
  intros H.
  apply orb_true_iff in H; destruct H as [H|H];
    [apply orb_true_iff in H; destruct H as [H|H]|];
    apply Z.eqb_eq in H; subst; auto.
Qed.

Lemma hydro_select_classe line cd row :
  hydro_select line cd = Ok row -> hydro_classe row = CLASSE (fst cd).
Proof.
  unfold hydro_select, pyres_bind; destruct cd as [c d].
  destruct (st_linelocatepoint line d); [|discriminate].
  destruct (float8mul _ _); [|discriminate].
  destruct (float8_to_int4 _); [|discriminate].
  intros H; inversion H; reflexivity.
Qed.

Lemma hydro_statement_rows wkt rows :
  hydro_statement GEO_COURS_EAU wkt = Ok rows ->
  StronglySorted (fun a b => hydro_dist_m a <= hydro_dist_m b) rows
  /\ Forall (fun row => tier_1_2_3 (hydro_classe row)) rows.
Proof.
  unfold hydro_statement, pyres_bind.
  destruct (st_geomfromtext wkt 3857) as [line|]; [|discriminate].
  destruct (comprehension _ _) as [rows0|] eqn:Hrows0; [|discriminate].
  intros H; inversion H; subst; clear H.
  split; [apply order_by_sorted|].
  apply (Permutation_Forall (order_by_perm hydro_dist_m rows0)).
  eapply comprehension_Forall; [| |exact Hrows0].
  - intros cd row Hcd Hrow.
    rewrite (hydro_select_classe _ _ _ Hrow).
    apply classe_in_1_2_3_tier; exact Hcd.
  - apply Forall_forall; intros cd Hcd.
    apply filter_In in Hcd; tauto.
Qed.

(** ** The land-cover percentage statement (C8) *)

Lemma clc_key_eqb_eq a b : clc_key_eqb a b = true <-> a = b.
Proof.
  unfold clc_key_eqb; destruct a as [a1 a2], b as [b1 b2]; simpl.
  rewrite andb_true_iff, !scalar_eqb_eq.
  split; [intros [-> ->]; reflexivity | intros H; inversion H; auto].
Qed.

Lemma clc_from_In line cg :
  In cg (clc_from GEO_CLC_2018 line) -> In (fst cg) GEO_CLC_2018.
Proof.
  unfold clc_from; rewrite in_flat_map; intros (c & Hc & Hcg).
  destruct (clc_geom c) as [g|]; [|destruct Hcg].
  destruct (st_intersects line g); [|destruct Hcg].
  destruct Hcg as [<-|[]]; exact Hc.
Qed.

(** Every key of the GROUP BY has a joined row. *)
Lemma clc_group_inhabited line k :
  In k (distinct clc_key_eqb (map clc_key (clc_from GEO_CLC_2018 line))) ->
  filter (fun cg => clc_key_eqb k (clc_key cg)) (clc_from GEO_CLC_2018 line) <> [].
Proof.
  intros Hk; apply (proj1 (distinct_In _ clc_key_eqb_eq _ _)) in Hk.
  apply in_map_iff in Hk; destruct Hk as (cg & <- & Hcg).
  intros Hnil.
  assert (Hin : In cg (filter (fun cg' => clc_key_eqb (clc_key cg) (clc_key cg'))
                         (clc_from GEO_CLC_2018 line))).
  { apply filter_In; split; [exact Hcg | apply clc_key_eqb_eq; reflexivity]. }
  rewrite Hnil in Hin; destruct Hin.
Qed.

Lemma clc_pct_group_key line joined k row :
  clc_pct_group line joined k = Ok row ->
  (pct_code row, pct_description row) = k.
Proof.
  unfold clc_pct_group, pyres_bind.
  destruct (comprehension _ _) as [[|first others]|]; try discriminate.
  destruct (float8_accum first others); [|discriminate].
  destruct (float8_to_int4 _); [|discriminate].
  intros H; inversion H; simpl; destruct k; reflexivity.
Qed.

Lemma clc_pct_statement_rows wkt rows :
  clc_pct_statement GEO_CLC_2018 wkt = Ok rows ->
  StronglySorted (fun a b => pct_longueur_prct b <= pct_longueur_prct a) rows
  /\ NoDup (map (fun row => (pct_code row, pct_description row)) rows)
  /\ (forall row,
        In row rows ->
        exists line,
          st_geomfromtext wkt 3857 = Ok line
          /\ clc_pct_group line (clc_from GEO_CLC_2018 line)
               (pct_code row, pct_description row) = Ok row
          /\ exists c, In c GEO_CLC_2018
                       /\ CODE_CLC c = pct_code row
                       /\ DESCRIPTION_CLC c = pct_description row).
Proof.
  unfold clc_pct_statement, pyres_bind.
  destruct (st_geomfromtext wkt 3857) as [line|]; [|discriminate].
  cbv zeta.
  destruct (comprehension _ _) as [rows0|] eqn:Hrows0; [|discriminate].
  intros H; inversion H; subst; clear H.
  pose proof (order_by_perm (fun x => - pct_longueur_prct x) rows0) as Hperm.
  fold (order_by_desc pct_longueur_prct rows0) in Hperm.
  split; [apply order_by_desc_sorted|].
  split.
  - apply (Permutation_NoDup (Permutation_map _ Hperm)).
    rewrite (comprehension_map _ _ (fun k => k) _ _
               (clc_pct_group_key line (clc_from GEO_CLC_2018 line)) Hrows0).
    rewrite map_id; apply distinct_NoDup, clc_key_eqb_eq.
  - intros row Hrow.
    apply (Permutation_in _ (Permutation_sym Hperm)) in Hrow.
    destruct (comprehension_In _ _ _ _ Hrows0 Hrow) as (k & Hk & Hgroup).
    exists line; split; [reflexivity|].
    rewrite (clc_pct_group_key _ _ _ _ Hgroup).
    split; [exact Hgroup|].
    apply (proj1 (distinct_In _ clc_key_eqb_eq _ _)) in Hk.
    apply in_map_iff in Hk; destruct Hk as (cg & Hkey & Hcg).
    exists (fst cg); split; [eapply clc_from_In; exact Hcg|].
    pose proof (clc_pct_group_key _ _ _ _ Hgroup) as E.
    rewrite <- Hkey in E; unfold clc_key in E; inversion E; auto.
Qed.

(** With one description per code in the table, the codes of the rows
    are distinct too. *)
Lemma clc_pct_statement_codes wkt rows :
  (forall c c', In c GEO_CLC_2018 -> In c' GEO_CLC_2018 ->
                CODE_CLC c = CODE_CLC c' -> DESCRIPTION_CLC c = DESCRIPTION_CLC c') ->
  clc_pct_statement GEO_CLC_2018 wkt = Ok rows ->
  NoDup (map pct_code rows).
Proof.
  intros Hdep Hrows.
  destruct (clc_pct_statement_rows _ _ Hrows) as (_ & Hnodup & Hin).
  rewrite <- (map_map (fun row => (pct_code row, pct_description row)) fst).
  apply NoDup_map_NoDup_ForallPairs; [|exact Hnodup].
  intros k k' Hk Hk' E.
  apply in_map_iff in Hk; destruct Hk as (r & <- & Hr).
  apply in_map_iff in Hk'; destruct Hk' as (r' & <- & Hr').
  simpl in E.
  destruct (Hin r Hr) as (_ & _ & _ & c & Hc & Hcode & Hdesc).
  destruct (Hin r' Hr') as (_ & _ & _ & c' & Hc' & Hcode' & Hdesc').
  f_equal; [exact E|].
  rewrite <- Hdesc, <- Hdesc'; apply Hdep; [exact Hc | exact Hc'|].
  rewrite Hcode, Hcode'; exact E.
Qed.

End StatementFacts.

Section OrderedResponse.
Context {geom : Type} {engine : SpatialEngine geom}.
Variable GEO_COURS_EAU : list (cours_eau geom).
Variable GEO_CLC_2018 : list (clc_2018 geom).
Variable py_repr : json -> string.
Variable json_loads : string -> pyres json.
Variable db : database.

(** C7. When the database runs the hydrography statement of [main.py],
    the rows of [hydro_info] are in ascending order of [DIST_M] and each
    of them has a [CLASSE] of 1, 2 or 3. *)
Theorem hydro_info_ascending_tiers :
  forall req w resp w',
    (forall wkt, db_hydro db wkt = hydro_statement GEO_COURS_EAU wkt) ->
    process_linestring py_repr json_loads db req w = (Ok resp, w') ->
    StronglySorted (fun a b => hydro_dist_m a <= hydro_dist_m b) (hydro_info resp)
    /\ Forall (fun row => tier_1_2_3 (hydro_classe row)) (hydro_info resp).
Proof.
  intros req w resp w' Hdb Hrun.
  destruct (process_linestring_Ok _ _ _ _ _ _ _ Hrun)
    as (wkt & _ & _ & _ & _ & _ & _ & _ & _ & Hhydro & _).
  rewrite Hdb in Hhydro.
  exact (hydro_statement_rows _ _ _ Hhydro).
Qed.

(** C8, as the code has it.  When the database runs the land-cover
    percentage statement of [main.py], the rows of [clc_pct_info] are in
    descending order of [LONGUEUR_PRCT]; there is one row per pair of
    code and description met along the line (hence one per code when no
    code of the table has two descriptions); and the percentage of a row
    is the sum, cast to INT, of the shares of the polygons of its group,
    a share being the length of the polygon's intersection with the line
    divided by the length of the line, times 100. *)
Theorem clc_pct_info_descending_groups :
  forall req w resp w',
    (forall wkt, db_clc_pct db wkt = clc_pct_statement GEO_CLC_2018 wkt) ->
    process_linestring py_repr json_loads db req w = (Ok resp, w') ->
    StronglySorted (fun a b => pct_longueur_prct b <= pct_longueur_prct a)
      (clc_pct_info resp)
    /\ NoDup (map (fun row => (pct_code row, pct_description row)) (clc_pct_info resp))
    /\ ((forall c c', In c GEO_CLC_2018 -> In c' GEO_CLC_2018 ->
                      CODE_CLC c = CODE_CLC c' ->
                      DESCRIPTION_CLC c = DESCRIPTION_CLC c') ->
        NoDup (map pct_code (clc_pct_info resp)))
    /\ exists wkt line,
        request_wkt py_repr req = Ok wkt
        /\ st_geomfromtext wkt 3857 = Ok line
        /\ forall row,
             In row (clc_pct_info resp) ->
             clc_pct_group line (clc_from GEO_CLC_2018 line)
               (pct_code row, pct_description row) = Ok row.
Proof.
  intros req w resp w' Hdb Hrun.
  destruct (process_linestring_Ok _ _ _ _ _ _ _ Hrun)
    as (wkt & _ & _ & _ & Hwkt & _ & _ & _ & _ & _ & _ & Hpct & _).
  rewrite Hdb in Hpct.
  destruct (clc_pct_statement_rows _ _ _ Hpct) as (Hsorted & Hnodup & Hin).
  split; [exact Hsorted|].
  split; [exact Hnodup|].
  split; [intros Hdep; eapply clc_pct_statement_codes; eassumption|].
  unfold clc_pct_statement, pyres_bind in Hpct.
  destruct (st_geomfromtext wkt 3857) as [line|] eqn:Hline; [|discriminate].
  exists wkt, line; split; [exact Hwkt|]; split; [exact Hline|].
  intros row Hrow.
  destruct (Hin row Hrow) as (line' & Hline' & Hgroup & _).
  inversion Hline'; subst line'; exact Hgroup.
Qed.

End OrderedResponse.

Lemma segment_run : Segment.run = (Ok Segment.answer,
  {| opened := 5; live := []; trace := request_trace 0 Segment.wkt |}).
Proof. vm_compute. reflexivity. Qed.

Lemma hydro_info_ascending_tiers_witness :
  StronglySorted (fun a b => hydro_dist_m a <= hydro_dist_m b) Segment.hydro
  /\ Forall (fun row => tier_1_2_3 (hydro_classe row)) Segment.hydro.
Proof.
  exact (hydro_info_ascending_tiers (engine := Segment.engine) Segment.rivers
           Sample.py_repr Sample.json_loads
           Segment.db Segment.req fresh_world Segment.answer _
           (fun wkt => eq_refl) segment_run).
Defined.

Lemma clc_pct_info_descending_groups_witness :
  StronglySorted (fun a b => pct_longueur_prct b <= pct_longueur_prct a) Segment.pct
  /\ NoDup (map (fun row => (pct_code row, pct_description row)) Segment.pct).
Proof.
  destruct (clc_pct_info_descending_groups (engine := Segment.engine)
              Segment.land_cover Sample.py_repr
              Sample.json_loads Segment.db Segment.req fresh_world Segment.answer _
              (fun wkt => eq_refl) segment_run)
    as (Hsorted & Hnodup & _).
  split; [exact Hsorted | exact Hnodup].
Defined.

(** On the line engine, the request is answered with two rows for the code
    311: [clc_pct_info] does not hold one entry per cover code. *)
Lemma one_entry_per_code_counterexample :
  (forall wkt, db_clc_pct Segment.db wkt
               = clc_pct_statement (engine := Segment.engine) Segment.land_cover wkt)
  /\ fst Segment.run = Ok Segment.answer
  /\ ~ NoDup (map pct_code (clc_pct_info Segment.answer)).
Proof.
  split; [reflexivity|].
  split; [vm_compute; reflexivity|].
  simpl; intros H.
  inversion H as [|x l Hnotin _]; subst.
  apply Hnotin; left; reflexivity.
Qed.

(** * Further properties of the handler *)

(** ** The course of a request *)

Lemma after_queries_app ss ss' wkt w :
  after_queries (ss ++ ss') wkt w = after_queries ss' wkt (after_queries ss wkt w).
Proof. unfold after_queries; apply fold_left_app. Qed.

Lemma executed_app t t' : executed (t ++ t') = executed t ++ executed t'.
Proof. unfold executed; apply flat_map_app. Qed.


Lemma executed_after_query s wkt w :
  executed (trace (after_query s wkt w)) = executed (trace w) ++ [s].
Proof. rewrite after_query_trace, executed_app; reflexivity. Qed.

Lemma executed_after_failed_query s wkt w :
  executed (trace (after_failed_query s wkt w)) = executed (trace w) ++ [s].
Proof. rewrite after_failed_query_trace, executed_app; reflexivity. Qed.


Section Course.
Variable py_repr : json -> string.
Variable json_loads : string -> pyres json.
Variable db : database.

(** The handler, stage by stage: each stage runs in the world the stages
    before it left, and the first exception ends the request there. *)
Lemma process_linestring_stages req w :
  process_linestring py_repr json_loads db req w =
  match request_wkt py_repr req with
  | Raise e => (Raise e, w)
  | Ok wkt =>
      let w1 := after_query LengthStatement wkt w in
      match total_length_of db wkt with
      | Raise e => (Raise e, after_failed_query LengthStatement wkt w)
      | Ok total_length =>
          let w2 := after_query ElevationStatement wkt w1 in
          match db_elevation db wkt with
          | Raise e => (Raise e, after_failed_query ElevationStatement wkt w1)
          | Ok fetched =>
              match profile_of json_loads total_length fetched with
              | Raise e => (Raise e, w2)
              | Ok entries =>
                  let w3 := after_query HydroStatement wkt w2 in
                  match db_hydro db wkt with
                  | Raise e => (Raise e, after_failed_query HydroStatement wkt w2)
                  | Ok hydro =>
                      let w4 := after_query ClcStatement wkt w3 in
                      match db_clc db wkt with
                      | Raise e => (Raise e, after_failed_query ClcStatement wkt w3)
                      | Ok clc =>
                          let w5 := after_query ClcPctStatement wkt w4 in
                          match db_clc_pct db wkt with
                          | Raise e =>
                              (Raise e, after_failed_query ClcPctStatement wkt w4)
                          | Ok pct =>
                              (Ok {| values := entries;
                                     hydro_info := hydro;
                                     clc_info := clc;
                                     clc_pct_info := pct |}, w5)
                          end
                      end
                  end
              end
          end
      end
  end.
Proof.
  unfold process_linestring, request_wkt, profile_of, io_bind, lift, io_ret, pyres_bind.
  destruct (request_json req) as [data|]; cbv beta iota; [|reflexivity].
  destruct (build_wkt py_repr data) as [wkt|]; cbv beta iota zeta; [|reflexivity].
  rewrite run_calculate_linestring_length.
  destruct (total_length_of db wkt) as [total_length|];
    cbv beta iota delta [after_call]; [|reflexivity].
  rewrite run_fetch_elevation_data.
  destruct (db_elevation db wkt) as [fetched|];
    cbv beta iota zeta delta [after_call]; [|reflexivity].
  destruct (PyFloat.div_int _ _) as [segment_length|]; cbv beta iota; [|reflexivity].
  destruct (comprehension _ _) as [entries|]; cbv beta iota; [|reflexivity].
  rewrite run_fetch_hydrographic_info.
  destruct (db_hydro db wkt) as [hydro|];
    cbv beta iota delta [after_call]; [|reflexivity].
  rewrite run_fetch_clc_data.
  destruct (db_clc db wkt) as [clc|];
    cbv beta iota delta [after_call]; [|reflexivity].
  rewrite run_calculate_clc_percentage.
  destruct (db_clc_pct db wkt) as [pct|]; reflexivity.
Qed.



(** A request whose body has no WKT text (it is not JSON, not an object,
    lacks [coords], or holds an entry without two elements) is refused
    with the exception met on the way, before anything is asked of the
    database. *)
Theorem unreadable_request_leaves_database_alone :
  forall req w e,
    request_wkt py_repr req = Raise e ->
    process_linestring py_repr json_loads db req w = (Raise e, w).
Proof.
  intros req w e H; rewrite process_linestring_stages, H; reflexivity.
Qed.

(** A body that is an object without the key [coords] raises [KeyError]; a
    body that is not an object (an array, a string, a number, [null])
    raises [TypeError]. *)
Theorem body_without_coords_raises :
  forall req w data,
    request_json req = Ok data ->
    (forall members,
        data = JDict members -> dict_get members "coords" = None ->
        process_linestring py_repr json_loads db req w = (Raise KeyError, w))
    /\ ((forall members, data <> JDict members) ->
        process_linestring py_repr json_loads db req w = (Raise TypeError, w)).
Proof.
  intros req w data Hdata; split.
  - intros members -> Hnone.
    apply unreadable_request_leaves_database_alone.
    unfold request_wkt, build_wkt; rewrite Hdata; simpl; rewrite Hnone; reflexivity.
  - intros Hnot.
    apply unreadable_request_leaves_database_alone.
    unfold request_wkt, build_wkt; rewrite Hdata; simpl.
    destruct data; try reflexivity.
    exfalso; eapply Hnot; reflexivity.
Qed.

Lemma comprehension_first_error {A B} (f : A -> pyres B) good bad rest e :
  Forall (fun x => exists y, f x = Ok y) good ->
  f bad = Raise e ->
  comprehension f (good ++ bad :: rest) = Raise e.
Proof.
  intros Hgood Hbad; induction Hgood as [|x good [y Hy] _ IH]; simpl.
  - rewrite Hbad; reflexivity.
  - rewrite Hy, IH; reflexivity.
Qed.

(** The entries of [coords] are read in order: when every entry before
    some entry has two elements and that entry is a list of fewer than
    two, the handler raises [IndexError], whatever follows, and asks
    nothing of the database. *)
Theorem short_entry_raises :
  forall req w data good short rest,
    request_json req = Ok data ->
    getitem_str data "coords" = Ok (JList (good ++ JList short :: rest)) ->
    Forall (fun c => exists a b, getitem_int c 0 = Ok a /\ getitem_int c 1 = Ok b) good ->
    (List.length short < 2)%nat ->
    process_linestring py_repr json_loads db req w = (Raise IndexError, w).
Proof.
  intros req w data good short rest Hdata Hcoords Hgood Hshort.
  apply unreadable_request_leaves_database_alone.
  unfold request_wkt, build_wkt; rewrite Hdata; simpl; rewrite Hcoords; simpl.
  rewrite (comprehension_first_error (coord_text py_repr) good (JList short) rest IndexError);
    [reflexivity| |].
  - eapply Forall_impl; [|exact Hgood].
    intros c (a & b & H0 & H1); eexists; apply coord_text_pair; eassumption.
  - unfold coord_text; destruct short as [|x [|y short]]; simpl in *; try reflexivity; lia.
Qed.

(** An error of the database ends the request with that error, and the
    statements after the failing one are never run: the statements
    executed are those of the query functions up to and including the
    failing one.  The same holds when the length statement returns no row
    ([IndexError]). *)
Theorem database_error_ends_request :
  forall req w wkt,
    request_wkt py_repr req = Ok wkt ->
    let run := process_linestring py_repr json_loads db req w in
    let ends e k :=
      fst run = Raise e
      /\ executed (trace (snd run))
         = executed (trace w) ++ firstn k request_statements in
    (forall e, db_length db wkt = Raise e -> ends e 1%nat)
    /\ (db_length db wkt = Ok [] -> ends IndexError 1%nat)
    /\ (forall total_length e,
           total_length_of db wkt = Ok total_length ->
           db_elevation db wkt = Raise e -> ends e 2%nat)
    /\ (forall total_length fetched entries,
           total_length_of db wkt = Ok total_length ->
           db_elevation db wkt = Ok fetched ->
           profile_of json_loads total_length fetched = Ok entries ->
           (forall e, db_hydro db wkt = Raise e -> ends e 3%nat)
           /\ (forall hydro e,
                  db_hydro db wkt = Ok hydro ->
                  db_clc db wkt = Raise e -> ends e 4%nat)
           /\ (forall hydro clc e,
                  db_hydro db wkt = Ok hydro ->
                  db_clc db wkt = Ok clc ->
                  db_clc_pct db wkt = Raise e -> ends e 5%nat)).
Proof.
  intros req w wkt Hwkt; cbv zeta.
  rewrite process_linestring_stages, Hwkt; cbv zeta.
  split; [|split; [|split; [|]]].
  - intros e H; unfold total_length_of; rewrite H; simpl fst; simpl snd.
    rewrite executed_after_failed_query; split; reflexivity.
  - intros H; unfold total_length_of; rewrite H; simpl fst; simpl snd.
    rewrite executed_after_failed_query; split; reflexivity.
  - intros L e HL H; rewrite HL, H; simpl fst; simpl snd.
    rewrite executed_after_failed_query, executed_after_query, <- app_assoc.
    split; reflexivity.
  - intros L fetched entries HL Hf Hp; rewrite HL, Hf, Hp.
    split; [|split].
    + intros e H; rewrite H; simpl fst; simpl snd.
      rewrite executed_after_failed_query; repeat rewrite executed_after_query.
      repeat rewrite <- app_assoc; split; reflexivity.
    + intros hydro e Hh H; rewrite Hh, H; simpl fst; simpl snd.
      rewrite executed_after_failed_query; repeat rewrite executed_after_query.
      repeat rewrite <- app_assoc; split; reflexivity.
    + intros hydro clc e Hh Hc H; rewrite Hh, Hc, H; simpl fst; simpl snd.
      rewrite executed_after_failed_query; repeat rewrite executed_after_query.
      repeat rewrite <- app_assoc; split; reflexivity.
Qed.

(** The three fields beside [values] are the rows of their statement as
    fetched for the WKT text of the request: nothing is filtered,
    reordered or reshaped on the way. *)
Theorem info_fields_are_fetched_rows :
  forall req w resp w' wkt,
    process_linestring py_repr json_loads db req w = (Ok resp, w') ->
    request_wkt py_repr req = Ok wkt ->
    db_hydro db wkt = Ok (hydro_info resp)
    /\ db_clc db wkt = Ok (clc_info resp)
    /\ db_clc_pct db wkt = Ok (clc_pct_info resp).
Proof.
  intros req w resp w' wkt Hrun Hwkt.
  destruct (process_linestring_Ok _ _ _ _ _ _ _ Hrun)
    as (wkt' & _ & _ & _ & Hwkt' & _ & _ & _ & _ & Hh & Hc & Hp & _).
  rewrite Hwkt in Hwkt'; inversion Hwkt'; subst wkt'; auto.
Qed.

End Course.

(** The profile depends on the length and the elevation statements only:
    two databases that answer these two alike give the same [values],
    whatever their hydrography and land-cover statements return. *)
Theorem profile_ignores_other_statements :
  forall py_repr json_loads db db' req w1 w2 resp resp' w1' w2' wkt,
    request_wkt py_repr req = Ok wkt ->
    db_length db wkt = db_length db' wkt ->
    db_elevation db wkt = db_elevation db' wkt ->
    process_linestring py_repr json_loads db req w1 = (Ok resp, w1') ->
    process_linestring py_repr json_loads db' req w2 = (Ok resp', w2') ->
    values resp = values resp'.
Proof.
  intros py_repr json_loads db db' req w1 w2 resp resp' w1' w2' wkt
    Hwkt Hlen Helev Hrun Hrun'.
  destruct (process_linestring_Ok _ _ _ _ _ _ _ Hrun)
    as (wkt1 & L & fetched & seg & Hwkt1 & HL & Hf & Hseg & Hvals & _).
  destruct (process_linestring_Ok _ _ _ _ _ _ _ Hrun')
    as (wkt2 & L' & fetched' & seg' & Hwkt2 & HL' & Hf' & Hseg' & Hvals' & _).
  rewrite Hwkt in Hwkt1, Hwkt2; inversion Hwkt1; inversion Hwkt2; subst wkt1 wkt2.
  unfold total_length_of in HL, HL'; rewrite <- Hlen in HL'.
  rewrite HL in HL'; inversion HL'; subst L'.
  rewrite <- Helev, Hf in Hf'; inversion Hf'; subst fetched'.
  rewrite Hseg in Hseg'; inversion Hseg'; subst seg'.
  rewrite Hvals in Hvals'; inversion Hvals'; reflexivity.
Qed.

(** ** No check on the number of points *)

Lemma after_queries_trace ss wkt w :
  exists more, trace (after_queries ss wkt w) = trace w ++ more.
Proof.
  revert w; induction ss as [|s ss IH]; intros w.
  - exists []; rewrite app_nil_r; reflexivity.
  - destruct (IH (after_query s wkt w)) as [more Hmore].
    exists (query_trace (opened w) s wkt ++ more).
    unfold after_queries in *; simpl; rewrite Hmore, after_query_trace, <- app_assoc.
    reflexivity.
Qed.

Lemma trace_after_query_extends t s wkt w :
  (exists more, trace w = t ++ more) ->
  exists more, trace (after_query s wkt w) = t ++ more.
Proof.
  intros [more H].
  exists (more ++ query_trace (opened w) s wkt).
  rewrite after_query_trace, H, <- app_assoc; reflexivity.
Qed.

Lemma trace_after_failed_query_extends t s wkt w :
  (exists more, trace w = t ++ more) ->
  exists more, trace (after_failed_query s wkt w) = t ++ more.
Proof.
  intros [more H].
  exists (more ++ failed_query_trace (opened w) s wkt).
  rewrite after_failed_query_trace, H, <- app_assoc; reflexivity.
Qed.

Section Unvalidated.
Variable py_repr : json -> string.
Variable json_loads : string -> pyres json.
Variable db : database.

Lemma build_wkt_pairs data coords items pairs :
  getitem_str data "coords" = Ok coords ->
  py_iter coords = Ok items ->
  Forall2 (fun item p => getitem_int item 0 = Ok (fst p)
                         /\ getitem_int item 1 = Ok (snd p)) items pairs ->
  build_wkt py_repr data
  = Ok (spec_wkt (map (fun p => (py_format py_repr (fst p),
                                 py_format py_repr (snd p))) pairs)).
Proof.
  intros Hcoords Hitems Hpairs.
  unfold build_wkt, spec_wkt; rewrite Hcoords; simpl; rewrite Hitems; simpl.
  rewrite (comprehension_Forall2 (coord_text py_repr) items
             (map (fun p => (py_format py_repr (fst p) ++ " "
                             ++ py_format py_repr (snd p))%string) pairs)).
  - simpl; rewrite map_map; reflexivity.
  - clear Hitems; induction Hpairs as [|item p items pairs [H0 H1] _ IH]; simpl;
      constructor; [apply coord_text_pair; assumption | exact IH].
Qed.

(** The handler refuses no [coords] list for its length: when every entry
    has two elements, be there many entries, one or none, the WKT text is
    built and the length statement is run with it on a new connection.  For
    no entry the text is [LINESTRING()]. *)
Theorem any_number_of_points_is_sent :
  forall req w data coords items pairs,
    request_json req = Ok data ->
    getitem_str data "coords" = Ok coords ->
    py_iter coords = Ok items ->
    Forall2 (fun item p => getitem_int item 0 = Ok (fst p)
                           /\ getitem_int item 1 = Ok (snd p)) items pairs ->
    let wkt := spec_wkt (map (fun p => (py_format py_repr (fst p),
                                        py_format py_repr (snd p))) pairs) in
    (pairs = [] -> wkt = "LINESTRING()"%string)
    /\ exists more,
         trace (snd (process_linestring py_repr json_loads db req w))
         = trace w
           ++ Connect (opened w) :: Execute (opened w) LengthStatement wkt :: more.
Proof.
  intros req w data coords items pairs Hdata Hcoords Hitems Hpairs; cbv zeta.
  split; [intros ->; reflexivity|].
  set (wkt := spec_wkt _).
  assert (Hwkt : request_wkt py_repr req = Ok wkt).
  { unfold request_wkt; rewrite Hdata; simpl.
    apply (build_wkt_pairs data coords items pairs); assumption. }
  pose (sent := trace w ++ [Connect (opened w); Execute (opened w) LengthStatement wkt]).
  assert (H1 : exists more, trace (after_query LengthStatement wkt w) = sent ++ more).
  { exists [Commit (opened w); Close (opened w)].
    unfold sent, after_query; simpl; repeat rewrite <- app_assoc; reflexivity. }
  assert (H : exists more,
             trace (snd (process_linestring py_repr json_loads db req w))
             = sent ++ more).
  { rewrite process_linestring_stages, Hwkt; cbv zeta.
    destruct (total_length_of db wkt).
    2:{ exists [Rollback (opened w)].
        unfold sent, after_failed_query; simpl; repeat rewrite <- app_assoc.
        reflexivity. }
    destruct (db_elevation db wkt);
      [|simpl snd; auto using trace_after_failed_query_extends].
    destruct (profile_of _ _ _);
      [|simpl snd; auto using trace_after_query_extends].
    destruct (db_hydro db wkt);
      [|simpl snd;
        auto using trace_after_failed_query_extends, trace_after_query_extends].
    destruct (db_clc db wkt);
      [|simpl snd;
        auto 6 using trace_after_failed_query_extends, trace_after_query_extends].
    destruct (db_clc_pct db wkt); simpl snd;
      auto 7 using trace_after_failed_query_extends, trace_after_query_extends. }
  destruct H as [more ->].
  exists more; unfold sent; rewrite <- app_assoc; reflexivity.
Qed.

End Unvalidated.

(** ** Degenerate total lengths *)

(** [float(n)] is not zero for a positive int. *)
Lemma of_int_positive n y :
  0 < n -> PyFloat.of_int n = Ok y -> exists m e, y = S754_finite false m e.
Proof.
  intros Hn Hy.
  assert (H1 : PyFloat.of_int 1 = Ok (S754_finite false 4503599627370496 (-52)))
    by reflexivity.
  pose proof (of_int_mono 1 n _ y ltac:(lia) H1 Hy) as Hle.
  pose proof (of_int_finite n y Hy ltac:(lia)) as Hfin.
  pose proof (of_int_unsigned n y ltac:(lia) Hy) as Hun.
  destruct y as [s|s| |s m e].
  - exfalso; revert Hle; vm_compute; intros H; apply H; reflexivity.
  - destruct Hfin.
  - destruct Hfin.
  - simpl in Hun; subst s; exists m, e; reflexivity.
Qed.

Lemma of_int_nat_finite_or_zero (i : nat) y :
  PyFloat.of_int (Z.of_nat i) = Ok y ->
  exists s, y = S754_zero s \/ exists m e, y = S754_finite s m e.
Proof.
  intros Hy; pose proof (of_int_finite _ y Hy (Nat2Z.is_nonneg i)) as Hfin.
  destruct y as [s|s| |s m e]; simpl in Hfin; try contradiction.
  - exists s; left; reflexivity.
  - exists s; right; exists m, e; reflexivity.
Qed.

Section Degenerate.
Variable py_repr : json -> string.
Variable json_loads : string -> pyres json.
Variable db : database.

(** A line of length zero gives a flat profile: every entry of an answered
    request is at distance 0. *)
Theorem zero_length_distances :
  forall req w resp w' wkt s,
    process_linestring py_repr json_loads db req w = (Ok resp, w') ->
    request_wkt py_repr req = Ok wkt ->
    total_length_of db wkt = Ok (S754_zero s) ->
    Forall (fun entry => distance entry = 0) (values resp).
Proof.
  intros req w resp w' wkt s Hrun Hwkt HL.
  destruct (process_linestring_Ok _ _ _ _ _ _ _ Hrun)
    as (wkt' & L & fetched & seg & Hwkt' & HL' & _ & Hseg & Hvals & _).
  rewrite Hwkt in Hwkt'; inversion Hwkt'; subst wkt'.
  rewrite HL in HL'; inversion HL'; subst L.
  assert (Hzero : exists s', seg = S754_zero s').
  { unfold PyFloat.div_int, pyres_bind in Hseg.
    destruct (PyFloat.of_int _) as [y|] eqn:Hy; [|discriminate].
    destruct (of_int_nat_finite_or_zero _ y Hy) as (sy & [->|(m & e & ->)]);
      simpl in Hseg; [discriminate|].
    inversion Hseg; eexists; reflexivity. }
  destruct Hzero as [s' ->].
  apply Forall_forall; intros entry Hentry.
  destruct (comprehension_In _ _ _ _ Hvals Hentry) as ([i point] & _ & Hf).
  destruct (profile_entry_Ok _ _ _ _ _ Hf) as (scaled & _ & Hmul & Hint & _).
  unfold PyFloat.mul_int, pyres_bind in Hmul.
  destruct (PyFloat.of_int _) as [y|] eqn:Hy; [|discriminate].
  destruct (of_int_nat_finite_or_zero _ y Hy) as (sy & [->|(m & e & ->)]);
    simpl in Hmul; inversion Hmul; subst scaled; simpl in Hint;
    inversion Hint; reflexivity.
Qed.

(** A total length that is NaN or infinite never reaches the response: as
    soon as a row was fetched, the first entry multiplies it by 0, which is
    NaN, and [int] raises [ValueError]; the three statements after the
    elevation statement are not run. *)
Theorem non_finite_length_raises :
  forall req w wkt total_length fetched divisor,
    request_wkt py_repr req = Ok wkt ->
    total_length_of db wkt = Ok total_length ->
    is_nan_or_infinite total_length = true ->
    db_elevation db wkt = Ok fetched ->
    fetched <> [] ->
    PyFloat.of_int (Z.of_nat (List.length fetched)) = Ok divisor ->
    process_linestring py_repr json_loads db req w
    = (Raise ValueError, after_queries [LengthStatement; ElevationStatement] wkt w).
Proof.
  intros req w wkt L fetched y Hwkt HL Hbad Hrows Hne Hy.
  rewrite process_linestring_stages, Hwkt; cbv zeta; rewrite HL, Hrows.
  assert (Hprofile : profile_of json_loads L fetched = Raise ValueError).
  { unfold profile_of, pyres_bind, PyFloat.div_int; rewrite length_map, Hy.
    destruct (of_int_positive (Z.of_nat (List.length fetched)) y) as (m & e & ->);
      [destruct fetched; [contradiction | simpl List.length; lia] | exact Hy |].
    simpl PyFloat.is_zero; cbv iota.
    destruct fetched as [|row fetched]; [contradiction|].
    unfold enumerate; simpl.
    destruct L as [sl|sl| |sl ml el]; try discriminate; reflexivity. }
  rewrite Hprofile; reflexivity.
Qed.

End Degenerate.

(** ** What the WKT text does not check *)

Lemma string_app_assoc (a b c : string) : ((a ++ b) ++ c = a ++ (b ++ c))%string.
Proof. induction a as [|x a IH]; simpl; [reflexivity | rewrite IH; reflexivity]. Qed.

Section Unchecked.
Variable py_repr : json -> string.

(** Coordinates are printed, not checked to be numbers: a string is copied
    into the WKT text as it is.  So one entry whose first element is the
    string [x1 y1, x2] stands for two points: the request with this entry
    gets the WKT text, and hence the response, of the request with the two
    entries [[x1, y1]] and [[x2, y2]]. *)
Theorem string_coordinate_is_spliced :
  forall a b c d,
    let text := (py_format py_repr a ++ " " ++ py_format py_repr b ++ ", "
                 ++ py_format py_repr c)%string in
    let one := JDict [("coords"%string, JList [JList [JStr text; d]])] in
    let two := JDict [("coords"%string, JList [JList [a; b]; JList [c; d]])] in
    build_wkt py_repr one = build_wkt py_repr two
    /\ forall json_loads db w,
         process_linestring py_repr json_loads db {| request_json := Ok one |} w
         = process_linestring py_repr json_loads db {| request_json := Ok two |} w.
Proof.
  intros a b c d; cbv zeta.
  match goal with |- ?l = ?r /\ _ => assert (E : l = r) end.
  { unfold build_wkt, coord_text; simpl.
    repeat (progress (repeat rewrite string_app_assoc; simpl)); reflexivity. }
  split; [exact E|].
  intros json_loads db w; apply process_linestring_wkt.
  unfold request_wkt; simpl; exact E.
Qed.

End Unchecked.

(** ** What the two statements select *)

Lemma comprehension_In_input {A B} (f : A -> pyres B) xs ys x :
  comprehension f xs = Ok ys -> In x xs -> exists y, In y ys /\ f x = Ok y.
Proof.
  revert ys; induction xs as [|x0 xs IH]; intros ys H Hx; [destruct Hx|].
  simpl in H.
  destruct (f x0) as [y0|] eqn:Hy0; simpl in H; [|discriminate].
  destruct (comprehension f xs) as [ys'|]; simpl in H; [|discriminate].
  inversion H; subst; destruct Hx as [->|Hx].
  - exists y0; split; [left; reflexivity | exact Hy0].
  - destruct (IH ys' eq_refl Hx) as (y & Hy & Hf).
    exists y; split; [right; exact Hy | exact Hf].
Qed.

Section Selected.
Context {geom : Type} {engine : SpatialEngine geom}.
Variable GEO_COURS_EAU : list (cours_eau geom).
Variable GEO_CLC_2018 : list (clc_2018 geom).

Lemma hydro_from_In line c d :
  In (c, d) (hydro_from GEO_COURS_EAU line) <->
  In c GEO_COURS_EAU
  /\ exists g, cours_eau_geom c = Some g
               /\ st_crosses g line = true
               /\ In d (st_dump (st_intersection g line)).
Proof.
  unfold hydro_from; rewrite in_flat_map; split.
  - intros (c' & Hc' & Hin).
    destruct (cours_eau_geom c') as [g|] eqn:Hg; [|destruct Hin].
    destruct (st_crosses g line) eqn:Hx; [|destruct Hin].
    apply in_map_iff in Hin; destruct Hin as (d' & E & Hd'); inversion E; subst.
    split; [exact Hc'|]; exists g; auto.
  - intros (Hc & g & Hg & Hx & Hd).
    exists c; split; [exact Hc|].
    rewrite Hg, Hx; apply in_map; exact Hd.
Qed.

Lemma tier_classe_in_1_2_3 classe :
  tier_1_2_3 classe -> classe_in_1_2_3 classe = true.
Proof. intros [->|[->| ->]]; reflexivity. Qed.

(** The hydrography statement returns one row per piece of the intersection
    of the line with a river of tier 1, 2 or 3 that crosses it, neither
    more nor fewer: its rows are, up to their order, the select list
    evaluated on each such piece in turn.  So every row comes from a piece
    and carries the name and the class of its river and the distance of
    its piece, and every piece has its row.  A river with no geometry,
    with no class or that does not cross the line gives no row. *)
Theorem hydro_rows_are_crossings :
  forall wkt rows,
    hydro_statement GEO_COURS_EAU wkt = Ok rows ->
    exists line selected,
      st_geomfromtext wkt 3857 = Ok line
      /\ comprehension (hydro_select line)
           (filter (fun cd => classe_in_1_2_3 (CLASSE (fst cd)))
              (hydro_from GEO_COURS_EAU line)) = Ok selected
      /\ Permutation selected rows
      /\ List.length rows
         = List.length (filter (fun cd => classe_in_1_2_3 (CLASSE (fst cd)))
                          (hydro_from GEO_COURS_EAU line))
      /\ (forall row,
             In row rows ->
             exists c g d,
               In c GEO_COURS_EAU
               /\ cours_eau_geom c = Some g
               /\ st_crosses g line = true
               /\ In d (st_dump (st_intersection g line))
               /\ tier_1_2_3 (CLASSE c)
               /\ hydro_select line (c, d) = Ok row
               /\ hydro_name row = NOMENTITEH c
               /\ hydro_classe row = CLASSE c)
      /\ (forall c g d,
             In c GEO_COURS_EAU ->
             cours_eau_geom c = Some g ->
             st_crosses g line = true ->
             In d (st_dump (st_intersection g line)) ->
             tier_1_2_3 (CLASSE c) ->
             exists row, In row rows /\ hydro_select line (c, d) = Ok row).
Proof.
  intros wkt rows; unfold hydro_statement, pyres_bind.
  destruct (st_geomfromtext wkt 3857) as [line|]; [|discriminate].
  destruct (comprehension _ _) as [rows0|] eqn:Hrows0; [|discriminate].
  intros H; inversion H; subst; clear H.
  pose proof (order_by_perm hydro_dist_m rows0) as Hperm.
  exists line, rows0; split; [reflexivity|].
  split; [exact Hrows0|]; split; [exact Hperm|]; split; [|split].
  - rewrite <- (Permutation_length Hperm).
    exact (comprehension_length _ _ _ Hrows0).
  - intros row Hrow.
    apply (Permutation_in _ (Permutation_sym Hperm)) in Hrow.
    destruct (comprehension_In _ _ _ _ Hrows0 Hrow) as ([c d] & Hcd & Hsel).
    apply filter_In in Hcd; destruct Hcd as [Hfrom Htier].
    apply hydro_from_In in Hfrom; destruct Hfrom as (Hc & g & Hg & Hx & Hd).
    exists c, g, d; repeat split; try assumption.
    + apply classe_in_1_2_3_tier; exact Htier.
    + unfold hydro_select, pyres_bind in Hsel.
      destruct (st_linelocatepoint line d); [|discriminate].
      destruct (float8mul _ _); [|discriminate].
      destruct (float8_to_int4 _); [|discriminate].
      inversion Hsel; reflexivity.
    + exact (hydro_select_classe _ _ _ Hsel).
  - intros c g d Hc Hg Hx Hd Htier.
    assert (Hin : In (c, d)
                    (filter (fun cd => classe_in_1_2_3 (CLASSE (fst cd)))
                       (hydro_from GEO_COURS_EAU line))).
    { apply filter_In; split; [|apply tier_classe_in_1_2_3; exact Htier].
      apply hydro_from_In; split; [exact Hc|]; exists g; auto. }
    destruct (comprehension_In_input _ _ _ _ Hrows0 Hin) as (row & Hrow & Hsel).
    exists row; split; [|exact Hsel].
    exact (Permutation_in _ Hperm Hrow).
Qed.

Lemma clc_from_In_iff line c g :
  In (c, g) (clc_from GEO_CLC_2018 line) <->
  In c GEO_CLC_2018 /\ clc_geom c = Some g /\ st_intersects line g = true.
Proof.
  unfold clc_from; rewrite in_flat_map; split.
  - intros (c' & Hc' & Hin).
    destruct (clc_geom c') as [g'|] eqn:Hg; [|destruct Hin].
    destruct (st_intersects line g') eqn:Hx; [|destruct Hin].
    destruct Hin as [E|[]]; inversion E; subst; auto.
  - intros (Hc & Hg & Hx).
    exists c; split; [exact Hc|].
    rewrite Hg, Hx; left; reflexivity.
Qed.

(** The land-cover percentage statement has a row for a code and a
    description exactly when a polygon of the table carries them and
    intersects the line: no cover met along the line is dropped, none is
    made up. *)
Theorem clc_pct_rows_are_covers_met :
  forall wkt rows line,
    clc_pct_statement GEO_CLC_2018 wkt = Ok rows ->
    st_geomfromtext wkt 3857 = Ok line ->
    forall code description,
      (exists row, In row rows /\ pct_code row = code
                   /\ pct_description row = description)
      <->
      (exists c g, In c GEO_CLC_2018 /\ clc_geom c = Some g
                   /\ st_intersects line g = true
                   /\ CODE_CLC c = code /\ DESCRIPTION_CLC c = description).
Proof.
  intros wkt rows line Hst Hline code description.
  unfold clc_pct_statement, pyres_bind in Hst; rewrite Hline in Hst; cbv zeta in Hst.
  destruct (comprehension _ _) as [rows0|] eqn:Hrows0; [|discriminate].
  inversion Hst; subst; clear Hst.
  pose proof (order_by_perm (fun x => - pct_longueur_prct x) rows0) as Hperm.
  fold (order_by_desc pct_longueur_prct rows0) in Hperm.
  split.
  - intros (row & Hrow & Hcode & Hdesc).
    apply (Permutation_in _ (Permutation_sym Hperm)) in Hrow.
    destruct (comprehension_In _ _ _ _ Hrows0 Hrow) as (k & Hk & Hgroup).
    apply (proj1 (distinct_In _ clc_key_eqb_eq _ _)) in Hk.
    apply in_map_iff in Hk; destruct Hk as ([c g] & Hkey & Hcg).
    apply clc_from_In_iff in Hcg; destruct Hcg as (Hc & Hg & Hx).
    pose proof (clc_pct_group_key _ _ _ _ Hgroup) as E.
    rewrite <- Hkey in E; unfold clc_key in E; simpl in E; inversion E.
    exists c, g; repeat split; try assumption; congruence.
  - intros (c & g & Hc & Hg & Hx & Hcode & Hdesc).
    assert (Hk : In (clc_key (c, g))
                   (distinct clc_key_eqb (map clc_key (clc_from GEO_CLC_2018 line)))).
    { apply (distinct_In _ clc_key_eqb_eq), in_map, clc_from_In_iff; auto. }
    destruct (comprehension_In_input _ _ _ _ Hrows0 Hk) as (row & Hrow & Hgroup).
    exists row; split; [exact (Permutation_in _ Hperm Hrow)|].
    pose proof (clc_pct_group_key _ _ _ _ Hgroup) as E.
    unfold clc_key in E; simpl in E; inversion E; subst; auto.
Qed.

End Selected.

(** ** The elevation statement *)

Lemma float8_0_01_is_nearest :
  float8_0_01
  = SFdiv PyFloat.prec PyFloat.emax
      (binary_normalize PyFloat.prec PyFloat.emax 1 0 false)
      (binary_normalize PyFloat.prec PyFloat.emax 100 0 false).
Proof. reflexivity. Qed.

Lemma list_sum_map_add {A} (f g : A -> nat) l :
  list_sum (map (fun x => (f x + g x)%nat) l)
  = (list_sum (map f l) + list_sum (map g l))%nat.
Proof. induction l as [|x l IH]; simpl; [reflexivity | rewrite IH; lia]. Qed.

Lemma list_sum_map_const_1 {A} (f : A -> nat) l :
  (forall x, In x l -> f x = 1%nat) -> list_sum (map f l) = List.length l.
Proof.
  induction l as [|x l IH]; intros H; simpl; [reflexivity|].
  rewrite (H x (or_introl eq_refl)), IH; [reflexivity|].
  intros y Hy; apply H; right; exact Hy.
Qed.

Lemma list_sum_map_const_0 {A} (f : A -> nat) l :
  (forall x, In x l -> f x = 0%nat) -> list_sum (map f l) = 0%nat.
Proof.
  induction l as [|x l IH]; intros H; simpl; [reflexivity|].
  rewrite (H x (or_introl eq_refl)), IH; [reflexivity|].
  intros y Hy; apply H; right; exact Hy.
Qed.

Lemma list_sum_map_at_least_1 {A} (f : A -> nat) l :
  (forall x, In x l -> (1 <= f x)%nat) ->
  (List.length l <= list_sum (map f l))%nat
  /\ (list_sum (map f l) = List.length l -> forall x, In x l -> f x = 1%nat).
Proof.
  induction l as [|x l IH]; intros H; simpl.
  - split; [lia | intros _ y []].
  - destruct IH as [Hle Hall]; [intros y Hy; apply H; right; exact Hy|].
    pose proof (H x (or_introl eq_refl)) as Hx.
    split; [lia|].
    intros Hsum y [<-|Hy]; [lia|].
    apply Hall; [lia | exact Hy].
Qed.

Section ElevationFacts.
Context {geom raster : Type}.
Context {engine : SpatialEngine geom} {rasters : RasterEngine geom raster}.
Variable GEO_BDR_MNT : list (bdr_mnt raster).

Lemma elevation_from_tile_length (r : bdr_mnt raster) points :
  List.length
    (flat_map
       (fun d =>
          match RAST r with
          | Some tile =>
              if st_intersects_raster tile (st_transform d 4326)
              then [(tile, d)] else []
          | None => []
          end)
       points)
  = list_sum (map (fun d => if covers d r then 1%nat else 0%nat) points).
Proof.
  induction points as [|d points IH]; simpl; [reflexivity|].
  rewrite length_app, IH; unfold covers.
  destruct (RAST r) as [tile|]; [destruct (st_intersects_raster tile _)|]; reflexivity.
Qed.

Lemma elevation_from_length points :
  List.length (elevation_from GEO_BDR_MNT points)
  = list_sum (map (fun d => List.length (filter (covers d) GEO_BDR_MNT)) points).
Proof.
  unfold elevation_from.
  induction GEO_BDR_MNT as [|r table IH]; simpl.
  - symmetry; apply list_sum_map_const_0; reflexivity.
  - rewrite length_app, IH, elevation_from_tile_length, <- list_sum_map_add.
    f_equal; apply map_ext; intros d.
    destruct (covers d r); reflexivity.
Qed.

Lemma elevation_from_In points tile d :
  In (tile, d) (elevation_from GEO_BDR_MNT points) <->
  (exists r, In r GEO_BDR_MNT /\ RAST r = Some tile)
  /\ In d points
  /\ st_intersects_raster tile (st_transform d 4326) = true.
Proof.
  unfold elevation_from; rewrite in_flat_map; split.
  - intros (r & Hr & Hin).
    apply in_flat_map in Hin; destruct Hin as (d' & Hd' & Hin).
    destruct (RAST r) as [tile'|] eqn:Ht; [|destruct Hin].
    destruct (st_intersects_raster tile' _) eqn:Hc; [|destruct Hin].
    destruct Hin as [E|[]]; inversion E; subst.
    split; [exists r; auto | auto].
  - intros ((r & Hr & Ht) & Hd & Hc).
    exists r; split; [exact Hr|].
    apply in_flat_map; exists d; split; [exact Hd|].
    rewrite Ht, Hc; left; reflexivity.
Qed.

Lemma elevation_statement_rows wkt points :
  elevation_points_of wkt = Ok points ->
  elevation_statement GEO_BDR_MNT wkt
  = comprehension elevation_select (elevation_from GEO_BDR_MNT points).
Proof. unfold elevation_statement; intros ->; reflexivity. Qed.

Variable py_repr : json -> string.
Variable json_loads : string -> pyres json.
Variable db : database.

Lemma fetched_of_statement wkt points :
  elevation_points_of wkt = Ok points ->
  runs_elevation_statement GEO_BDR_MNT db wkt ->
  forall fetched,
    db_elevation db wkt = Ok fetched ->
    exists rows,
      comprehension elevation_select (elevation_from GEO_BDR_MNT points) = Ok rows
      /\ Permutation fetched rows.
Proof.
  intros Hpoints Hruns fetched Hfetched.
  unfold runs_elevation_statement in Hruns.
  rewrite (elevation_statement_rows wkt points Hpoints) in Hruns.
  destruct (comprehension _ _) as [rows|].
  - destruct Hruns as (fetched' & Hf' & Hperm).
    rewrite Hfetched in Hf'; inversion Hf'; subst fetched'.
    exists rows; split; [reflexivity | exact Hperm].
  - rewrite Hfetched in Hruns; discriminate.
Qed.

(** A database that returns the rows of the statement as listed runs it. *)
Lemma runs_own_statement wkt :
  db_elevation db wkt = elevation_statement GEO_BDR_MNT wkt ->
  runs_elevation_statement GEO_BDR_MNT db wkt.
Proof.
  unfold runs_elevation_statement; intros ->.
  destruct (elevation_statement GEO_BDR_MNT wkt) as [rows|e]; [|reflexivity].
  exists rows; split; [reflexivity | apply Permutation_refl].
Qed.

(** The profile has one entry for each pair of a sampled point and a raster
    tile that covers it: a point under two overlapping tiles is there
    twice, a point off the raster is missing.  When every sampled point
    lies on exactly one tile there are as many entries as points; and when
    every sampled point lies on some tile, there are as many entries as
    points in that case only. *)
Theorem profile_counts_tiles_over_points :
  forall req w resp w' wkt points,
    process_linestring py_repr json_loads db req w = (Ok resp, w') ->
    request_wkt py_repr req = Ok wkt ->
    runs_elevation_statement GEO_BDR_MNT db wkt ->
    elevation_points_of wkt = Ok points ->
    List.length (values resp)
    = list_sum (map (fun d => List.length (filter (covers d) GEO_BDR_MNT)) points)
    /\ ((forall d, In d points ->
                   List.length (filter (covers d) GEO_BDR_MNT) = 1%nat) ->
        List.length (values resp) = List.length points)
    /\ ((forall d, In d points ->
                   (1 <= List.length (filter (covers d) GEO_BDR_MNT))%nat) ->
        List.length (values resp) = List.length points ->
        forall d, In d points ->
                  List.length (filter (covers d) GEO_BDR_MNT) = 1%nat).
Proof.
  intros req w resp w' wkt points Hrun Hwkt Hruns Hpoints.
  destruct (process_linestring_Ok _ _ _ _ _ _ _ Hrun)
    as (wkt' & _ & fetched & _ & Hwkt' & _ & Hfetched & _).
  rewrite Hwkt in Hwkt'; inversion Hwkt'; subst wkt'.
  destruct (fetched_of_statement wkt points Hpoints Hruns fetched Hfetched)
    as (rows & Hrows & Hperm).
  assert (Hlen : List.length (values resp)
                 = list_sum (map (fun d => List.length (filter (covers d) GEO_BDR_MNT))
                               points)).
  { rewrite (values_length _ _ _ _ _ _ _ _ _ Hrun Hwkt Hfetched).
    rewrite (Permutation_length Hperm), (comprehension_length _ _ _ Hrows).
    apply elevation_from_length. }
  split; [exact Hlen|]; split.
  - intros Hone; rewrite Hlen; apply list_sum_map_const_1; exact Hone.
  - intros Hsome Hsame; rewrite Hlen in Hsame.
    exact (proj2 (list_sum_map_at_least_1 _ points Hsome) Hsame).
Qed.

(** A line none of whose sampled points lies on a raster tile is answered
    with [ZeroDivisionError]: the elevation statement returns no row, and
    the hydrography and land-cover statements are not run. *)
Theorem line_off_the_raster_raises :
  forall req w wkt total_length points,
    request_wkt py_repr req = Ok wkt ->
    total_length_of db wkt = Ok total_length ->
    runs_elevation_statement GEO_BDR_MNT db wkt ->
    elevation_points_of wkt = Ok points ->
    (forall d r, In d points -> In r GEO_BDR_MNT -> covers d r = false) ->
    process_linestring py_repr json_loads db req w
    = (Raise ZeroDivisionError,
       after_queries [LengthStatement; ElevationStatement] wkt w).
Proof.
  intros req w wkt L points Hwkt HL Hruns Hpoints Hoff.
  assert (Hnone : elevation_from GEO_BDR_MNT points = []).
  { apply length_zero_iff_nil; rewrite elevation_from_length.
    apply list_sum_map_const_0; intros d Hd.
    apply length_zero_iff_nil.
    destruct (filter (covers d) GEO_BDR_MNT) as [|r l] eqn:Hf; [reflexivity|].
    assert (Hr : In r (filter (covers d) GEO_BDR_MNT)) by (rewrite Hf; left; reflexivity).
    apply filter_In in Hr; destruct Hr as [Hr Hc].
    rewrite (Hoff d r Hd Hr) in Hc; discriminate. }
  unfold runs_elevation_statement in Hruns.
  rewrite (elevation_statement_rows wkt points Hpoints), Hnone in Hruns.
  destruct Hruns as (fetched & Hfetched & Hperm).
  apply Permutation_sym, Permutation_nil in Hperm; subst fetched.
  rewrite process_linestring_stages, Hwkt; cbv zeta; rewrite HL, Hfetched.
  reflexivity.
Qed.

(** Every entry of the profile is a sampled point of the line on a raster
    tile: its geometry is decoded from the GeoJSON text of the point, and
    its elevation is the value of the tile there cast to INT, or 0 where
    the tile has no data. *)
Theorem profile_entries_are_covered_points :
  forall req w resp w' wkt points,
    process_linestring py_repr json_loads db req w = (Ok resp, w') ->
    request_wkt py_repr req = Ok wkt ->
    runs_elevation_statement GEO_BDR_MNT db wkt ->
    elevation_points_of wkt = Ok points ->
    forall entry,
      In entry (values resp) ->
      exists r tile d doc,
        In r GEO_BDR_MNT /\ RAST r = Some tile
        /\ In d points
        /\ st_intersects_raster tile (st_transform d 4326) = true
        /\ json_loads (st_asgeojson d) = Ok doc
        /\ getitem_str doc "coordinates" = Ok (geometry entry)
        /\ match st_value tile (st_transform d 4326) with
           | Some x => float8_to_int4 x = Ok (elevation entry)
           | None => elevation entry = 0
           end.
Proof.
  intros req w resp w' wkt points Hrun Hwkt Hruns Hpoints entry Hentry.
  destruct (process_linestring_Ok _ _ _ _ _ _ _ Hrun)
    as (wkt' & _ & fetched & _ & Hwkt' & _ & Hfetched & _).
  rewrite Hwkt in Hwkt'; inversion Hwkt'; subst wkt'.
  destruct (fetched_of_statement wkt points Hpoints Hruns fetched Hfetched)
    as (rows & Hrows & Hperm).
  destruct (In_nth_error _ _ Hentry) as [i Hi].
  assert (Hlt : (i < List.length fetched)%nat).
  { rewrite <- (values_length _ _ _ _ _ _ _ _ _ Hrun Hwkt Hfetched).
    apply nth_error_Some; rewrite Hi; discriminate. }
  destruct (nth_error fetched i) as [row|] eqn:Hrow;
    [|apply nth_error_None in Hrow; lia].
  destruct (values_nth _ _ _ _ _ _ _ _ _ _ _ Hrun Hwkt Hfetched Hrow)
    as (_ & seg & entry' & _ & _ & Hi' & Hf).
  rewrite Hi in Hi'; inversion Hi'; subst entry'.
  destruct (profile_entry_Ok _ _ _ _ _ Hf) as (_ & doc & _ & _ & Helev & Hdoc & Hgeom).
  assert (Hin : In row rows)
    by (apply (Permutation_in _ Hperm), (nth_error_In _ _ Hrow)).
  destruct (comprehension_In _ _ _ _ Hrows Hin) as ([tile d] & Htd & Hsel).
  apply elevation_from_In in Htd; destruct Htd as ((r & Hr & Ht) & Hd & Hc).
  exists r, tile, d, doc.
  unfold elevation_select, pyres_bind in Hsel.
  unfold elevation_point in Helev, Hdoc; simpl in Helev, Hdoc.
  destruct (st_value tile (st_transform d 4326)) as [x|].
  - destruct (float8_to_int4 x) as [v|] eqn:Hv; [|discriminate].
    inversion Hsel; subst row; simpl in *.
    repeat split; try assumption; congruence.
  - inversion Hsel; subst row; simpl in *.
    repeat split; assumption.
Qed.

End ElevationFacts.

(** ** The land-cover segment statement *)

Section OrderLtFacts.
Context {A : Type}.
Variable lt : A -> A -> bool.

Lemma insert_lt_perm x l : Permutation (x :: l) (insert_lt lt x l).
Proof.
  induction l as [|y l IH]; simpl; [apply Permutation_refl|].
  destruct (lt x y); [apply Permutation_refl|].
  eapply perm_trans; [apply perm_swap|].
  apply perm_skip; exact IH.
Qed.

Lemma order_lt_perm l : Permutation l (order_lt lt l).
Proof.
  induction l as [|x l IH]; simpl; [apply perm_nil|].
  eapply perm_trans; [apply perm_skip; exact IH|].
  apply insert_lt_perm.
Qed.

Hypothesis lt_asym : forall a b, lt a b = true -> lt b a = false.

Lemma insert_lt_sorted x l :
  Sorted (fun a b => lt b a = false) l ->
  Sorted (fun a b => lt b a = false) (insert_lt lt x l).
Proof.
  induction 1 as [|y l Hl IH Hy]; simpl.
  - constructor; constructor.
  - destruct (lt x y) eqn:Hxy.
    + constructor; [constructor; assumption|].
      constructor; apply lt_asym; exact Hxy.
    + constructor; [exact IH|].
      destruct l as [|z l]; simpl.
      * constructor; exact Hxy.
      * destruct (lt x z); constructor; [exact Hxy|].
        inversion Hy; assumption.
Qed.

Lemma order_lt_sorted l : Sorted (fun a b => lt b a = false) (order_lt lt l).
Proof.
  induction l as [|x l IH]; simpl; [constructor|].
  apply insert_lt_sorted; exact IH.
Qed.

End OrderLtFacts.

Lemma sql_like_percent s : sql_like "%" s = true.
Proof.
  induction s as [|c s IH]; [reflexivity|].
  simpl in *; exact IH.
Qed.

(** The pattern of the WHERE clause accepts [ST], any one character,
    [LineString] and anything after it; so it accepts [ST_LineString] and
    refuses the names of the other simple types. *)
Theorem like_linestring s :
  sql_like "ST_LineString%" s = true <->
  exists c rest,
    s = ("ST" ++ String c EmptyString ++ "LineString" ++ rest)%string.
Proof.
  split.
  - intros H; cbn -[Ascii.eqb] in H.
    repeat first
      [ match type of H with
        | (_ && _)%bool = true =>
            let E := fresh "E" in
            apply andb_true_iff in H; destruct H as [E H];
            apply Ascii.eqb_eq in E; subst
        end
      | match type of H with
        | match ?s with EmptyString => _ | String _ _ => _ end = true =>
            destruct s as [|? ?]; [discriminate|]
        end ].
    eexists; eexists; reflexivity.
  - intros (c & rest & ->).
    change (sql_like "%" rest = true); apply sql_like_percent.
Qed.

Section ClcStatementFacts.
Context {geom : Type}.
Context {engine : SpatialEngine geom} {segments : SegmentEngine geom}.
Variable GEO_CLC_2018 : list (clc_2018 geom).

Lemma seg_from_In line c d :
  In (c, d) (seg_from GEO_CLC_2018 line) <->
  exists g, In c GEO_CLC_2018 /\ clc_geom c = Some g
            /\ st_intersects line g = true
            /\ In d (st_dump (st_intersection line g)).
Proof.
  unfold seg_from; rewrite in_flat_map; split.
  - intros ([c' g] & Hcg & Hin).
    apply in_map_iff in Hin; destruct Hin as (d' & E & Hd'); inversion E; subst.
    apply clc_from_In_iff in Hcg; destruct Hcg as (Hc & Hg & Hx).
    exists g; auto.
  - intros (g & Hc & Hg & Hx & Hd).
    exists (c, g); split; [apply clc_from_In_iff; auto|].
    simpl; apply in_map; exact Hd.
Qed.

Lemma running_sum_rows state segs rows :
  running_sum state segs = Ok rows ->
  map (fun row => (clc_code row, clc_description row)) rows
  = map (fun seg => (SEG_CODE_CLC seg, SEG_DESCRIPTION_CLC seg)) segs.
Proof.
  revert state rows; induction segs as [|seg segs IH]; intros state rows H; simpl in H.
  - inversion H; reflexivity.
  - unfold pyres_bind in H.
    destruct (match state with None => _ | Some _ => _ end) as [total|]; [|discriminate].
    destruct (float8_to_int4 total) as [v|]; [|discriminate].
    destruct (running_sum (Some total) segs) as [rows'|] eqn:Hrows'; [|discriminate].
    inversion H; subst; simpl; f_equal; eapply IH; exact Hrows'.
Qed.

(** The sum the window holds at the row of index [k]: the lengths of the
    rows up to that one, added in order, the first one starting the sum
    when there is no [state] yet. *)
Lemma running_sum_nth state segs rows k row :
  running_sum state segs = Ok rows ->
  nth_error rows k = Some row ->
  let lengths := map (fun seg => st_length (SEG_GEOM seg)) (firstn (S k) segs) in
  exists total,
    match state with
    | Some s => float8_accum s lengths = Ok total
    | None =>
        exists first others,
          lengths = first :: others /\ float8_accum first others = Ok total
    end
    /\ float8_to_int4 total = Ok (clc_longueur_cumulee row).
Proof.
  revert state rows k; induction segs as [|seg segs IH]; intros state rows k H Hk;
    simpl in H.
  - inversion H; subst; destruct k; discriminate.
  - unfold pyres_bind in H.
    destruct (match state with None => _ | Some _ => _ end) as [total|] eqn:Ht;
      [|discriminate].
    destruct (float8_to_int4 total) as [v|] eqn:Hv; [|discriminate].
    destruct (running_sum (Some total) segs) as [rows'|] eqn:Hrows'; [|discriminate].
    inversion H; subst rows; clear H.
    destruct k as [|k]; simpl in Hk.
    + inversion Hk; subst row; cbv zeta; simpl.
      exists total; split; [|exact Hv].
      destruct state as [s|].
      * unfold pyres_bind; rewrite Ht; reflexivity.
      * inversion Ht; subst.
        exists (st_length (SEG_GEOM seg)), []; split; reflexivity.
    + destruct (IH (Some total) rows' k Hrows' Hk) as (total' & Hacc & Hcast).
      cbv zeta in *.
      exists total'; split; [|exact Hcast].
      change (firstn (S (S k)) (seg :: segs)) with (seg :: firstn (S k) segs).
      rewrite map_cons.
      destruct state as [s|].
      * simpl; unfold pyres_bind; rewrite Ht; exact Hacc.
      * inversion Ht; subst.
        eexists; eexists; split; [reflexivity | exact Hacc].
Qed.

(** The land-cover segment statement returns one row per piece of the
    intersection of the line with a polygon it intersects, for the pieces
    that are lines and none else (a polygon the line only touches at a
    point gives no row); the rows carry the code and the description of
    the polygon of their piece. *)
Theorem clc_rows_are_line_pieces :
  forall wkt rows,
    clc_statement GEO_CLC_2018 wkt = Ok rows ->
    exists line all segs,
      st_geomfromtext wkt 3857 = Ok line
      /\ comprehension (seg_select line) (seg_from GEO_CLC_2018 line) = Ok all
      /\ Permutation (filter is_linestring all) segs
      /\ map (fun row => (clc_code row, clc_description row)) rows
         = map (fun seg => (SEG_CODE_CLC seg, SEG_DESCRIPTION_CLC seg)) segs
      /\ forall seg,
           In seg segs ->
           (exists c rest,
               st_geometrytype (SEG_GEOM seg)
               = ("ST" ++ String c EmptyString ++ "LineString" ++ rest)%string)
           /\ exists c g,
               In c GEO_CLC_2018 /\ clc_geom c = Some g
               /\ st_intersects line g = true
               /\ In (SEG_GEOM seg) (st_dump (st_intersection line g))
               /\ SEG_CODE_CLC seg = CODE_CLC c
               /\ SEG_DESCRIPTION_CLC seg = DESCRIPTION_CLC c.
Proof.
  intros wkt rows; unfold clc_statement, clc_segments, pyres_bind.
  destruct (st_geomfromtext wkt 3857) as [line|]; [|discriminate].
  destruct (comprehension _ _) as [all|] eqn:Hall; [|discriminate].
  intros Hrows.
  set (segs := order_lt _ (filter is_linestring all)) in *.
  exists line, all, segs.
  split; [reflexivity|]; split; [exact Hall|].
  split; [apply order_lt_perm|].
  split; [eapply running_sum_rows; exact Hrows|].
  intros seg Hseg.
  apply (Permutation_in _ (Permutation_sym (order_lt_perm _ _))) in Hseg.
  apply filter_In in Hseg; destruct Hseg as [Hin Hlike].
  split; [apply like_linestring; exact Hlike|].
  destruct (comprehension_In _ _ _ _ Hall Hin) as ([c d] & Hcd & Hsel).
  apply seg_from_In in Hcd; destruct Hcd as (g & Hc & Hg & Hx & Hd).
  unfold seg_select, pyres_bind in Hsel.
  destruct (st_linelocatepoint line (st_centroid d)); [|discriminate].
  inversion Hsel; subst seg; simpl.
  exists c, g; auto 10.
Qed.

(** [LONGUEUR_CUMULEE] of the row of index [k] is the sum, cast to INT, of
    the lengths of the pieces of the rows 0 to [k]: the lengths add up
    along the result, piece after piece. *)
Theorem clc_rows_cumulate_lengths :
  forall wkt rows line segs,
    clc_statement GEO_CLC_2018 wkt = Ok rows ->
    st_geomfromtext wkt 3857 = Ok line ->
    clc_segments GEO_CLC_2018 line = Ok segs ->
    forall k row,
      nth_error rows k = Some row ->
      exists first others total,
        map (fun seg => st_length (SEG_GEOM seg)) (firstn (S k) segs) = first :: others
        /\ float8_accum first others = Ok total
        /\ float8_to_int4 total = Ok (clc_longueur_cumulee row).
Proof.
  intros wkt rows line segs Hst Hline Hsegs k row Hk.
  unfold clc_statement, pyres_bind in Hst; rewrite Hline, Hsegs in Hst.
  destruct (running_sum_nth None segs rows k row Hst Hk)
    as (total & (first & others & Hl & Hacc) & Hcast).
  exists first, others, total; auto.
Qed.

(** The rows follow the order of [POSITION]: with an order of float8 in
    which two values are never each below the other, no row has a position
    below that of the row before it. *)
Theorem clc_segments_in_position_order :
  (forall a b, float8lt a b = true -> float8lt b a = false) ->
  forall line segs,
    clc_segments GEO_CLC_2018 line = Ok segs ->
    Sorted (fun a b => float8lt (SEG_POSITION b) (SEG_POSITION a) = false) segs.
Proof.
  intros Hasym line segs; unfold clc_segments, pyres_bind.
  destruct (comprehension _ _) as [all|]; [|discriminate].
  intros H; inversion H; subst.
  apply (order_lt_sorted (fun a b => float8lt (SEG_POSITION a) (SEG_POSITION b))).
  intros a b; apply Hasym.
Qed.

End ClcStatementFacts.

(** ** The properties on the samples *)

Lemma track_run : Track.run = (Ok Track.answer,
  {| opened := 5; live := []; trace := request_trace 0 Segment.wkt |}).
Proof. vm_compute. reflexivity. Qed.

Lemma zero_length_run :
  process_linestring Sample.py_repr Sample.json_loads Cases.db_zero_length
    Sample.req fresh_world
  = (Ok Cases.answer_zero_length,
     {| opened := 5; live := []; trace := request_trace 0 Sample.wkt |}).
Proof. vm_compute. reflexivity. Qed.



Lemma unreadable_request_leaves_database_alone_witness :
  process_linestring Sample.py_repr Sample.json_loads Sample.db
    {| request_json := Raise JSONDecodeError |} fresh_world
  = (Raise JSONDecodeError, fresh_world).
Proof.
  exact (unreadable_request_leaves_database_alone Sample.py_repr Sample.json_loads
           Sample.db {| request_json := Raise JSONDecodeError |} fresh_world
           JSONDecodeError eq_refl).
Defined.

Lemma body_without_coords_raises_witness :
  process_linestring Sample.py_repr Sample.json_loads Sample.db
    (Cases.req_of Cases.body_no_coords) fresh_world = (Raise KeyError, fresh_world)
  /\ process_linestring Sample.py_repr Sample.json_loads Sample.db
       (Cases.req_of Cases.body_array) fresh_world = (Raise TypeError, fresh_world).
Proof.
  split.
  - exact (proj1 (body_without_coords_raises Sample.py_repr Sample.json_loads Sample.db
                    (Cases.req_of Cases.body_no_coords) fresh_world
                    Cases.body_no_coords eq_refl)
             _ eq_refl eq_refl).
  - refine (proj2 (body_without_coords_raises Sample.py_repr Sample.json_loads Sample.db
                     (Cases.req_of Cases.body_array) fresh_world
                     Cases.body_array eq_refl) _).
    intros members H; discriminate H.
Defined.

Lemma short_entry_raises_witness :
  process_linestring Sample.py_repr Sample.json_loads Sample.db
    (Cases.req_of Cases.body_short_entry) fresh_world = (Raise IndexError, fresh_world).
Proof.
  refine (short_entry_raises Sample.py_repr Sample.json_loads Sample.db
            (Cases.req_of Cases.body_short_entry) fresh_world
            Cases.body_short_entry [JList [JInt 0; JInt 0]] [JInt 5] [JNull]
            eq_refl eq_refl _ _).
  - constructor; [|constructor].
    exists (JInt 0), (JInt 0); split; reflexivity.
  - simpl; lia.
Defined.

Lemma database_error_ends_request_witness :
  fst (process_linestring Sample.py_repr Sample.json_loads Cases.db_hydro_down
         Sample.req fresh_world) = Raise DatabaseError
  /\ executed (trace (snd (process_linestring Sample.py_repr Sample.json_loads
                             Cases.db_hydro_down Sample.req fresh_world)))
     = [LengthStatement; ElevationStatement; HydroStatement].
Proof.
  destruct (database_error_ends_request Sample.py_repr Sample.json_loads
              Cases.db_hydro_down Sample.req fresh_world Sample.wkt eq_refl)
    as (_ & _ & _ & H).
  destruct (H Sample.two Sample.fetched (values Sample.answer) eq_refl eq_refl eq_refl)
    as (Hhydro & _).
  exact (Hhydro DatabaseError eq_refl).
Defined.

Lemma info_fields_are_fetched_rows_witness :
  db_hydro Sample.db Sample.wkt = Ok (hydro_info Sample.answer)
  /\ db_clc Sample.db Sample.wkt = Ok (clc_info Sample.answer)
  /\ db_clc_pct Sample.db Sample.wkt = Ok (clc_pct_info Sample.answer).
Proof.
  exact (info_fields_are_fetched_rows Sample.py_repr Sample.json_loads Sample.db
           Sample.req fresh_world Sample.answer _ Sample.wkt sample_run eq_refl).
Defined.

Lemma zero_length_distances_witness :
  Forall (fun entry => distance entry = 0) (values Cases.answer_zero_length).
Proof.
  exact (zero_length_distances Sample.py_repr Sample.json_loads Cases.db_zero_length
           Sample.req fresh_world Cases.answer_zero_length _ Sample.wkt false
           zero_length_run eq_refl eq_refl).
Defined.

Lemma non_finite_length_raises_witness :
  process_linestring Sample.py_repr Sample.json_loads Cases.db_infinite_length
    Sample.req fresh_world
  = (Raise ValueError,
     after_queries [LengthStatement; ElevationStatement] Sample.wkt fresh_world).
Proof.
  refine (non_finite_length_raises Sample.py_repr Sample.json_loads
            Cases.db_infinite_length Sample.req fresh_world Sample.wkt
            (S754_infinity false) Sample.fetched
            (S754_finite false 6755399441055744 (-51))
            eq_refl eq_refl eq_refl eq_refl _ eq_refl).
  discriminate.
Defined.

Lemma hydro_rows_are_crossings_witness :
  exists line selected,
    st_geomfromtext (SpatialEngine := Segment.engine) Segment.wkt 3857 = Ok line
    /\ comprehension (hydro_select (engine := Segment.engine) line)
         (filter (fun cd => classe_in_1_2_3 (CLASSE (fst cd)))
            (hydro_from (engine := Segment.engine) Segment.rivers line)) = Ok selected
    /\ Permutation selected Segment.hydro.
Proof.
  destruct (hydro_rows_are_crossings (engine := Segment.engine) Segment.rivers
              Segment.wkt Segment.hydro eq_refl)
    as (line & selected & Hline & Hsel & Hperm & _).
  exists line, selected; split; [exact Hline|]; split; [exact Hsel | exact Hperm].
Defined.

Lemma clc_pct_rows_are_covers_met_witness :
  exists row,
    In row Segment.pct /\ pct_code row = SqlInt 112
    /\ pct_description row = SqlText "Urban".
Proof.
  apply (proj2 (clc_pct_rows_are_covers_met (engine := Segment.engine)
                  Segment.land_cover Segment.wkt Segment.pct (0, 200)
                  eq_refl eq_refl (SqlInt 112) (SqlText "Urban"))).
  exists {| CODE_CLC := SqlInt 112; DESCRIPTION_CLC := SqlText "Urban";
            clc_geom := Some (60, 100) |}, (60, 100).
  repeat split; try reflexivity.
  right; left; reflexivity.
Defined.

Lemma track_runs_elevation_statement :
  runs_elevation_statement (engine := Segment.engine) (rasters := Track.rasters)
    Track.tiles Track.db Segment.wkt.
Proof. apply runs_own_statement; reflexivity. Qed.

Lemma far_runs_elevation_statement :
  runs_elevation_statement (engine := Segment.engine) (rasters := Track.rasters)
    Track.tiles_far (Track.db_over Track.tiles_far) Segment.wkt.
Proof. apply runs_own_statement; reflexivity. Qed.

Lemma profile_counts_tiles_over_points_witness :
  List.length (values Track.answer) = 5%nat.
Proof.
  exact (proj1 (profile_counts_tiles_over_points (engine := Segment.engine)
                  (rasters := Track.rasters)
                  Track.tiles Sample.py_repr Track.json_loads Track.db
                  Segment.req fresh_world Track.answer _ Segment.wkt
                  [(50, 50); (100, 100); (150, 150); (200, 200)]
                  track_run eq_refl track_runs_elevation_statement eq_refl)).
Defined.

Lemma line_off_the_raster_raises_witness :
  process_linestring Sample.py_repr Track.json_loads (Track.db_over Track.tiles_far)
    Segment.req fresh_world
  = (Raise ZeroDivisionError,
     after_queries [LengthStatement; ElevationStatement] Segment.wkt fresh_world).
Proof.
  refine (line_off_the_raster_raises (engine := Segment.engine) (rasters := Track.rasters)
            Track.tiles_far Sample.py_repr Track.json_loads
            (Track.db_over Track.tiles_far) Segment.req fresh_world Segment.wkt
            (Segment.float_of_Z 200) [(50, 50); (100, 100); (150, 150); (200, 200)]
            eq_refl eq_refl far_runs_elevation_statement eq_refl _).
  intros d r Hd Hr.
  destruct Hr as [<-|[]].
  repeat (destruct Hd as [<-|Hd]; [reflexivity|]); destruct Hd.
Defined.

Lemma profile_entries_are_covered_points_witness :
  exists r tile d doc,
    In r Track.tiles /\ RAST r = Some tile
    /\ In d [(50, 50); (100, 100); (150, 150); (200, 200)]
    /\ st_intersects_raster (RasterEngine := Track.rasters) tile
         (st_transform (RasterEngine := Track.rasters) d 4326) = true
    /\ Track.json_loads (st_asgeojson (RasterEngine := Track.rasters) d) = Ok doc
    /\ getitem_str doc "coordinates" = Ok (JList [JInt 200; JInt 0])
    /\ match st_value (RasterEngine := Track.rasters) tile
               (st_transform (RasterEngine := Track.rasters) d 4326) with
       | Some x => float8_to_int4 (SpatialEngine := Segment.engine) x = Ok 0
       | None => 0 = 0
       end.
Proof.
  refine (profile_entries_are_covered_points (engine := Segment.engine)
            (rasters := Track.rasters)
            Track.tiles Sample.py_repr Track.json_loads Track.db
            Segment.req fresh_world Track.answer _ Segment.wkt
            [(50, 50); (100, 100); (150, 150); (200, 200)]
            track_run eq_refl track_runs_elevation_statement eq_refl
            {| distance := 160; elevation := 0; geometry := JList [JInt 200; JInt 0] |}
            _).
  simpl; auto 10.
Defined.

Lemma compare_cont_Eq_antisym p q :
  Pos.compare_cont Eq q p = CompOpp (Pos.compare_cont Eq p q).
Proof. symmetry; exact (Pos.compare_cont_antisym p q Eq). Qed.

Lemma SFcompare_Lt_Gt a b : SFcompare a b = Some Lt -> SFcompare b a = Some Gt.
Proof.
  destruct a as [sa|sa| |sa ma ea], b as [sb|sb| |sb mb eb]; simpl;
    try destruct sa; try destruct sb; intros H; try discriminate; try reflexivity;
    inversion H as [H']; clear H; f_equal;
    rewrite (Z.compare_antisym ea eb), (compare_cont_Eq_antisym ma mb);
    destruct (ea ?= eb); simpl in *; try discriminate; try reflexivity;
    destruct (Pos.compare_cont Eq ma mb); simpl in *; try discriminate; reflexivity.
Qed.

Lemma SFltb_asym a b : SFltb a b = true -> SFltb b a = false.
Proof.
  unfold SFltb; intros H.
  destruct (SFcompare a b) as [[| |]|] eqn:E; try discriminate.
  rewrite (SFcompare_Lt_Gt a b E); reflexivity.
Qed.

Lemma clc_rows_are_line_pieces_witness :
  exists line all segs,
    st_geomfromtext (SpatialEngine := Segment.engine) Segment.wkt 3857 = Ok line
    /\ comprehension (seg_select (engine := Segment.engine) (segments := Track.segments) line)
         (seg_from (engine := Segment.engine) Track.land_cover line) = Ok all
    /\ Permutation (filter (is_linestring (segments := Track.segments)) all) segs
    /\ map (fun row => (clc_code row, clc_description row)) Track.clc
       = map (fun seg => (SEG_CODE_CLC seg, SEG_DESCRIPTION_CLC seg)) segs.
Proof.
  destruct (clc_rows_are_line_pieces (engine := Segment.engine)
              (segments := Track.segments) Track.land_cover Segment.wkt Track.clc eq_refl)
    as (line & all & segs & Hline & Hall & Hperm & Hmap & _).
  exists line, all, segs; auto.
Defined.

Lemma clc_rows_cumulate_lengths_witness :
  exists first others total,
    float8_accum (engine := Segment.engine) first others = Ok total
    /\ float8_to_int4 (SpatialEngine := Segment.engine) total = Ok 200.
Proof.
  destruct (clc_segments (engine := Segment.engine) (segments := Track.segments)
              Track.land_cover (0, 200)) as [segs|] eqn:Hsegs; [|discriminate].
  destruct (clc_rows_cumulate_lengths (engine := Segment.engine)
              (segments := Track.segments) Track.land_cover Segment.wkt Track.clc
              (0, 200) segs eq_refl eq_refl Hsegs 2%nat
              {| clc_code := SqlInt 311;
                 clc_description := SqlText "Broad-leaved forest";
                 clc_longueur_cumulee := 200 |} eq_refl)
    as (first & others & total & _ & Hacc & Hcast).
  exists first, others, total; split; [exact Hacc | exact Hcast].
Defined.

Lemma clc_segments_in_position_order_witness :
  exists segs,
    clc_segments (engine := Segment.engine) (segments := Track.segments)
      Track.land_cover (0, 200) = Ok segs
    /\ List.length segs = 3%nat
    /\ Sorted (fun a b => SFltb (SEG_POSITION b) (SEG_POSITION a) = false) segs.
Proof.
  destruct (clc_segments (engine := Segment.engine) (segments := Track.segments)
              Track.land_cover (0, 200)) as [segs|] eqn:Hsegs; [|discriminate].
  exists segs; split; [reflexivity|split].
  - injection Hsegs as <-; reflexivity.
  - exact (clc_segments_in_position_order (engine := Segment.engine)
             (segments := Track.segments) Track.land_cover SFltb_asym (0, 200)
             segs Hsegs).
Defined.

Lemma any_number_of_points_is_sent_witness :
  exists more,
    trace (snd (process_linestring Sample.py_repr Sample.json_loads Sample.db
                  (Cases.req_of (JDict [("coords"%string, JList [])])) fresh_world))
    = Connect 0 :: Execute 0 LengthStatement "LINESTRING()" :: more.
Proof.
  exact (proj2 (any_number_of_points_is_sent Sample.py_repr Sample.json_loads Sample.db
                  (Cases.req_of (JDict [("coords"%string, JList [])])) fresh_world
                  (JDict [("coords"%string, JList [])]) (JList []) [] []
                  eq_refl eq_refl eq_refl (Forall2_nil _))).
Defined.

Lemma dry_run :
  process_linestring Sample.py_repr Sample.json_loads Cases.db_dry Sample.req fresh_world
  = (Ok Cases.answer_dry,
     {| opened := 5; live := []; trace := request_trace 0 Sample.wkt |}).
Proof. vm_compute. reflexivity. Qed.

Lemma profile_ignores_other_statements_witness :
  values Sample.answer = values Cases.answer_dry.
Proof.
  exact (profile_ignores_other_statements Sample.py_repr Sample.json_loads
           Sample.db Cases.db_dry Sample.req fresh_world fresh_world
           Sample.answer Cases.answer_dry _ _ Sample.wkt
           eq_refl eq_refl eq_refl sample_run dry_run).
Defined.
